(** * CIRA mobile client: the offline submission queue and its synchronisation

    A shallow embedding of
      - mobile/lib/storage.ts   (the sync queue kept in AsyncStorage),
      - mobile/lib/network.ts   (isOnline),
      - mobile/lib/sync.ts      (retry policy, syncSingleReport, syncPendingReports),
      - the duplicate clean-up block of handleSubmit in
        mobile/components/ReportFormModal.tsx,
      - the single-flight guard of mobile/hooks/useOfflineSync.ts,
    followed by the properties of the queue that the specification states.

    Asynchronous functions are embedded as computations in a state-and-exception
    monad over a [World]: the persisted queue, plus the answers that the
    environment (clock, storage, connectivity, backend) will give to the
    coming calls.  A thrown exception keeps the state reached so far, as a
    JavaScript [throw] does. *)

From Stdlib Require Import ZArith List String Ascii Bool Lia DecimalString.
From Stdlib Require Import Floats.PrimFloat.
Import ListNotations.

Open Scope string_scope.
Open Scope list_scope.
Open Scope Z_scope.

(** ** JavaScript primitives used by the sources *)

Module Js.

(** Errors as the sources inspect them: [error.code], [error.message] and
    [error.response] (the HTTP status of the response, when one arrived). *)
Record Error := mkError {
  code : option string;
  message : option string;
  response : option Z
}.

(** [needle] is a prefix of [s]. *)
Fixpoint startsWith (needle s : string) : bool :=
  match needle, s with
  | EmptyString, _ => true
  | String a n', String b s' => if Ascii.eqb a b then startsWith n' s' else false
  | String _ _, EmptyString => false
  end.

(** [s.includes(needle)] *)
Fixpoint includes (s needle : string) : bool :=
  startsWith needle s ||
  match s with
  | EmptyString => false
  | String _ s' => includes s' needle
  end.

(** [m?.includes(needle)] used as a condition: [undefined] is falsy. *)
Definition optIncludes (m : option string) (needle : string) : bool :=
  match m with
  | Some s => includes s needle
  | None => false
  end.

(** [m || dflt] on an optional string: [undefined] and [''] are falsy. *)
Definition orElse (m : option string) (dflt : string) : string :=
  match m with
  | Some EmptyString | None => dflt
  | Some s => s
  end.

(** [arr.findIndex(p)], [-1] when no element satisfies [p]. *)
Fixpoint findIndex {A} (p : A -> bool) (arr : list A) : Z :=
  match arr with
  | [] => -1
  | x :: rest =>
      if p x then 0
      else let i := findIndex p rest in if i <? 0 then -1 else i + 1
  end.

(** [arr[i] = v] for an index inside the array. *)
Fixpoint setAt {A} (arr : list A) (i : nat) (v : A) : list A :=
  match arr, i with
  | [], _ => []
  | _ :: rest, O => v :: rest
  | x :: rest, S j => x :: setAt rest j v
  end.

(** Decimal rendering of an integer inside a template literal. *)
Definition numToString (n : Z) : string :=
  NilZero.string_of_int (Z.to_int n).

End Js.

(** ** Data model (mobile/lib/storage.ts) *)

Inductive Severity := low | medium | high.

Record ReportData := mkReportData {
  title : string;
  description : string;
  type : string;
  severity : Severity;
  latitude : float;
  longitude : float;
  addressText : option string;
  province : option string;
  district : option string;
  sector : option string
}.

Record SyncQueueItem := mkItem {
  id : string;
  reportData : ReportData;
  photos : list string;
  retryCount : Z;
  createdAt : Z;
  lastAttempt : option Z;
  error : option string
}.

(** [Partial<SyncQueueItem>]: the keys an update object carries.  The two
    optional fields may be carried with the value [undefined]. *)
Record Updates := mkUpdates {
  u_id : option string;
  u_reportData : option ReportData;
  u_photos : option (list string);
  u_retryCount : option Z;
  u_createdAt : option Z;
  u_lastAttempt : option (option Z);
  u_error : option (option string)
}.

Definition orKeep {A} (u : option A) (old : A) : A :=
  match u with Some v => v | None => old end.

(** [{ ...item, ...updates }] *)
Definition spread (item : SyncQueueItem) (u : Updates) : SyncQueueItem :=
  {| id := orKeep (u_id u) (id item);
     reportData := orKeep (u_reportData u) (reportData item);
     photos := orKeep (u_photos u) (photos item);
     retryCount := orKeep (u_retryCount u) (retryCount item);
     createdAt := orKeep (u_createdAt u) (createdAt item);
     lastAttempt := orKeep (u_lastAttempt u) (lastAttempt item);
     error := orKeep (u_error u) (error item) |}.

(** ** The world the asynchronous functions run in *)

(** A call to the backend, as the backend sees it. *)
Inductive NetEvent :=
| CreateOk (data : ReportData) (reportId : string)
| CreateFailed (data : ReportData) (e : Js.Error)
| UploadOk (reportId uri : string)
| UploadFailed (reportId uri : string).

Record World := mkWorld {
  (** value stored under SYNC_QUEUE_KEY, parsed; [None] when the key is unset *)
  disk : option (list SyncQueueItem);
  (** the reading the next [Date.now()] returns, and the later ones *)
  clock : Z;
  clockLater : list Z;
  (** outcome of the coming [AsyncStorage.getItem] calls: [Some m] throws an
      error with message [m]; an exhausted list means no failure *)
  readFaults : list (option string);
  (** the same for [AsyncStorage.setItem] *)
  writeFaults : list (option string);
  (** [isConnected] of the coming [NetInfo.fetch()] results, [None] for null *)
  netinfo : list (option bool);
  (** outcome of the coming [apiClient.createReport] calls: the id of the
      created report, or the error thrown *)
  backend : list (Js.Error + string);
  (** outcome of the coming [apiClient.uploadPhoto] calls *)
  uploads : list bool;
  (** the coming [Math.random().toString(36).substr(2, 9)] strings *)
  randoms : list string;
  (** the calls the backend received so far, oldest first *)
  netLog : list NetEvent
}.

Definition queueOf (d : option (list SyncQueueItem)) : list SyncQueueItem :=
  match d with Some q => q | None => [] end.

(** ** Asynchronous computations *)

Inductive Outcome (A : Type) :=
| Return (a : A)
| Throw (e : Js.Error).
Arguments Return {A} a.
Arguments Throw {A} e.

Definition M (A : Type) : Type := World -> Outcome A * World.

Definition ret {A} (a : A) : M A := fun w => (Return a, w).

Definition throw {A} (e : Js.Error) : M A := fun w => (Throw e, w).

Definition bind {A B} (m : M A) (k : A -> M B) : M B :=
  fun w =>
    match m w with
    | (Return a, w') => k a w'
    | (Throw e, w') => (Throw e, w')
    end.

(** [try { m } catch (e) { handler e }] *)
Definition tryCatch {A} (m : M A) (handler : Js.Error -> M A) : M A :=
  fun w =>
    match m w with
    | (Return a, w') => (Return a, w')
    | (Throw e, w') => handler e w'
    end.

Declare Scope js_scope.
Delimit Scope js_scope with js.
Notation "x <- m ;; k" := (bind m (fun x => k))
  (at level 100, m at next level, right associativity) : js_scope.
Notation "m ;; k" := (bind m (fun _ => k))
  (at level 100, right associativity) : js_scope.
Open Scope js_scope.

(** [for (const x of xs) { body x }] *)
Fixpoint forOf {A} (xs : list A) (body : A -> M unit) : M unit :=
  match xs with
  | [] => ret tt
  | x :: rest => body x ;; forOf rest body
  end.

(** *** Environment primitives *)

Definition storageError (m : string) : Js.Error :=
  Js.mkError None (Some m) None.

Definition setDisk (d : option (list SyncQueueItem)) (w : World) : World :=
  mkWorld d (clock w) (clockLater w) (readFaults w) (writeFaults w)
          (netinfo w) (backend w) (uploads w) (randoms w) (netLog w).

Definition setClock (c : Z) (l : list Z) (w : World) : World :=
  mkWorld (disk w) c l (readFaults w) (writeFaults w)
          (netinfo w) (backend w) (uploads w) (randoms w) (netLog w).

Definition setReadFaults (l : list (option string)) (w : World) : World :=
  mkWorld (disk w) (clock w) (clockLater w) l (writeFaults w)
          (netinfo w) (backend w) (uploads w) (randoms w) (netLog w).

Definition setWriteFaults (l : list (option string)) (w : World) : World :=
  mkWorld (disk w) (clock w) (clockLater w) (readFaults w) l
          (netinfo w) (backend w) (uploads w) (randoms w) (netLog w).

Definition setNetinfo (l : list (option bool)) (w : World) : World :=
  mkWorld (disk w) (clock w) (clockLater w) (readFaults w) (writeFaults w)
          l (backend w) (uploads w) (randoms w) (netLog w).

Definition setBackend (l : list (Js.Error + string)) (ev : NetEvent) (w : World) : World :=
  mkWorld (disk w) (clock w) (clockLater w) (readFaults w) (writeFaults w)
          (netinfo w) l (uploads w) (randoms w) (netLog w ++ [ev]).

Definition setUploads (l : list bool) (ev : NetEvent) (w : World) : World :=
  mkWorld (disk w) (clock w) (clockLater w) (readFaults w) (writeFaults w)
          (netinfo w) (backend w) l (randoms w) (netLog w ++ [ev]).

Definition setRandoms (l : list string) (w : World) : World :=
  mkWorld (disk w) (clock w) (clockLater w) (readFaults w) (writeFaults w)
          (netinfo w) (backend w) (uploads w) l (netLog w).

(** The clock moves on to its next reading, if there is one. *)
Definition tickClock (w : World) : World :=
  match clockLater w with
  | [] => w
  | t :: later => setClock t later w
  end.

(** [Date.now()] *)
Definition Date_now : M Z :=
  fun w => (Return (clock w), tickClock w).

(** [Math.random().toString(36).substr(2, 9)] *)
Definition randomSuffix : M string :=
  fun w =>
    match randoms w with
    | [] => (Return "", w)
    | r :: rest => (Return r, setRandoms rest w)
    end.

(** [AsyncStorage.getItem(SYNC_QUEUE_KEY)] followed by [JSON.parse]; the
    serialisation is taken to be lossless. *)
Definition AsyncStorage_getItem : M (option (list SyncQueueItem)) :=
  fun w =>
    match readFaults w with
    | Some m :: rest => (Throw (storageError m), setReadFaults rest w)
    | None :: rest => (Return (disk w), setReadFaults rest w)
    | [] => (Return (disk w), w)
    end.

(** [AsyncStorage.setItem(SYNC_QUEUE_KEY, JSON.stringify(q))]; a failed write
    leaves the stored value as it was. *)
Definition AsyncStorage_setItem (q : list SyncQueueItem) : M unit :=
  fun w =>
    match writeFaults w with
    | Some m :: rest => (Throw (storageError m), setWriteFaults rest w)
    | None :: rest => (Return tt, setDisk (Some q) (setWriteFaults rest w))
    | [] => (Return tt, setDisk (Some q) w)
    end.

(** mobile/lib/network.ts: [isOnline] is [state.isConnected ?? false]. *)
Definition isOnline : M bool :=
  fun w =>
    match netinfo w with
    | [] => (Return false, w)
    | c :: rest =>
        (Return (match c with Some b => b | None => false end), setNetinfo rest w)
    end.

(** The error of a request that never got an answer. *)
Definition noResponse : Js.Error :=
  Js.mkError None (Some "Network Error") None.

(** [apiClient.createReport(data)] *)
Definition createReport (data : ReportData) : M string :=
  fun w =>
    match backend w with
    | [] => (Throw noResponse, setBackend [] (CreateFailed data noResponse) w)
    | inr rid :: rest => (Return rid, setBackend rest (CreateOk data rid) w)
    | inl e :: rest => (Throw e, setBackend rest (CreateFailed data e) w)
    end.

(** [apiClient.uploadPhoto(reportId, uri)] *)
Definition uploadPhoto (reportId uri : string) : M unit :=
  fun w =>
    match uploads w with
    | [] => (Return tt, setUploads [] (UploadOk reportId uri) w)
    | true :: rest => (Return tt, setUploads rest (UploadOk reportId uri) w)
    | false :: rest => (Throw noResponse, setUploads rest (UploadFailed reportId uri) w)
    end.

(** ** mobile/lib/storage.ts: the sync queue *)

Definition getSyncQueue : M (list SyncQueueItem) :=
  tryCatch
    (data <- AsyncStorage_getItem ;;
     ret (match data with Some q => q | None => [] end))
    (fun _ => ret []).

Definition addToSyncQueue (data : ReportData) (photoUris : list string) : M string :=
  tryCatch
    (queue <- getSyncQueue ;;
     stamp <- Date_now ;;
     suffix <- randomSuffix ;;
     let newId := ("sync_" ++ Js.numToString stamp ++ "_" ++ suffix)%string in
     created <- Date_now ;;
     let item := mkItem newId data photoUris 0 created None None in
     AsyncStorage_setItem (queue ++ [item]) ;;
     ret newId)
    (fun e => throw e).

Definition removeFromSyncQueue (target : string) : M unit :=
  tryCatch
    (queue <- getSyncQueue ;;
     let filtered := filter (fun item => negb (id item =? target)%string) queue in
     AsyncStorage_setItem filtered)
    (fun e => throw e).

Definition updateSyncQueueItem (target : string) (updates : Updates) : M unit :=
  tryCatch
    (queue <- getSyncQueue ;;
     let index := Js.findIndex (fun item => (id item =? target)%string) queue in
     if 0 <=? index then
       let i := Z.to_nat index in
       match nth_error queue i with
       | Some old => AsyncStorage_setItem (Js.setAt queue i (spread old updates))
       | None => ret tt (* not reached: [findIndex] answers an index of [queue] *)
       end
     else ret tt)
    (fun e => throw e).

(** ** mobile/lib/sync.ts: retry policy and sync pass *)

Definition MAX_RETRIES : Z := 5.
Definition RETRY_DELAYS : list Z := [60000; 120000; 240000; 480000].

(** [RETRY_DELAYS[i]], [undefined] outside the array. *)
Definition delayAt (i : Z) : option Z :=
  if i <? 0 then None else nth_error RETRY_DELAYS (Z.to_nat i).

Definition getRetryDelay (retryCount : Z) : option Z :=
  if retryCount >=? Z.of_nat (List.length RETRY_DELAYS) then
    delayAt (Z.of_nat (List.length RETRY_DELAYS) - 1)
  else delayAt retryCount.

(** [a >= d] where [d] may be [undefined]: a comparison with [undefined] is
    false. *)
Definition geDelay (a : Z) (d : option Z) : bool :=
  match d with
  | Some v => a >=? v
  | None => false
  end.

(** [!item.lastAttempt] holds when the field is absent and also when it is the
    number [0]. *)
Definition shouldRetry (item : SyncQueueItem) : M bool :=
  if retryCount item >=? MAX_RETRIES then ret false
  else
    match lastAttempt item with
    | None => ret true
    | Some last =>
        if last =? 0 then ret true
        else
          let delay := getRetryDelay (retryCount item) in
          now <- Date_now ;;
          let timeSinceLastAttempt := now - last in
          ret (geDelay timeSinceLastAttempt delay)
    end.

Record SyncResult := mkResult {
  success : bool;
  resultError : option string
}.

Definition isNetworkError (e : Js.Error) : bool :=
  match Js.code e with
  | Some c => (c =? "ECONNABORTED")%string || (c =? "ECONNREFUSED")%string
  | None => false
  end
  || Js.optIncludes (Js.message e) "Network Error"
  || Js.optIncludes (Js.message e) "timeout"
  || match Js.response e with Some _ => false | None => true end.

(** The [try] block of [syncSingleReport]. *)
Definition submitReport (item : SyncQueueItem) : M SyncResult :=
  online <- isOnline ;;
  if negb online then ret (mkResult false (Some "Offline"))
  else
    eligible <- shouldRetry item ;;
    if negb eligible then ret (mkResult false (Some "Max retries exceeded"))
    else
      reportId <- createReport (reportData item) ;;
      forOf (photos item)
        (fun photoUri =>
           tryCatch (uploadPhoto reportId photoUri) (fun _ => ret tt)) ;;
      removeFromSyncQueue (id item) ;;
      ret (mkResult true None).

(** The [catch] block of [syncSingleReport]. *)
Definition onSubmitError (item : SyncQueueItem) (e : Js.Error) : M SyncResult :=
  if isNetworkError e then
    let newRetryCount := retryCount item + 1 in
    now <- Date_now ;;
    updateSyncQueueItem (id item)
      (mkUpdates None None None (Some newRetryCount) None
         (Some (Some now))
         (Some (Some (Js.orElse (Js.message e) "Network error")))) ;;
    ret (mkResult false (Some "Network error - will retry"))
  else
    removeFromSyncQueue (id item) ;;
    ret (mkResult false (Some (Js.orElse (Js.message e) "Validation error"))).

Definition syncSingleReport (item : SyncQueueItem) : M SyncResult :=
  tryCatch (submitReport item) (onSubmitError item).

Record Counts := mkCounts {
  synced : Z;
  failed : Z;
  skipped : Z
}.

(** One iteration of the [for] loop of [syncPendingReports]. *)
Definition syncStep (item : SyncQueueItem) (c : Counts) : M Counts :=
  eligible <- shouldRetry item ;;
  if negb eligible then ret (mkCounts (synced c) (failed c) (skipped c + 1))
  else
    result <- syncSingleReport item ;;
    if success result then ret (mkCounts (synced c + 1) (failed c) (skipped c))
    else ret (mkCounts (synced c) (failed c + 1) (skipped c)).

Fixpoint syncLoop (queue : list SyncQueueItem) (c : Counts) : M Counts :=
  match queue with
  | [] => ret c
  | item :: rest => c' <- syncStep item c ;; syncLoop rest c'
  end.

Definition syncPendingReports : M Counts :=
  queue <- getSyncQueue ;;
  syncLoop queue (mkCounts 0 0 0).

Definition retryFailedSubmissions : M Counts := syncPendingReports.

(** ** mobile/components/ReportFormModal.tsx: duplicate clean-up of handleSubmit *)

(** [Math.pow(x, 2)], taken as the IEEE product [x * x]. *)
Definition pow2 (x : float) : float := (x * x)%float.

(** The predicate of [queue.filter] in the clean-up block: [lat], [lng],
    [title0], [description0] and [type0] are the form's location, title,
    description and type at the time of the submission. *)
Definition isDuplicate (lat lng : float) (title0 description0 type0 : string)
    (item : SyncQueueItem) : bool :=
  let distance :=
    (PrimFloat.sqrt
       (pow2 (latitude (reportData item) - lat) +
        pow2 (longitude (reportData item) - lng)) * 111000)%float in
  let sameTitle := (title (reportData item) =? title0)%string in
  let sameDescription := (description (reportData item) =? description0)%string in
  let sameType := (type (reportData item) =? type0)%string in
  (distance <? 10)%float && sameTitle && sameDescription && sameType.

(** The [try { ... } catch (queueError) { console.warn(...) }] block that
    follows a successful online submission. *)
Definition cleanSyncQueue (lat lng : float) (title0 description0 type0 : string) : M unit :=
  tryCatch
    (queue <- getSyncQueue ;;
     let matchingItems := filter (isDuplicate lat lng title0 description0 type0) queue in
     forOf matchingItems (fun item => removeFromSyncQueue (id item)))
    (fun _ => ret tt).

(** ** mobile/hooks/useOfflineSync.ts: the guard around a sync pass *)

Module OfflineSync.

(** What the callbacks created by one render of the hook see: the values
    [isConnected] and [isSyncing] had when the component rendered.  A call
    to [setIsSyncing] changes the state cell; the callbacks of a render
    keep the value they captured until the component renders again. *)
Record Render := mkRender {
  isConnected : option bool;
  isSyncing : bool
}.

Record Hook := mkHook {
  (** the state cells [pendingCount], [isSyncing] and [lastSyncTime] *)
  pendingCountCell : Z;
  isSyncingCell : bool;
  lastSyncTimeCell : option Z;
  (** calls of [syncPendingReports] begun so far *)
  passesStarted : nat;
  (** calls of [syncPendingReports] begun and not yet settled *)
  passesInFlight : nat
}.

Definition truthy (b : option bool) : bool :=
  match b with Some true => true | _ => false end.

(** [performSync] up to its first suspension: the guard, [setIsSyncing(true)]
    and the call of [syncPendingReports]. *)
Definition performSync (r : Render) (h : Hook) : Hook :=
  if negb (truthy (isConnected r)) || isSyncing r then h
  else mkHook (pendingCountCell h) true (lastSyncTimeCell h)
              (S (passesStarted h)) (S (passesInFlight h)).

(** [syncNow] up to its first suspension. *)
Definition syncNow (r : Render) (h : Hook) : Hook :=
  if isSyncing r then h else performSync r h.

(** The effect that runs when [isConnected] changes. *)
Definition onConnectivityChange (r : Render) (h : Hook) : Hook :=
  if truthy (isConnected r) && negb (isSyncing r) then performSync r h else h.

(** The rest of [performSync], run once its pass has settled: when the pass
    returned, [setLastSyncTime(Date.now())] and the refreshed pending count
    ([now] and [count] are the clock reading and the length of the queue
    read then); in any case the [finally] block, [setIsSyncing(false)]. *)
Definition passSettled (returned : bool) (now count : Z) (h : Hook) : Hook :=
  mkHook (if returned then count else pendingCountCell h)
         false
         (if returned then Some now else lastSyncTimeCell h)
         (passesStarted h) (Nat.pred (passesInFlight h)).

(** The component renders again: new callbacks capture the current cell. *)
Definition render (connected : option bool) (h : Hook) : Render :=
  mkRender connected (isSyncingCell h).

Definition idle : Hook := mkHook 0 false None 0 0.

(** The render of a connected device while no pass is running. *)
Definition connectedIdle : Render := mkRender (Some true) false.

End OfflineSync.

(** * Auxiliary definitions for the statements *)

(** ** The retry policy as a function of the clock reading *)

(** The policy consults the clock only for an item that is under the retry
    limit and has a (non-zero) last attempt. *)
Definition consultsClock (item : SyncQueueItem) : bool :=
  negb (retryCount item >=? MAX_RETRIES) &&
  match lastAttempt item with
  | Some last => negb (last =? 0)
  | None => false
  end.

(** The decision [shouldRetry] takes when [Date.now()] reads [now]. *)
Definition eligibleAt (now : Z) (item : SyncQueueItem) : bool :=
  negb (retryCount item >=? MAX_RETRIES) &&
  match lastAttempt item with
  | Some last =>
      (last =? 0) || geDelay (now - last) (getRetryDelay (retryCount item))
  | None => true
  end.

(** The world after [shouldRetry item]. *)
Definition afterPolicy (item : SyncQueueItem) (w : World) : World :=
  if consultsClock item then tickClock w else w.

(** The backoff schedule in the words of the specification, in seconds:
    1 min, 2 min, 4 min, 8 min, then 8 min for every further attempt. *)
Definition schedule (k : Z) : Z :=
  match k with
  | 0 => 60
  | 1 => 120
  | 2 => 240
  | 3 => 480
  | _ => 480
  end.

Definition storageOk (w : World) : Prop :=
  readFaults w = [] /\ writeFaults w = [].

Definition ids (q : list SyncQueueItem) : list string := map id q.

Definition without (target : string) (q : list SyncQueueItem) : list SyncQueueItem :=
  filter (fun item => negb (id item =? target)%string) q.

Definition popRead (w : World) : World :=
  match readFaults w with
  | [] => w
  | _ :: rest => setReadFaults rest w
  end.

(** The coming read of the storage does not fail. *)
Definition readWorks (w : World) : Prop :=
  match readFaults w with
  | Some _ :: _ => False
  | _ => True
  end.

Definition popWrite (w : World) : World :=
  match writeFaults w with
  | [] => w
  | _ :: rest => setWriteFaults rest w
  end.


(** ** Sample data for the examples *)

Module Sample.

Definition pothole : ReportData :=
  mkReportData "Pothole" "Deep hole" "pothole" medium
    (-1.5)%float (30.25)%float None None None None.

Definition streetlight : ReportData :=
  mkReportData "Street light" "Lamp is out" "lighting" low
    (-1.5)%float (30.25)%float None None None None.

(** just enqueued, never attempted *)
Definition fresh : SyncQueueItem :=
  mkItem "sync_1000_a" pothole [] 0 1000 None None.

(** one failed attempt at time 100000 *)
Definition retried : SyncQueueItem :=
  mkItem "sync_2000_b" streetlight ["file:///p1.jpg"] 1 2000
    (Some 100000) (Some "timeout of 10000ms exceeded").

(** at the retry limit, with no last attempt recorded *)
Definition exhausted : SyncQueueItem :=
  mkItem "sync_3000_c" pothole [] 5 3000 None None.

(** a world with queue [q] at time [now], where storage works, the device
    is offline and the backend does not answer *)
Definition quiet (q : list SyncQueueItem) (now : Z) : World :=
  mkWorld (Some q) now [] [] [] [] [] [] [] [].

(** the same, but the next read of the storage fails *)
Definition unreadable (q : list SyncQueueItem) (now : Z) : World :=
  mkWorld (Some q) now [] [Some "storage is unavailable"] [] [] [] [] [] [].

(** the same, but the next write to the storage fails *)
Definition unwritable (q : list SyncQueueItem) (now : Z) : World :=
  mkWorld (Some q) now [] [] [Some "disk is full"] [] [] [] [] [].

Definition timeout : Js.Error :=
  Js.mkError (Some "ECONNABORTED") (Some "timeout of 10000ms exceeded") None.

Definition badRequest : Js.Error :=
  Js.mkError (Some "ERR_BAD_REQUEST") (Some "Request failed with status code 400")
    (Some 400).

End Sample.

(** ** The queue after a series of removals *)

Definition removeAll (targets : list string) (q : list SyncQueueItem) : list SyncQueueItem :=
  fold_left (fun acc target => without target acc) targets q.

(** The planar distance of the clean-up block, in metres. *)
Definition planarDistance (lat lng : float) (item : SyncQueueItem) : float :=
  (PrimFloat.sqrt
     ((latitude (reportData item) - lat) * (latitude (reportData item) - lat) +
      (longitude (reportData item) - lng) * (longitude (reportData item) - lng))
   * 111000)%float.

(** ** Connectivity *)

(** The answer the coming [isOnline()] gives. *)
Definition nextCheckOnline (w : World) : bool :=
  match netinfo w with
  | Some true :: _ => true
  | _ => false
  end.

(** a busy backend: the device is offline for the first check and online for
    the second, and the backend accepts what it receives *)
Definition flappingWorld : World :=
  mkWorld (Some [Sample.fresh; Sample.retried]) 500000 [] [] []
          [Some false; Some true] [inr "report-1"] [] [] [].

(** ** What a pass did with an item *)

Inductive Verdict := Synced | Retained | Dropped | Skipped.

(** The counter a verdict increments: [synced] for a synced item, [failed]
    for one that failed, be it kept or dropped, [skipped] for a skipped one. *)
Definition bump (v : Verdict) (c : Counts) : Counts :=
  match v with
  | Synced => mkCounts (synced c + 1) (failed c) (skipped c)
  | Retained | Dropped => mkCounts (synced c) (failed c + 1) (skipped c)
  | Skipped => mkCounts (synced c) (failed c) (skipped c + 1)
  end.

Fixpoint tally (vs : list Verdict) (c : Counts) : Counts :=
  match vs with
  | [] => c
  | v :: rest => tally rest (bump v c)
  end.

(** The readings the clock can still give. *)
Definition timesOf (w : World) : list Z := clock w :: clockLater w.

(** What a verdict says of [item], given the queue stored after the pass, the
    calls the backend received during the pass and the clock readings
    available to it. *)
Definition verdictHolds (stored : list SyncQueueItem) (events : list NetEvent)
    (times : list Z) (item : SyncQueueItem) (v : Verdict) : Prop :=
  match v with
  | Synced =>
      ~ In (id item) (ids stored) /\
      exists reportId, In (CreateOk (reportData item) reportId) events
  | Retained => In (id item) (ids stored)
  | Dropped =>
      ~ In (id item) (ids stored) /\
      exists e, isNetworkError e = false /\
                In (CreateFailed (reportData item) e) events
  | Skipped =>
      In item stored /\
      exists now, In now times /\ eligibleAt now item = false
  end.

(** The environment moved from [w] to [w'] with the storage never failing:
    the backend received [events] and the clock only went along its
    readings. *)
Definition envStep (w w' : World) (events : list NetEvent) : Prop :=
  readFaults w' = readFaults w /\
  writeFaults w' = writeFaults w /\
  netLog w' = netLog w ++ events /\
  incl (timesOf w') (timesOf w).

(** the device is online and the backend rejects the report *)
Definition rejectingWorld : World :=
  mkWorld (Some [Sample.fresh]) 5000 [] [] []
          [Some true] [inl Sample.badRequest] [] [] [].

(** ** The core operations on the queue *)

Inductive CoreOp :=
| Enqueue (data : ReportData) (photoUris : list string)
| SyncPass
| Remove (target : string)
| Dedup (lat lng : float) (title0 description0 type0 : string).

(** The world an operation leaves, whether it returned or threw. *)
Definition runOp (op : CoreOp) (w : World) : World :=
  match op with
  | Enqueue data photoUris => snd (addToSyncQueue data photoUris w)
  | SyncPass => snd (syncPendingReports w)
  | Remove target => snd (removeFromSyncQueue target w)
  | Dedup lat lng title0 description0 type0 =>
      snd (cleanSyncQueue lat lng title0 description0 type0 w)
  end.

(** The id [addToSyncQueue] gives to the item it creates in [w]. *)
Definition nextId (w : World) : string :=
  ("sync_" ++ Js.numToString (clock w) ++ "_" ++ hd "" (randoms w))%string.

Definition isEnqueue (op : CoreOp) : bool :=
  match op with Enqueue _ _ => true | _ => false end.

(** Every item of [q'] is an item of [q], or the item of [q] with the id of
    [item] after a failed attempt on [item]. *)
Definition attemptOn (item : SyncQueueItem) (q q' : list SyncQueueItem) : Prop :=
  forall s', In s' q' ->
    In s' q \/
    exists old, In old q /\ id old = id item /\ id s' = id item /\
                retryCount s' = retryCount item + 1.

(** Every item of [q'] comes from an item of [q] with the same id and a
    retry count that is not larger. *)
Definition descends (q q' : list SyncQueueItem) : Prop :=
  forall s', In s' q' ->
    exists s, In s q /\ id s = id s' /\ retryCount s <= retryCount s'.

(** * The rest of the queue store, the form and the drafts *)

(** ** mobile/lib/storage.ts: clearing the sync queue *)

(** [AsyncStorage.removeItem(SYNC_QUEUE_KEY)]; it fails as a write does, and
    a failed removal leaves the stored value as it was. *)
Definition AsyncStorage_removeItem : M unit :=
  fun w =>
    match writeFaults w with
    | Some m :: rest => (Throw (storageError m), setWriteFaults rest w)
    | None :: rest => (Return tt, setDisk None (setWriteFaults rest w))
    | [] => (Return tt, setDisk None w)
    end.

Definition clearSyncQueue : M unit :=
  tryCatch AsyncStorage_removeItem (fun _ => ret tt).

(** The coming write to the storage does not fail. *)
Definition writeWorks (w : World) : Prop :=
  match writeFaults w with
  | Some _ :: _ => False
  | _ => True
  end.

(** The item [addToSyncQueue] creates in [w] for [data] and [photoUris]: its
    id comes from the first clock reading, its [createdAt] from the next. *)
Definition newItem (data : ReportData) (photoUris : list string) (w : World) : SyncQueueItem :=
  mkItem (nextId w) data photoUris 0 (clock (tickClock w)) None None.

(** ** What a pass can do to the stored queue *)

(** The changes that the storage calls of a pass make to the stored queue:
    none, the removal of an id, the loss of the whole queue (a removal that
    follows a failed read), the rewriting of the retry fields of one item
    with a retry count within the limit, and their compositions. *)
Inductive passStep : list SyncQueueItem -> list SyncQueueItem -> Prop :=
| ps_keep q : passStep q q
| ps_remove target q : passStep q (without target q)
| ps_wipe q : passStep q []
| ps_attempt before old after n t m :
    n <= MAX_RETRIES ->
    passStep (before ++ old :: after)
      (before ++
       mkItem (id old) (reportData old) (photos old) n (createdAt old) t m :: after)
| ps_trans q1 q2 q3 : passStep q1 q2 -> passStep q2 q3 -> passStep q1 q3.

(** Two items carry the same report: same id, data, photos, creation time. *)
Definition sameReport (s s' : SyncQueueItem) : Prop :=
  id s = id s' /\ reportData s = reportData s' /\ photos s = photos s' /\
  createdAt s = createdAt s'.

(** The backend event of an upload of [uri] for the report [reportId]. *)
Definition uploadOf (reportId uri : string) (ev : NetEvent) : Prop :=
  ev = UploadOk reportId uri \/ ev = UploadFailed reportId uri.

(** the backend accepts the report and one of the two photo uploads fails *)
Definition twoPhotos : SyncQueueItem :=
  mkItem "sync_4000_d" Sample.pothole ["file:///a.jpg"; "file:///b.jpg"] 0 4000
    None None.

Definition lossyUploadWorld : World :=
  mkWorld (Some [twoPhotos; Sample.retried]) 500000 [] [] []
          [Some true] [inr "report-7"] [false; true] [] [].

(** the backend accepts the report, then the write of the removal fails *)
Definition fullDiskWorld : World :=
  mkWorld (Some [Sample.fresh; Sample.retried]) 500000 [500200] []
          [Some "disk is full"] [Some true] [inr "report-9"] [] [] [].

(** ** mobile/components/ReportFormModal.tsx: handleSubmit *)

(** [await Promise.all(ms)] for calls started in the order of [ms]: every
    call runs, and the first failure, if any, is the one thrown. *)
Fixpoint promiseAll (ms : list (M unit)) : M unit :=
  match ms with
  | [] => ret tt
  | m :: rest =>
      fun w =>
        match m w with
        | (Return _, w1) => promiseAll rest w1
        | (Throw e, w1) => (Throw e, snd (promiseAll rest w1))
        end
  end.

Module ReportForm.

(** The [location] state of the form. *)
Record Location := mkLocation {
  latitude : float;
  longitude : float;
  address : option string;
  province : option string;
  district : option string;
  sector : option string
}.

(** The state of the form that [handleSubmit] reads. *)
Record Form := mkForm {
  title : string;
  description : string;
  type : option string;
  severity : option Severity;
  photos : list string;
  location : option Location
}.

(** What [handleSubmit] leaves on the screen: the field errors of a form
    that is not valid, the "Saved Offline" alert, the "Success" alert, or an
    error message. *)
Inductive Shown :=
| Invalid (errors : list (string * string))
| SavedOffline
| Success
| Failed (message : string).

(** [!s] for a string: the empty string is falsy. *)
Definition emptyString (s : string) : bool :=
  match s with EmptyString => true | _ => false end.

Definition missingType (t : option string) : bool :=
  match t with Some s => emptyString s | None => true end.

Definition missing {A} (x : option A) : bool :=
  match x with Some _ => false | None => true end.

(** The entries [handleSubmit] puts in [newErrors], in the order it adds
    them.  The [length] of a string counts its code units, the characters of
    the model's strings. *)
Definition newErrors (f : Form) : list (string * string) :=
  (if emptyString (title f) || (String.length (title f) <? 3)%nat
   then [("title", "Title is required (min 3 characters)")] else []) ++
  (if emptyString (description f) || (String.length (description f) <? 5)%nat
   then [("description", "Description is required (min 5 characters)")] else []) ++
  (if missingType (type f) then [("type", "Please select a type")] else []) ++
  (if missing (severity f) then [("severity", "Please select a severity")] else []) ++
  (if missing (location f) then [("location", "Location is required")] else []).

(** The report data both branches of [handleSubmit] build from the form. *)
Definition reportOf (title0 description0 type0 : string) (severity0 : Severity)
    (loc : Location) : ReportData :=
  mkReportData title0 description0 type0 severity0 (latitude loc) (longitude loc)
    (address loc) (province loc) (district loc) (sector loc).

(** The [try] block of [handleSubmit], for a form that passed the checks.
    The id of the signed-in user, which the online payload also carries, is
    not part of the model of the backend. *)
Definition trySubmit (title0 description0 type0 : string) (severity0 : Severity)
    (loc : Location) (photoUris : list string) : M Shown :=
  online <- isOnline ;;
  if negb online then
    addToSyncQueue (reportOf title0 description0 type0 severity0 loc) photoUris ;;
    ret SavedOffline
  else
    reportId <- createReport (reportOf title0 description0 type0 severity0 loc) ;;
    (if (0 <? List.length photoUris)%nat
     then promiseAll (map (fun uri => uploadPhoto reportId uri) photoUris)
     else ret tt) ;;
    cleanSyncQueue (latitude loc) (longitude loc) title0 description0 type0 ;;
    tryCatch (syncPendingReports ;; ret tt) (fun _ => ret tt) ;;
    ret Success.

(** The [catch] block of [handleSubmit]; its test for a network error is the
    one of [syncSingleReport]. *)
Definition onSubmitFailure (title0 description0 type0 : string) (severity0 : Severity)
    (loc : Location) (photoUris : list string) (err : Js.Error) : M Shown :=
  if isNetworkError err then
    tryCatch
      (addToSyncQueue (reportOf title0 description0 type0 severity0 loc) photoUris ;;
       ret SavedOffline)
      (fun _ =>
         ret (Failed
                "Failed to submit report. Please check your connection and try again."))
  else
    ret (Failed (Js.orElse (Js.message err)
                   "Failed to submit report. Please try again.")).

Definition submitChecked (title0 description0 type0 : string) (severity0 : Severity)
    (loc : Location) (photoUris : list string) : M Shown :=
  tryCatch (trySubmit title0 description0 type0 severity0 loc photoUris)
           (onSubmitFailure title0 description0 type0 severity0 loc photoUris).

Definition handleSubmit (f : Form) : M Shown :=
  if (0 <? List.length (newErrors f))%nat then ret (Invalid (newErrors f))
  else
    match type f, severity f, location f with
    | Some type0, Some severity0, Some loc =>
        submitChecked (title f) (description f) type0 severity0 loc (photos f)
    | _, _, _ => ret (Invalid (newErrors f)) (* not reached: the checks passed *)
    end.

(** A form that passes the checks. *)
Definition potholeForm : Form :=
  mkForm "Pothole" "Deep hole" (Some "pothole") (Some medium) []
    (Some (mkLocation (-1.5)%float (30.25)%float None None None None)).

Definition potholeLocation : Location :=
  mkLocation (-1.5)%float (30.25)%float None None None None.

End ReportForm.

(** ** mobile/lib/storage.ts: draft reports *)

Module Drafts.

Record DraftReport := mkDraft {
  id : string;
  title : string;
  description : string;
  type : string;
  severity : string;
  latitude : float;
  longitude : float;
  photos : list string;
  createdAt : Z;
  synced : bool
}.

(** The value stored under DRAFT_REPORTS_KEY, parsed, and the outcomes of the
    coming reads and writes of that key ([Some m] throws an error with
    message [m]; an exhausted list means no failure). *)
Record Store := mkStore {
  drafts : option (list DraftReport);
  readFaults : list (option string);
  writeFaults : list (option string)
}.

Definition D (A : Type) : Type := Store -> Outcome A * Store.

Definition ret {A} (a : A) : D A := fun s => (Return a, s).

Definition throw {A} (e : Js.Error) : D A := fun s => (Throw e, s).

Definition bind {A B} (m : D A) (k : A -> D B) : D B :=
  fun s =>
    match m s with
    | (Return a, s') => k a s'
    | (Throw e, s') => (Throw e, s')
    end.

Definition tryCatch {A} (m : D A) (handler : Js.Error -> D A) : D A :=
  fun s =>
    match m s with
    | (Return a, s') => (Return a, s')
    | (Throw e, s') => handler e s'
    end.

Definition getItem : D (option (list DraftReport)) :=
  fun s =>
    match readFaults s with
    | Some m :: rest => (Throw (storageError m), mkStore (drafts s) rest (writeFaults s))
    | None :: rest => (Return (drafts s), mkStore (drafts s) rest (writeFaults s))
    | [] => (Return (drafts s), s)
    end.

Definition setItem (q : list DraftReport) : D unit :=
  fun s =>
    match writeFaults s with
    | Some m :: rest => (Throw (storageError m), mkStore (drafts s) (readFaults s) rest)
    | None :: rest => (Return tt, mkStore (Some q) (readFaults s) rest)
    | [] => (Return tt, mkStore (Some q) (readFaults s) [])
    end.

Definition removeItem : D unit :=
  fun s =>
    match writeFaults s with
    | Some m :: rest => (Throw (storageError m), mkStore (drafts s) (readFaults s) rest)
    | None :: rest => (Return tt, mkStore None (readFaults s) rest)
    | [] => (Return tt, mkStore None (readFaults s) [])
    end.

Definition getDraftReports : D (list DraftReport) :=
  tryCatch
    (bind getItem (fun data => ret (match data with Some q => q | None => [] end)))
    (fun _ => ret []).

Definition saveDraftReport (draft : DraftReport) : D unit :=
  tryCatch
    (bind getDraftReports (fun stored =>
       let existingIndex :=
         Js.findIndex (fun d => (id d =? id draft)%string) stored in
       if 0 <=? existingIndex
       then setItem (Js.setAt stored (Z.to_nat existingIndex) draft)
       else setItem (stored ++ [draft])))
    (fun e => throw e).

Definition deleteDraftReport (target : string) : D unit :=
  tryCatch
    (bind getDraftReports (fun stored =>
       setItem (filter (fun d => negb (id d =? target)%string) stored)))
    (fun e => throw e).

Definition clearDraftReports : D unit :=
  tryCatch removeItem (fun _ => ret tt).

Definition stored (s : Store) : list DraftReport :=
  match drafts s with Some q => q | None => [] end.

Definition storeOk (s : Store) : Prop :=
  readFaults s = [] /\ writeFaults s = [].

Definition ids (q : list DraftReport) : list string := map id q.

(** [q] with the first draft that has the id of [draft] replaced by [draft],
    or with [draft] at the end when no draft has its id. *)
Fixpoint upsert (draft : DraftReport) (q : list DraftReport) : list DraftReport :=
  match q with
  | [] => [draft]
  | d :: rest =>
      if (id d =? id draft)%string then draft :: rest else d :: upsert draft rest
  end.

Definition sketch : DraftReport :=
  mkDraft "draft-1" "Pothole" "Deep hole" "pothole" "medium"
    (-1.5)%float (30.25)%float [] 1000 false.

Definition sketchEdited : DraftReport :=
  mkDraft "draft-1" "Pothole" "Deep hole, getting worse" "pothole" "high"
    (-1.5)%float (30.25)%float ["file:///a.jpg"] 1000 false.

Definition otherSketch : DraftReport :=
  mkDraft "draft-2" "Street light" "Lamp is out" "streetlight" "low"
    (-1.5)%float (30.25)%float [] 2000 false.

End Drafts.

(** ** mobile/hooks/useOfflineSync.ts: triggers that see the current state *)

(** What can happen to a mounted hook: one of its triggers fires, or a pass
    in flight settles. *)
Inductive HookEvent :=
| CallSyncNow (connected : option bool)
| CallPerformSync (connected : option bool)
| ConnectivityChanged (connected : option bool)
| PassSettled (returned : bool) (now count : Z).

(** The event [ev] reaches the hook after the component has rendered with
    the current state, so that the trigger sees the current [isSyncing]. *)
Definition fireFresh (h : OfflineSync.Hook) (ev : HookEvent) : OfflineSync.Hook :=
  match ev with
  | CallSyncNow connected =>
      OfflineSync.syncNow (OfflineSync.render connected h) h
  | CallPerformSync connected =>
      OfflineSync.performSync (OfflineSync.render connected h) h
  | ConnectivityChanged connected =>
      OfflineSync.onConnectivityChange (OfflineSync.render connected h) h
  | PassSettled returned now count =>
      if (0 <? OfflineSync.passesInFlight h)%nat
      then OfflineSync.passSettled returned now count h
      else h
  end.

(** ** Items at the retry limit *)

(** The outcome of a loop that counted one more skipped item. *)
Definition oneMoreSkipped (r : Outcome Counts * World) : Outcome Counts * World :=
  match r with
  | (Return c, w) => (Return (bump Skipped c), w)
  | (Throw e, w) => (Throw e, w)
  end.

(** * Properties *)

(** ** Basic facts *)

(** Boolean comparisons of hypotheses, as propositions for [lia]. *)
Ltac zbool :=
  repeat match goal with
  | H : (_ >=? _) = true |- _ => rewrite Z.geb_leb in H; apply Z.leb_le in H
  | H : (_ >=? _) = false |- _ => rewrite Z.geb_leb in H; apply Z.leb_gt in H
  | H : (_ <? _) = true |- _ => apply Z.ltb_lt in H
  | H : (_ <? _) = false |- _ => apply Z.ltb_ge in H
  | H : (_ <=? _) = true |- _ => apply Z.leb_le in H
  | H : (_ <=? _) = false |- _ => apply Z.leb_gt in H
  | H : (_ =? _) = true |- _ => apply Z.eqb_eq in H
  | H : (_ =? _) = false |- _ => apply Z.eqb_neq in H
  end.

Lemma Date_now_eq w : Date_now w = (Return (clock w), tickClock w).
Proof. reflexivity. Qed.

Lemma tickClock_frame w :
  disk (tickClock w) = disk w /\
  readFaults (tickClock w) = readFaults w /\
  writeFaults (tickClock w) = writeFaults w /\
  netinfo (tickClock w) = netinfo w /\
  backend (tickClock w) = backend w /\
  uploads (tickClock w) = uploads w /\
  netLog (tickClock w) = netLog w.
Proof. unfold tickClock; destruct (clockLater w); cbn; repeat split. Qed.

Lemma afterPolicy_frame item w :
  disk (afterPolicy item w) = disk w /\
  readFaults (afterPolicy item w) = readFaults w /\
  writeFaults (afterPolicy item w) = writeFaults w /\
  netinfo (afterPolicy item w) = netinfo w /\
  backend (afterPolicy item w) = backend w /\
  uploads (afterPolicy item w) = uploads w /\
  netLog (afterPolicy item w) = netLog w.
Proof.
  unfold afterPolicy; destruct (consultsClock item).
  - apply tickClock_frame.
  - repeat split.
Qed.

Lemma shouldRetry_eq item w :
  shouldRetry item w = (Return (eligibleAt (clock w) item), afterPolicy item w).
Proof.
  unfold shouldRetry, eligibleAt, afterPolicy, consultsClock.
  destruct (retryCount item >=? MAX_RETRIES); cbn; [reflexivity|].
  destruct (lastAttempt item) as [last|]; cbn; [|reflexivity].
  destruct (last =? 0); reflexivity.
Qed.

Lemma getRetryDelay_schedule k :
  0 <= k -> getRetryDelay k = Some (1000 * schedule k).
Proof.
  intros Hk. unfold getRetryDelay, delayAt. cbn [List.length RETRY_DELAYS].
  destruct (k >=? Z.of_nat 4) eqn:E; zbool.
  - assert (4 <= k) by lia.
    replace (schedule k) with 480.
    + reflexivity.
    + destruct k as [|p|p]; try lia.
      do 3 (destruct p as [p|p|]; try reflexivity; try lia).
  - assert (k = 0 \/ k = 1 \/ k = 2 \/ k = 3) as Hc by lia.
    destruct Hc as [->|[->|[->| ->]]]; reflexivity.
Qed.

Lemma findIndex_nonneg_or_minus1 {A} (p : A -> bool) l :
  Js.findIndex p l = -1 \/ 0 <= Js.findIndex p l.
Proof.
  induction l as [|x l IH]; cbn; [now left|].
  destruct (p x); [right; lia|].
  destruct (Js.findIndex p l <? 0) eqn:E; zbool; [now left|right; lia].
Qed.

Lemma findIndex_none {A} (p : A -> bool) l :
  (forall x, In x l -> p x = false) -> Js.findIndex p l = -1.
Proof.
  induction l as [|x l IH]; cbn; intros H; [reflexivity|].
  rewrite (H x) by now left.
  rewrite IH by (intros; apply H; now right). reflexivity.
Qed.

Lemma findIndex_first {A} (p : A -> bool) before x after :
  (forall y, In y before -> p y = false) -> p x = true ->
  Js.findIndex p (before ++ x :: after) = Z.of_nat (List.length before).
Proof.
  induction before as [|y before IH]; intros Hb Hx.
  - cbn. now rewrite Hx.
  - cbn [app Js.findIndex]. rewrite (Hb y) by now left.
    rewrite IH by (auto; intros; apply Hb; now right).
    destruct (Z.of_nat (List.length before) <? 0) eqn:E; zbool; [lia|].
    cbn [List.length]. lia.
Qed.

Lemma findIndex_found {A} (p : A -> bool) l :
  0 <= Js.findIndex p l ->
  exists before x after,
    l = before ++ x :: after /\ p x = true /\
    (forall y, In y before -> p y = false) /\
    Js.findIndex p l = Z.of_nat (List.length before).
Proof.
  induction l as [|y l IH]; cbn; intros H; [lia|].
  destruct (p y) eqn:Ey.
  - exists [], y, l. cbn. repeat split; auto. intros ? [].
  - destruct (Js.findIndex p l <? 0) eqn:E; zbool; [lia|].
    destruct IH as (before & x & after & -> & Hx & Hb & Hi); [lia|].
    exists (y :: before), x, after. cbn [app List.length]. repeat split; auto.
    + intros z [<-|Hz]; auto.
    + rewrite Hi. lia.
Qed.

Lemma nth_error_middle {A} (before : list A) x after :
  nth_error (before ++ x :: after) (List.length before) = Some x.
Proof. induction before; cbn; auto. Qed.

Lemma setAt_middle {A} (before : list A) x after v :
  Js.setAt (before ++ x :: after) (List.length before) v = before ++ v :: after.
Proof. induction before; cbn; [reflexivity|]. now f_equal. Qed.

(** ** The storage operations, step by step *)

Lemma popRead_frame w :
  disk (popRead w) = disk w /\ writeFaults (popRead w) = writeFaults w.
Proof. unfold popRead; destruct (readFaults w); cbn; auto. Qed.

Lemma popWrite_frame w : disk (popWrite w) = disk w.
Proof. unfold popWrite; destruct (writeFaults w); cbn; auto. Qed.

(** [getSyncQueue] never throws: it answers with the stored queue, or with
    the empty array when the read failed. *)
Lemma getSyncQueue_cases w :
  getSyncQueue w = (Return (queueOf (disk w)), popRead w) \/
  (exists m rest, readFaults w = Some m :: rest) /\
  getSyncQueue w = (Return [], popRead w).
Proof.
  unfold getSyncQueue, tryCatch, bind, AsyncStorage_getItem, ret, popRead, queueOf.
  destruct (readFaults w) as [|[m|] rest]; cbn.
  - now left.
  - right. split; [now exists m, rest|reflexivity].
  - now left.
Qed.

Lemma getSyncQueue_ok w :
  readFaults w = [] -> getSyncQueue w = (Return (queueOf (disk w)), w).
Proof.
  intros H.
  unfold getSyncQueue, tryCatch, bind, AsyncStorage_getItem, ret, queueOf.
  now rewrite H.
Qed.

Lemma setItem_ok q w :
  writeFaults w = [] -> AsyncStorage_setItem q w = (Return tt, setDisk (Some q) w).
Proof. intros H. unfold AsyncStorage_setItem. now rewrite H. Qed.

(** A write either fails and leaves the disk alone, or stores its argument. *)
Lemma setItem_cases q w :
  (exists m rest, writeFaults w = Some m :: rest /\
     AsyncStorage_setItem q w = (Throw (storageError m), popWrite w)) \/
  (exists w', AsyncStorage_setItem q w = (Return tt, w') /\ disk w' = Some q).
Proof.
  unfold AsyncStorage_setItem, popWrite.
  destruct (writeFaults w) as [|[m|] rest].
  - right. eexists. split; [reflexivity|]. reflexivity.
  - left. exists m, rest. now split.
  - right. eexists. split; [reflexivity|]. reflexivity.
Qed.

Lemma storageOk_setDisk d w : storageOk w -> storageOk (setDisk d w).
Proof. intros [? ?]; split; assumption. Qed.

Lemma removeFromSyncQueue_ok target w :
  storageOk w ->
  removeFromSyncQueue target w =
    (Return tt, setDisk (Some (without target (queueOf (disk w)))) w).
Proof.
  intros [Hr Hw].
  unfold removeFromSyncQueue, tryCatch, bind.
  rewrite (getSyncQueue_ok _ Hr), (setItem_ok _ _ Hw). reflexivity.
Qed.

Lemma updateSyncQueueItem_ok target updates before old after w :
  storageOk w ->
  queueOf (disk w) = before ++ old :: after ->
  id old = target ->
  ~ In target (ids before) ->
  updateSyncQueueItem target updates w =
    (Return tt, setDisk (Some (before ++ spread old updates :: after)) w).
Proof.
  intros [Hr Hw] Hq Hid Hfirst.
  unfold updateSyncQueueItem, tryCatch, bind.
  rewrite (getSyncQueue_ok _ Hr), Hq.
  rewrite findIndex_first.
  - destruct (0 <=? Z.of_nat (List.length before)) eqn:E; zbool; [|lia].
    rewrite Nat2Z.id, nth_error_middle, setAt_middle, (setItem_ok _ _ Hw).
    reflexivity.
  - intros y Hy. apply String.eqb_neq. intros Heq. apply Hfirst.
    rewrite <- Heq. now apply in_map.
  - now apply String.eqb_eq.
Qed.

(** An update whose target is not in the queue returns without writing. *)
Lemma updateSyncQueueItem_missing target updates w :
  ~ In target (ids (queueOf (disk w))) ->
  updateSyncQueueItem target updates w = (Return tt, popRead w).
Proof.
  intros Hmiss.
  unfold updateSyncQueueItem, tryCatch, bind.
  assert (Hnone : Js.findIndex (fun item => (id item =? target)%string)
                    (queueOf (disk w)) = -1).
  { apply findIndex_none. intros y Hy. apply String.eqb_neq. intros Heq.
    apply Hmiss. rewrite <- Heq. now apply in_map. }
  destruct (getSyncQueue_cases w) as [-> | [_ ->]].
  - now rewrite Hnone.
  - reflexivity.
Qed.

(** The elements an operation can leave on the disk. *)

Lemma removeFromSyncQueue_elems target w :
  exists o w',
    removeFromSyncQueue target w = (o, w') /\
    (forall s, In s (queueOf (disk w')) -> In s (queueOf (disk w))) /\
    (o = Return tt -> ~ In target (ids (queueOf (disk w')))).
Proof.
  unfold removeFromSyncQueue, tryCatch, bind.
  assert (Hgone : forall q, ~ In target (ids (without target q))).
  { intros q Hin. apply in_map_iff in Hin as (s & Hs & Hin).
    apply filter_In in Hin as [_ Hne]. apply negb_true_iff, String.eqb_neq in Hne.
    contradiction. }
  destruct (popRead_frame w) as [Hd _].
  destruct (getSyncQueue_cases w) as [-> | [_ ->]].
  - destruct (setItem_cases (filter (fun item => negb (id item =? target)%string)
                               (queueOf (disk w))) (popRead w))
      as [(m & rest & _ & ->) | (w' & -> & Hw')].
    + do 2 eexists. split; [reflexivity|]. unfold throw; cbn [snd fst].
      rewrite popWrite_frame, Hd. split; [auto|discriminate].
    + do 2 eexists. split; [reflexivity|]. rewrite Hw'. cbn [queueOf]. split.
      * intros s Hs. now apply filter_In in Hs.
      * intros _. apply Hgone.
  - destruct (setItem_cases (filter (fun item => negb (id item =? target)%string) [])
                (popRead w))
      as [(m & rest & _ & ->) | (w' & -> & Hw')].
    + do 2 eexists. split; [reflexivity|]. unfold throw; cbn [snd fst].
      rewrite popWrite_frame, Hd. split; [auto|discriminate].
    + do 2 eexists. split; [reflexivity|]. rewrite Hw'. cbn. split; [tauto|auto].
Qed.

Lemma updateSyncQueueItem_elems target updates w :
  exists o w',
    updateSyncQueueItem target updates w = (o, w') /\
    (forall s, In s (queueOf (disk w')) ->
       In s (queueOf (disk w)) \/
       exists old, In old (queueOf (disk w)) /\ id old = target /\
                   s = spread old updates).
Proof.
  unfold updateSyncQueueItem, tryCatch, bind.
  destruct (popRead_frame w) as [Hd _].
  destruct (getSyncQueue_cases w) as [-> | [_ ->]].
  - destruct (findIndex_nonneg_or_minus1 (fun item => (id item =? target)%string)
                (queueOf (disk w))) as [-> | Hfound].
    + cbn. do 2 eexists. split; [reflexivity|]. rewrite Hd. auto.
    + destruct (findIndex_found _ _ Hfound) as (before & x & after & Hq & Hx & _ & Hi).
      rewrite Hi, Hq.
      destruct (0 <=? Z.of_nat (List.length before)) eqn:E; zbool; [|lia].
      rewrite Nat2Z.id, nth_error_middle, setAt_middle.
      apply String.eqb_eq in Hx.
      destruct (setItem_cases (before ++ spread x updates :: after) (popRead w))
        as [(m & rest & _ & ->) | (w' & -> & Hw')].
      * do 2 eexists. split; [reflexivity|]. unfold throw; cbn [snd fst].
        rewrite popWrite_frame, Hd, Hq. auto.
      * do 2 eexists. split; [reflexivity|]. rewrite Hw'. cbn [queueOf].
        intros s Hs. apply in_app_or in Hs as [Hs | [<- | Hs]].
        -- left. apply in_or_app. now left.
        -- right. exists x. split; [|now split].
           apply in_or_app. right. now left.
        -- left. apply in_or_app. right. now right.
  - cbn. do 2 eexists. split; [reflexivity|]. rewrite Hd. auto.
Qed.

(** ** Retry policy *)

(** C1: for an item with retry count [k >= 0] and last attempt [t] (a time
    stamp, hence not the number 0, which JavaScript takes for an absent
    one), [shouldRetry] returns, and it answers [true] exactly when [k < 5]
    and [t] is absent or the clock reading [now] satisfies
    [now - t >= schedule k], with the schedule 60 s, 120 s, 240 s, 480 s and
    480 s from the fifth attempt on (times are in milliseconds). *)
Theorem shouldRetry_eligibility (item : SyncQueueItem) (w : World) :
  0 <= retryCount item ->
  lastAttempt item <> Some 0 ->
  exists b w',
    shouldRetry item w = (Return b, w') /\
    (b = true <->
     retryCount item < 5 /\
     (lastAttempt item = None \/
      exists t, lastAttempt item = Some t /\
                clock w - t >= 1000 * schedule (retryCount item))).
Proof.
  intros Hk Hnz. rewrite shouldRetry_eq. do 2 eexists. split; [reflexivity|].
  unfold eligibleAt, MAX_RETRIES. rewrite (getRetryDelay_schedule _ Hk).
  destruct (retryCount item >=? 5) eqn:Hmax; zbool; cbn [negb andb].
  - split; [discriminate|]. intros [Hlt _]. lia.
  - destruct (lastAttempt item) as [t|].
    + destruct (t =? 0) eqn:Ht; zbool; [subst; now elim Hnz|].
      cbn [orb geDelay]. split.
      * intros Hge. rewrite Z.geb_leb in Hge. apply Z.leb_le in Hge.
        split; [lia|]. right. exists t. split; [reflexivity|lia].
      * intros [_ [Habs | (t' & Ht' & Hge)]]; [discriminate|].
        injection Ht' as <-. rewrite Z.geb_leb. apply Z.leb_le. lia.
    + split; [|reflexivity]. intros _. split; [lia|now left].
Qed.

Lemma shouldRetry_eligibility_witness :
  0 <= retryCount Sample.retried /\
  lastAttempt Sample.retried <> Some 0 /\
  exists b w',
    shouldRetry Sample.retried (Sample.quiet [Sample.retried] 220000) = (Return b, w') /\
    (b = true <->
     retryCount Sample.retried < 5 /\
     (lastAttempt Sample.retried = None \/
      exists t, lastAttempt Sample.retried = Some t /\
                clock (Sample.quiet [Sample.retried] 220000) - t >=
                1000 * schedule (retryCount Sample.retried))).
Proof.
  split; [cbn; lia|]. split; [discriminate|].
  apply shouldRetry_eligibility; [cbn; lia|discriminate].
Defined.

(** The test [!item.lastAttempt] also holds for a last attempt recorded as
    the number 0: such an item is eligible whatever the clock reads. *)
Lemma zero_lastAttempt_reads_as_absent (item : SyncQueueItem) (w : World) :
  lastAttempt item = Some 0 ->
  retryCount item < MAX_RETRIES ->
  shouldRetry item w = (Return true, w).
Proof.
  intros Hzero Hlt. unfold shouldRetry. rewrite Hzero.
  destruct (retryCount item >=? MAX_RETRIES) eqn:E; zbool; [lia|reflexivity].
Qed.

(** C2, as the code has it: an item whose [lastAttempt] is absent is eligible
    when its retry count is below [MAX_RETRIES]; the retry limit is checked
    first. *)
Theorem never_attempted_under_limit_is_eligible (item : SyncQueueItem) (w : World) :
  lastAttempt item = None ->
  retryCount item < MAX_RETRIES ->
  shouldRetry item w = (Return true, w).
Proof.
  intros Hnone Hlt. unfold shouldRetry. rewrite Hnone.
  destruct (retryCount item >=? MAX_RETRIES) eqn:E; zbool; [lia|reflexivity].
Qed.

Lemma never_attempted_under_limit_witness :
  lastAttempt Sample.fresh = None /\
  retryCount Sample.fresh < MAX_RETRIES /\
  shouldRetry Sample.fresh (Sample.quiet [Sample.fresh] 5000) =
    (Return true, Sample.quiet [Sample.fresh] 5000).
Proof.
  split; [reflexivity|]. split; [reflexivity|].
  apply never_attempted_under_limit_is_eligible; reflexivity.
Defined.

(** C2 fails as stated: an item with no [lastAttempt] and a retry count of 5
    is not eligible. *)
Lemma never_attempted_exhausted_is_ineligible :
  lastAttempt Sample.exhausted = None /\
  shouldRetry Sample.exhausted (Sample.quiet [Sample.exhausted] 5000) =
    (Return false, Sample.quiet [Sample.exhausted] 5000).
Proof. split; reflexivity. Qed.

(** ** Updating an item that is not in the queue *)

(** C10: for an id that no stored item carries, [updateSyncQueueItem] returns
    normally, writes nothing (no write is even attempted) and so leaves the
    stored queue as it was; its result [tt] is the one of an applied
    update. *)
Theorem updateSyncQueueItem_unknown_id_is_silent_noop
    (target : string) (updates : Updates) (w : World) :
  ~ In target (ids (queueOf (disk w))) ->
  exists w',
    updateSyncQueueItem target updates w = (Return tt, w') /\
    disk w' = disk w /\
    writeFaults w' = writeFaults w.
Proof.
  intros Hmiss. exists (popRead w).
  split; [now apply updateSyncQueueItem_missing|apply popRead_frame].
Qed.

Lemma updateSyncQueueItem_unknown_id_witness :
  ~ In "sync_9_z" (ids (queueOf (disk (Sample.quiet [Sample.fresh] 5000)))) /\
  exists w',
    updateSyncQueueItem "sync_9_z"
      (mkUpdates None None None (Some 3) None None None)
      (Sample.quiet [Sample.fresh] 5000) = (Return tt, w') /\
    disk w' = disk (Sample.quiet [Sample.fresh] 5000) /\
    writeFaults w' = writeFaults (Sample.quiet [Sample.fresh] 5000).
Proof.
  assert (H : ~ In "sync_9_z" (ids (queueOf (disk (Sample.quiet [Sample.fresh] 5000))))).
  { cbn. intros [H | []]. discriminate H. }
  split; [exact H|].
  apply updateSyncQueueItem_unknown_id_is_silent_noop. exact H.
Defined.

(** ** Storage failures *)

Lemma getSyncQueue_readWorks w :
  readWorks w -> getSyncQueue w = (Return (queueOf (disk w)), popRead w).
Proof.
  intros Hr. destruct (getSyncQueue_cases w) as [H | [(m & rest & Hf) _]]; [exact H|].
  unfold readWorks in Hr. now rewrite Hf in Hr.
Qed.

(** C8, as the code has it: a failing write is propagated by [addToSyncQueue],
    [removeFromSyncQueue] and [updateSyncQueueItem] (which writes when the id
    is found) as the storage's error, and the stored queue is then unchanged;
    [getSyncQueue] never fails, whatever the writes do: it returns the stored
    queue when the read works and the empty array when the read fails, and
    in both cases leaves the stored queue as it is. *)
Theorem write_failure_is_propagated (w : World) :
  (forall m rest,
      writeFaults w = Some m :: rest ->
      (forall data photoUris, exists w',
          addToSyncQueue data photoUris w = (Throw (storageError m), w') /\
          disk w' = disk w) /\
      (forall target, exists w',
          removeFromSyncQueue target w = (Throw (storageError m), w') /\
          disk w' = disk w) /\
      (forall target updates,
          readWorks w -> In target (ids (queueOf (disk w))) ->
          exists w',
            updateSyncQueueItem target updates w = (Throw (storageError m), w') /\
            disk w' = disk w)) /\
  (readWorks w ->
   exists w',
     getSyncQueue w = (Return (queueOf (disk w)), w') /\ disk w' = disk w) /\
  (forall m rest,
      readFaults w = Some m :: rest ->
      exists w',
        getSyncQueue w = (Return [], w') /\ disk w' = disk w /\
        readFaults w' = rest).
Proof.
  split; [intros m rest Hw; split; [|split]|split].
  - intros data photoUris.
    unfold addToSyncQueue, getSyncQueue, tryCatch, bind, AsyncStorage_getItem,
      Date_now, tickClock, randomSuffix, AsyncStorage_setItem, ret, throw.
    destruct (readFaults w) as [|[?|] ?] eqn:Hr; cbn;
      destruct (clockLater w) as [|? [|? ?]] eqn:Hc; cbn; rewrite ?Hc; cbn;
      destruct (randoms w) eqn:Hrand; cbn; rewrite ?Hc, ?Hw; cbn; rewrite ?Hw;
      eexists; split; reflexivity.
  - intros target.
    unfold removeFromSyncQueue, getSyncQueue, tryCatch, bind, AsyncStorage_getItem,
      AsyncStorage_setItem, ret, throw.
    destruct (readFaults w) as [|[?|] ?]; cbn; rewrite Hw;
      eexists; split; reflexivity.
  - intros target updates Hr Hin.
    unfold updateSyncQueueItem, tryCatch, bind.
    rewrite (getSyncQueue_readWorks _ Hr).
    destruct (findIndex_nonneg_or_minus1 (fun item => (id item =? target)%string)
                (queueOf (disk w))) as [Hnone | Hfound].
    + exfalso. apply in_map_iff in Hin as (s & Hs & Hin).
      assert (Hall : forall x, In x (queueOf (disk w)) ->
                (id x =? target)%string = false).
      { clear s Hs Hin. induction (queueOf (disk w)) as [|y l IH]; [intros ? []|].
        cbn in Hnone. destruct (id y =? target)%string eqn:Ey; [discriminate|].
        destruct (Js.findIndex _ l <? 0) eqn:El; zbool.
        - intros x [<-|Hx]; [exact Ey|].
          apply IH; [|exact Hx].
          destruct (findIndex_nonneg_or_minus1
                      (fun item => (id item =? target)%string) l); [assumption|lia].
        - lia. }
      specialize (Hall s Hin). apply String.eqb_neq in Hall. contradiction.
    + destruct (findIndex_found _ _ Hfound) as (before & x & after & Hq & _ & _ & Hi).
      rewrite Hi, Hq.
      destruct (0 <=? Z.of_nat (List.length before)) eqn:E; zbool; [|lia].
      rewrite Nat2Z.id, nth_error_middle, setAt_middle.
      destruct (popRead_frame w) as [Hd Hwf].
      unfold AsyncStorage_setItem, throw. rewrite Hwf, Hw.
      eexists. split; [reflexivity|]. cbn. exact Hd.
  - intros Hr. rewrite (getSyncQueue_readWorks _ Hr).
    eexists. split; [reflexivity|]. apply popRead_frame.
  - intros m rest Hf.
    unfold getSyncQueue, tryCatch, bind, AsyncStorage_getItem, ret.
    rewrite Hf. cbn.
    eexists. split; [reflexivity|]. split; reflexivity.
Qed.

Lemma write_failure_is_propagated_witness :
  (writeFaults (Sample.unwritable [Sample.fresh] 5000) = [Some "disk is full"] /\
   exists w',
     removeFromSyncQueue (id Sample.fresh) (Sample.unwritable [Sample.fresh] 5000) =
       (Throw (storageError "disk is full"), w') /\
     disk w' = Some [Sample.fresh]) /\
  (readWorks (Sample.unwritable [Sample.fresh] 5000) /\
   exists w',
     getSyncQueue (Sample.unwritable [Sample.fresh] 5000) =
       (Return [Sample.fresh], w') /\
     disk w' = Some [Sample.fresh]) /\
  (readFaults (Sample.unreadable [Sample.fresh] 5000) =
     [Some "storage is unavailable"] /\
   exists w',
     getSyncQueue (Sample.unreadable [Sample.fresh] 5000) = (Return [], w') /\
     disk w' = Some [Sample.fresh] /\
     readFaults w' = []).
Proof.
  split; [|split].
  - split; [reflexivity|].
    destruct (write_failure_is_propagated (Sample.unwritable [Sample.fresh] 5000))
      as [Hwrite _].
    destruct (Hwrite "disk is full" [] eq_refl) as (_ & Hremove & _).
    exact (Hremove (id Sample.fresh)).
  - split; [exact I|].
    destruct (write_failure_is_propagated (Sample.unwritable [Sample.fresh] 5000))
      as (_ & Hread & _).
    exact (Hread I).
  - split; [reflexivity|].
    destruct (write_failure_is_propagated (Sample.unreadable [Sample.fresh] 5000))
      as (_ & _ & Hfail).
    exact (Hfail "storage is unavailable" [] eq_refl).
Defined.

(** C8 fails as stated: when the read fails, [getSyncQueue] returns the
    empty array instead of raising, and a removal that follows the failed
    read returns normally after overwriting the stored queue with the empty
    one. *)
Lemma read_failure_is_swallowed :
  fst (getSyncQueue (Sample.unreadable [Sample.fresh] 5000)) = Return [] /\
  fst (removeFromSyncQueue "sync_9_z" (Sample.unreadable [Sample.fresh] 5000)) = Return tt /\
  disk (snd (removeFromSyncQueue "sync_9_z" (Sample.unreadable [Sample.fresh] 5000))) = Some [].
Proof. repeat split. Qed.

(** ** A failed submission *)

Lemma isOnline_true w rest :
  netinfo w = Some true :: rest -> isOnline w = (Return true, setNetinfo rest w).
Proof. intros H. unfold isOnline. now rewrite H. Qed.

(** Every item of [without target q] has another id. *)
Lemma without_gone target q : ~ In target (ids (without target q)).
Proof.
  intros Hin. apply in_map_iff in Hin as (s & Hs & Hin).
  apply filter_In in Hin as [_ Hne].
  apply negb_true_iff, String.eqb_neq in Hne. contradiction.
Qed.

(** C3: an eligible item of the queue is submitted while the device is online
    and the backend call fails with [e].  When [e] is network-class
    ([ECONNABORTED], [ECONNREFUSED], a message with "Network Error" or
    "timeout", or no response), the item stays at its place in the stored
    queue with its retry count incremented by one, [lastAttempt] set to the
    clock reading taken on failure and [error] set to the message; for any
    other error the stored queue loses the item.  The storage is taken to
    work and the item to be the first one with its id. *)
Theorem syncSingleReport_failure_handling
    (item : SyncQueueItem) (before after : list SyncQueueItem)
    (w : World) (e : Js.Error)
    (conn : list (option bool)) (answers : list (Js.Error + string)) :
  storageOk w ->
  queueOf (disk w) = before ++ item :: after ->
  ~ In (id item) (ids before) ->
  netinfo w = Some true :: conn ->
  fst (shouldRetry item w) = Return true ->
  backend w = inl e :: answers ->
  exists r w',
    syncSingleReport item w = (Return r, w') /\
    success r = false /\
    if isNetworkError e then
      disk w' =
        Some (before ++
              mkItem (id item) (reportData item) (photos item)
                (retryCount item + 1) (createdAt item)
                (Some (clock (snd (shouldRetry item w))))
                (Some (Js.orElse (Js.message e) "Network error")) :: after)
    else
      disk w' = Some (without (id item) (before ++ item :: after)) /\
      ~ In (id item) (ids (queueOf (disk w'))).
Proof.
  intros Hok Hq Hfirst Hnet Helig Hback.
  rewrite shouldRetry_eq in Helig |- *. cbn [fst snd] in *.
  injection Helig as Helig.
  unfold syncSingleReport, submitReport, onSubmitError, tryCatch, bind.
  rewrite (isOnline_true _ _ Hnet). cbn [negb].
  rewrite shouldRetry_eq.
  replace (clock (setNetinfo conn w)) with (clock w) by reflexivity.
  rewrite Helig. cbn [negb].
  set (w1 := afterPolicy item (setNetinfo conn w)).
  assert (Hw1 : disk w1 = disk w /\ readFaults w1 = readFaults w /\
                writeFaults w1 = writeFaults w /\ backend w1 = backend w /\
                clock w1 = clock (afterPolicy item w) /\
                clockLater w1 = clockLater (afterPolicy item w)).
  { unfold w1, afterPolicy, tickClock. destruct (consultsClock item); cbn;
      [destruct (clockLater w); cbn|]; repeat split. }
  destruct Hw1 as (Hd1 & Hr1 & Hwr1 & Hb1 & Hc1 & Hl1).
  unfold createReport. rewrite Hb1, Hback.
  set (w2 := setBackend answers (CreateFailed (reportData item) e) w1).
  destruct Hok as [Hr Hw].
  destruct (isNetworkError e).
  - rewrite Date_now_eq.
    assert (Hok3 : storageOk (tickClock w2)).
    { destruct (tickClock_frame w2) as (_ & H1 & H2 & _).
      split; [rewrite H1|rewrite H2]; cbn; congruence. }
    assert (Hq3 : queueOf (disk (tickClock w2)) = before ++ item :: after).
    { destruct (tickClock_frame w2) as (H1 & _). rewrite H1. cbn. now rewrite Hd1. }
    rewrite (updateSyncQueueItem_ok _ _ _ _ _ _ Hok3 Hq3 eq_refl Hfirst).
    do 2 eexists. split; [reflexivity|]. split; [reflexivity|].
    cbn. unfold spread; cbn. now rewrite Hc1.
  - assert (Hok2 : storageOk w2) by (split; cbn; congruence).
    rewrite (removeFromSyncQueue_ok _ _ Hok2).
    do 2 eexists. split; [reflexivity|]. split; [reflexivity|].
    cbn. rewrite Hd1, Hq. split; [reflexivity|apply without_gone].
Qed.

Lemma syncSingleReport_failure_handling_witness :
  exists r w',
    syncSingleReport Sample.retried
      (mkWorld (Some [Sample.fresh; Sample.retried]) 500000 [500200] [] []
         [Some true] [inl Sample.timeout] [] [] []) = (Return r, w') /\
    success r = false /\
    disk w' =
      Some [Sample.fresh;
            mkItem "sync_2000_b" Sample.streetlight ["file:///p1.jpg"] 2 2000
              (Some 500200) (Some "timeout of 10000ms exceeded")].
Proof.
  apply (syncSingleReport_failure_handling Sample.retried [Sample.fresh] []
           (mkWorld (Some [Sample.fresh; Sample.retried]) 500000 [500200] [] []
              [Some true] [inl Sample.timeout] [] [] [])
           Sample.timeout [] []).
  - split; reflexivity.
  - reflexivity.
  - cbn. intros [H | []]. discriminate H.
  - reflexivity.
  - reflexivity.
  - reflexivity.
Defined.

(** ** Duplicate clean-up after an online submission *)

Lemma NoDup_ids_inj q a b :
  NoDup (ids q) -> In a q -> In b q -> id a = id b -> a = b.
Proof.
  induction q as [|x q IH]; cbn; intros Hnd Ha Hb Heq; [contradiction|].
  inversion Hnd as [|? ? Hx Hq]; subst.
  destruct Ha as [<-|Ha], Hb as [<-|Hb]; auto.
  - exfalso. apply Hx. rewrite Heq. now apply in_map.
  - exfalso. apply Hx. rewrite <- Heq. now apply in_map.
Qed.

Lemma filter_filter {A} (f g : A -> bool) l :
  filter g (filter f l) = filter (fun x => f x && g x) l.
Proof.
  induction l as [|x l IH]; cbn; [reflexivity|].
  destruct (f x); cbn; [destruct (g x)|]; now rewrite IH.
Qed.

Lemma removeAll_filter targets q :
  removeAll targets q =
  filter (fun item => negb (existsb (String.eqb (id item)) targets)) q.
Proof.
  revert q. induction targets as [|t targets IH]; intros q; cbn.
  - symmetry. apply forallb_filter_id. now apply forallb_forall.
  - unfold removeAll in IH. rewrite IH. unfold without. rewrite filter_filter.
    apply filter_ext. intros item. destruct (id item =? t)%string; reflexivity.
Qed.

Lemma forOf_remove_ok (victims : list SyncQueueItem) (w : World) :
  storageOk w ->
  exists w',
    forOf victims (fun item => removeFromSyncQueue (id item)) w = (Return tt, w') /\
    storageOk w' /\
    queueOf (disk w') = removeAll (ids victims) (queueOf (disk w)).
Proof.
  revert w. induction victims as [|v victims IH]; intros w Hok.
  - exists w. repeat split; try apply Hok.
  - cbn [forOf]. unfold bind. rewrite (removeFromSyncQueue_ok _ _ Hok).
    destruct (IH (setDisk (Some (without (id v) (queueOf (disk w)))) w))
      as (w' & Hrun & Hok' & Hq'); [now apply storageOk_setDisk|].
    exists w'. repeat split; try apply Hok'. exact Hrun. exact Hq'.
Qed.

Lemma isDuplicate_iff lat lng title0 description0 type0 item :
  isDuplicate lat lng title0 description0 type0 item = true <->
  title (reportData item) = title0 /\
  description (reportData item) = description0 /\
  type (reportData item) = type0 /\
  (planarDistance lat lng item <? 10)%float = true.
Proof.
  unfold isDuplicate, planarDistance, pow2.
  rewrite !andb_true_iff, !String.eqb_eq. tauto.
Qed.

(** C6: when the storage works and the stored items have distinct ids, the
    clean-up that follows a successful online submission leaves in the queue,
    in their order, exactly the items that are not duplicates of the
    submitted report; an item is a duplicate when its title, description and
    type equal the submitted ones and
    [sqrt (dlat * dlat + dlng * dlng) * 111000 < 10]. *)
Theorem cleanSyncQueue_removes_exactly_the_duplicates
    (lat lng : float) (title0 description0 type0 : string) (w : World) :
  storageOk w ->
  NoDup (ids (queueOf (disk w))) ->
  exists w',
    cleanSyncQueue lat lng title0 description0 type0 w = (Return tt, w') /\
    (forall item,
        In item (queueOf (disk w')) <->
        In item (queueOf (disk w)) /\
        ~ (title (reportData item) = title0 /\
           description (reportData item) = description0 /\
           type (reportData item) = type0 /\
           (planarDistance lat lng item <? 10)%float = true)) /\
    queueOf (disk w') =
      filter (fun item => negb (isDuplicate lat lng title0 description0 type0 item))
        (queueOf (disk w)).
Proof.
  intros Hok Hnd.
  set (dup := isDuplicate lat lng title0 description0 type0).
  assert (Hgoal : exists w',
             cleanSyncQueue lat lng title0 description0 type0 w = (Return tt, w') /\
             queueOf (disk w') = filter (fun item => negb (dup item)) (queueOf (disk w))).
  { unfold cleanSyncQueue, tryCatch, bind.
    rewrite (getSyncQueue_ok _ (proj1 Hok)). fold dup.
    destruct (forOf_remove_ok (filter dup (queueOf (disk w))) w Hok)
      as (w' & -> & _ & Hq').
    exists w'. split; [reflexivity|].
    rewrite Hq', removeAll_filter. apply filter_ext_in. intros item Hin. f_equal.
    destruct (dup item) eqn:Hd.
    - apply existsb_exists. exists (id item). split; [|apply String.eqb_refl].
      apply in_map. apply filter_In. now split.
    - apply not_true_is_false. intros Hex.
      apply existsb_exists in Hex as (i & Hi & Heq).
      apply String.eqb_eq in Heq. apply in_map_iff in Hi as (v & Hv & Hin').
      apply filter_In in Hin' as [Hvq Hvd].
      assert (v = item) by (apply (NoDup_ids_inj _ _ _ Hnd); congruence).
      subst v. congruence. }
  destruct Hgoal as (w' & Hrun & Hq'). exists w'. split; [exact Hrun|].
  split; [|exact Hq'].
  intros item. rewrite Hq', filter_In, negb_true_iff.
  unfold dup. rewrite <- isDuplicate_iff.
  destruct (isDuplicate lat lng title0 description0 type0 item); split;
    intros [H1 H2]; split; auto; congruence.
Qed.

Lemma cleanSyncQueue_witness :
  exists w',
    cleanSyncQueue (-1.5)%float (30.25)%float "Pothole" "Deep hole" "pothole"
      (Sample.quiet [Sample.fresh; Sample.retried] 5000) = (Return tt, w') /\
    queueOf (disk w') = [Sample.retried].
Proof.
  destruct (cleanSyncQueue_removes_exactly_the_duplicates
              (-1.5)%float (30.25)%float "Pothole" "Deep hole" "pothole"
              (Sample.quiet [Sample.fresh; Sample.retried] 5000))
    as (w' & Hrun & _ & Hq).
  - split; reflexivity.
  - cbn. repeat constructor; cbn; intuition discriminate.
  - exists w'. split; [exact Hrun|]. rewrite Hq. reflexivity.
Defined.

(** ** Projections of the worlds the primitives produce *)

Lemma disk_tickClock w : disk (tickClock w) = disk w.
Proof. unfold tickClock; destruct (clockLater w); reflexivity. Qed.

Lemma disk_afterPolicy item w : disk (afterPolicy item w) = disk w.
Proof. unfold afterPolicy; destruct (consultsClock item); [apply disk_tickClock|reflexivity]. Qed.

Lemma disk_popRead w : disk (popRead w) = disk w.
Proof. unfold popRead; destruct (readFaults w); reflexivity. Qed.

Lemma clock_popRead w : clock (popRead w) = clock w.
Proof. unfold popRead; destruct (readFaults w); reflexivity. Qed.

Lemma clockLater_popRead w : clockLater (popRead w) = clockLater w.
Proof. unfold popRead; destruct (readFaults w); reflexivity. Qed.

Lemma readFaults_tickClock w : readFaults (tickClock w) = readFaults w.
Proof. unfold tickClock; destruct (clockLater w); reflexivity. Qed.

Lemma readFaults_afterPolicy item w : readFaults (afterPolicy item w) = readFaults w.
Proof. unfold afterPolicy; destruct (consultsClock item); [apply readFaults_tickClock|reflexivity]. Qed.

Lemma writeFaults_tickClock w : writeFaults (tickClock w) = writeFaults w.
Proof. unfold tickClock; destruct (clockLater w); reflexivity. Qed.

Lemma writeFaults_afterPolicy item w : writeFaults (afterPolicy item w) = writeFaults w.
Proof. unfold afterPolicy; destruct (consultsClock item); [apply writeFaults_tickClock|reflexivity]. Qed.

Lemma writeFaults_popRead w : writeFaults (popRead w) = writeFaults w.
Proof. unfold popRead; destruct (readFaults w); reflexivity. Qed.

Lemma netinfo_tickClock w : netinfo (tickClock w) = netinfo w.
Proof. unfold tickClock; destruct (clockLater w); reflexivity. Qed.

Lemma netinfo_afterPolicy item w : netinfo (afterPolicy item w) = netinfo w.
Proof. unfold afterPolicy; destruct (consultsClock item); [apply netinfo_tickClock|reflexivity]. Qed.

Lemma netinfo_popRead w : netinfo (popRead w) = netinfo w.
Proof. unfold popRead; destruct (readFaults w); reflexivity. Qed.

Lemma backend_tickClock w : backend (tickClock w) = backend w.
Proof. unfold tickClock; destruct (clockLater w); reflexivity. Qed.

Lemma backend_afterPolicy item w : backend (afterPolicy item w) = backend w.
Proof. unfold afterPolicy; destruct (consultsClock item); [apply backend_tickClock|reflexivity]. Qed.

Lemma backend_popRead w : backend (popRead w) = backend w.
Proof. unfold popRead; destruct (readFaults w); reflexivity. Qed.

Lemma uploads_tickClock w : uploads (tickClock w) = uploads w.
Proof. unfold tickClock; destruct (clockLater w); reflexivity. Qed.

Lemma uploads_afterPolicy item w : uploads (afterPolicy item w) = uploads w.
Proof. unfold afterPolicy; destruct (consultsClock item); [apply uploads_tickClock|reflexivity]. Qed.

Lemma uploads_popRead w : uploads (popRead w) = uploads w.
Proof. unfold popRead; destruct (readFaults w); reflexivity. Qed.

Lemma randoms_tickClock w : randoms (tickClock w) = randoms w.
Proof. unfold tickClock; destruct (clockLater w); reflexivity. Qed.

Lemma randoms_afterPolicy item w : randoms (afterPolicy item w) = randoms w.
Proof. unfold afterPolicy; destruct (consultsClock item); [apply randoms_tickClock|reflexivity]. Qed.

Lemma randoms_popRead w : randoms (popRead w) = randoms w.
Proof. unfold popRead; destruct (readFaults w); reflexivity. Qed.

Lemma netLog_tickClock w : netLog (tickClock w) = netLog w.
Proof. unfold tickClock; destruct (clockLater w); reflexivity. Qed.

Lemma netLog_afterPolicy item w : netLog (afterPolicy item w) = netLog w.
Proof. unfold afterPolicy; destruct (consultsClock item); [apply netLog_tickClock|reflexivity]. Qed.

Lemma netLog_popRead w : netLog (popRead w) = netLog w.
Proof. unfold popRead; destruct (readFaults w); reflexivity. Qed.

Create Rewrite HintDb world.

#[local] Hint Rewrite disk_tickClock disk_afterPolicy disk_popRead clock_popRead clockLater_popRead readFaults_tickClock readFaults_afterPolicy writeFaults_tickClock writeFaults_afterPolicy writeFaults_popRead netinfo_tickClock netinfo_afterPolicy netinfo_popRead backend_tickClock backend_afterPolicy backend_popRead uploads_tickClock uploads_afterPolicy uploads_popRead randoms_tickClock randoms_afterPolicy randoms_popRead netLog_tickClock netLog_afterPolicy netLog_popRead : world.


Ltac world :=
  repeat first
    [ progress (autorewrite with world)
    | progress (cbn [disk clock clockLater readFaults writeFaults netinfo backend
                     uploads randoms netLog setDisk setClock setReadFaults
                     setWriteFaults setNetinfo setBackend setUploads setRandoms]) ].

(** ** Items a pass does not submit *)

Lemma isOnline_offline w :
  nextCheckOnline w = false ->
  exists w', isOnline w = (Return false, w') /\
             disk w' = disk w /\ netLog w' = netLog w /\ backend w' = backend w /\
             netinfo w' = tl (netinfo w).
Proof.
  unfold nextCheckOnline, isOnline. intros H.
  destruct (netinfo w) as [|[[|]|] rest] eqn:E; try discriminate;
    eexists; (split; [reflexivity|]); cbn; rewrite ?E; repeat split.
Qed.

Lemma syncStep_ineligible item c w :
  eligibleAt (clock w) item = false ->
  syncStep item c w =
    (Return (mkCounts (synced c) (failed c) (skipped c + 1)), afterPolicy item w).
Proof.
  intros H. unfold syncStep, bind. rewrite shouldRetry_eq, H. reflexivity.
Qed.

Lemma syncStep_offline item c w :
  eligibleAt (clock w) item = true ->
  nextCheckOnline w = false ->
  exists w',
    syncStep item c w =
      (Return (mkCounts (synced c) (failed c + 1) (skipped c)), w') /\
    disk w' = disk w /\ netLog w' = netLog w /\ backend w' = backend w /\
    netinfo w' = tl (netinfo w).
Proof.
  intros He Hoff. unfold syncStep, bind. rewrite shouldRetry_eq, He. cbn [negb].
  unfold syncSingleReport, submitReport, tryCatch, bind.
  destruct (isOnline_offline (afterPolicy item w)) as (w' & -> & Hd & Hl & Hb & Hn).
  { unfold nextCheckOnline in *. now world. }
  cbn. exists w'. split; [reflexivity|]. revert Hd Hl Hb Hn. world. auto.
Qed.

(** C4, as the code has it: an item that the retry policy rejects, or whose
    own connectivity check answers false, is the only one passed over: the
    stored queue is untouched, nothing is sent to the backend, the item is
    counted as skipped (ineligible) or failed (offline), and the loop goes on
    with the remaining items, each of which gets a connectivity check of its
    own. *)
Theorem syncLoop_passes_over_one_item
    (item : SyncQueueItem) (rest : list SyncQueueItem) (c : Counts) (w : World) :
  fst (shouldRetry item w) = Return false \/ nextCheckOnline w = false ->
  exists c' w',
    syncLoop (item :: rest) c w = syncLoop rest c' w' /\
    disk w' = disk w /\ netLog w' = netLog w /\ backend w' = backend w /\
    synced c' = synced c /\
    (fst (shouldRetry item w) = Return false ->
       skipped c' = skipped c + 1 /\ failed c' = failed c /\
       netinfo w' = netinfo w) /\
    (fst (shouldRetry item w) = Return true ->
       failed c' = failed c + 1 /\ skipped c' = skipped c /\
       netinfo w' = tl (netinfo w)).
Proof.
  rewrite shouldRetry_eq. cbn [fst]. intros H.
  destruct (eligibleAt (clock w) item) eqn:He.
  - destruct H as [H | Hoff]; [discriminate|].
    destruct (syncStep_offline item c w He Hoff) as (w' & Hstep & Hd & Hl & Hb & Hn).
    do 2 eexists. cbn [syncLoop]. unfold bind at 1. rewrite Hstep.
    split; [reflexivity|]. cbn. repeat split; auto; discriminate.
  - do 2 eexists. cbn [syncLoop]. unfold bind at 1.
    rewrite (syncStep_ineligible item c w He).
    split; [reflexivity|]. cbn. world. repeat split; auto; discriminate.
Qed.

Lemma syncLoop_passes_over_one_item_witness :
  nextCheckOnline flappingWorld = false /\
  exists c' w',
    syncLoop [Sample.fresh; Sample.retried] (mkCounts 0 0 0) flappingWorld =
      syncLoop [Sample.retried] c' w' /\
    disk w' = disk flappingWorld /\ netLog w' = [] /\ failed c' = 1 /\
    netinfo w' = [Some true].
Proof.
  split; [reflexivity|].
  destruct (syncLoop_passes_over_one_item Sample.fresh [Sample.retried]
              (mkCounts 0 0 0) flappingWorld (or_intror eq_refl))
    as (c' & w' & Hrun & Hd & Hl & _ & _ & _ & Hfail).
  destruct (Hfail eq_refl) as (Hf & _ & Hn).
  exists c', w'. repeat split; assumption.
Defined.

(** While every connectivity check answers false, a pass sends nothing to
    the backend and leaves the stored queue alone. *)
Lemma syncLoop_offline_throughout (todo : list SyncQueueItem) :
  forall (c : Counts) (w : World),
    Forall (fun answer => answer <> Some true) (netinfo w) ->
    exists c' w',
      syncLoop todo c w = (Return c', w') /\
      disk w' = disk w /\ netLog w' = netLog w /\ synced c' = synced c.
Proof.
  induction todo as [|item todo IH]; intros c w Hoff.
  - exists c, w. repeat split.
  - assert (Hnext : nextCheckOnline w = false).
    { unfold nextCheckOnline. destruct (netinfo w) as [|[[|]|] rest]; auto.
      inversion Hoff as [|? ? Hhead _]. now elim Hhead. }
    cbn [syncLoop]. unfold bind at 1.
    destruct (eligibleAt (clock w) item) eqn:He.
    + destruct (syncStep_offline item c w He Hnext) as (w1 & -> & Hd & Hl & _ & Hn).
      destruct (IH (mkCounts (synced c) (failed c + 1) (skipped c)) w1)
        as (c' & w' & -> & Hd' & Hl' & Hs').
      { rewrite Hn. destruct (netinfo w); [constructor|now inversion Hoff]. }
      cbn in Hs'. exists c', w'. repeat split; congruence.
    + rewrite (syncStep_ineligible item c w He).
      destruct (IH (mkCounts (synced c) (failed c) (skipped c + 1)) (afterPolicy item w))
        as (c' & w' & -> & Hd' & Hl' & Hs').
      { now world. }
      revert Hd' Hl'. world. intros Hd' Hl'. cbn in Hs'.
      exists c', w'. repeat split; congruence.
Qed.

(** C4 fails as stated: the first item finds the device offline, yet the
    pass goes on, the second item is sent to the backend and removed from
    the stored queue. *)
Lemma offline_check_does_not_abort_the_pass :
  nextCheckOnline flappingWorld = false /\
  fst (syncPendingReports flappingWorld) = Return (mkCounts 1 1 0) /\
  netLog (snd (syncPendingReports flappingWorld)) =
    [CreateOk Sample.streetlight "report-1"; UploadOk "report-1" "file:///p1.jpg"] /\
  disk (snd (syncPendingReports flappingWorld)) = Some [Sample.fresh].
Proof. repeat split. Qed.

(** ** One item of a pass, when the storage works *)

Lemma envStep_refl w : envStep w w [].
Proof.
  unfold envStep. rewrite app_nil_r. repeat split. apply incl_refl.
Qed.

Lemma envStep_trans w w1 w2 e1 e2 :
  envStep w w1 e1 -> envStep w1 w2 e2 -> envStep w w2 (e1 ++ e2).
Proof.
  intros (Hr1 & Hw1 & Hl1 & Ht1) (Hr2 & Hw2 & Hl2 & Ht2). unfold envStep.
  rewrite Hr2, Hw2, Hl2, Hl1, app_assoc. repeat split; auto.
  eapply incl_tran; eauto.
Qed.

Lemma envStep_storageOk w w' events :
  envStep w w' events -> storageOk w -> storageOk w'.
Proof. intros (Hr & Hw & _) [H1 H2]. split; congruence. Qed.

Lemma timesOf_tickClock w : incl (timesOf (tickClock w)) (timesOf w).
Proof.
  unfold tickClock, timesOf. destruct (clockLater w) as [|t later] eqn:E.
  - rewrite E. apply incl_refl.
  - cbn [clock clockLater setClock]. apply incl_tl, incl_refl.
Qed.

Lemma envStep_tickClock w : envStep w (tickClock w) [].
Proof.
  unfold envStep. world. rewrite app_nil_r. repeat split. apply timesOf_tickClock.
Qed.

Lemma envStep_afterPolicy item w : envStep w (afterPolicy item w) [].
Proof.
  unfold afterPolicy. destruct (consultsClock item);
    [apply envStep_tickClock|apply envStep_refl].
Qed.

Lemma envStep_setDisk d w : envStep w (setDisk d w) [].
Proof. unfold envStep. world. rewrite app_nil_r. repeat split. apply incl_refl. Qed.

Lemma envStep_setNetinfo l w : envStep w (setNetinfo l w) [].
Proof. unfold envStep. world. rewrite app_nil_r. repeat split. apply incl_refl. Qed.

Lemma envStep_setBackend l ev w : envStep w (setBackend l ev w) [ev].
Proof. unfold envStep. world. repeat split. apply incl_refl. Qed.

Lemma envStep_setUploads l ev w : envStep w (setUploads l ev w) [ev].
Proof. unfold envStep. world. repeat split. apply incl_refl. Qed.

Lemma guarded_upload reportId uri w :
  exists ev,
    tryCatch (uploadPhoto reportId uri) (fun _ => ret tt) w =
      (Return tt, setUploads (tl (uploads w)) ev w).
Proof.
  unfold tryCatch, uploadPhoto, ret. destruct (uploads w) as [|[|] rest];
    eexists; reflexivity.
Qed.

(** The uploads of the photos never make the submission fail and do not
    touch the stored queue. *)
Lemma uploads_loop reportId uris w :
  exists w' events,
    forOf uris
      (fun photoUri => tryCatch (uploadPhoto reportId photoUri) (fun _ => ret tt)) w
    = (Return tt, w') /\
    disk w' = disk w /\ envStep w w' events.
Proof.
  revert w. induction uris as [|uri uris IH]; intros w.
  - exists w, []. split; [reflexivity|]. split; [reflexivity|apply envStep_refl].
  - cbn [forOf]. unfold bind.
    destruct (guarded_upload reportId uri w) as (ev & ->).
    destruct (IH (setUploads (tl (uploads w)) ev w)) as (w' & evs & -> & Hd & He).
    exists w', ([ev] ++ evs).
    split; [reflexivity|]. split; [exact Hd|].
    eapply envStep_trans; [apply envStep_setUploads|exact He].
Qed.

Lemma without_keeps target q s :
  In s q -> id s <> target -> In s (without target q).
Proof.
  intros Hin Hne. apply filter_In. split; [exact Hin|].
  now apply negb_true_iff, String.eqb_neq.
Qed.

Lemma without_sub target q s : In s (without target q) -> In s q.
Proof. intros H. now apply filter_In in H. Qed.

(** The update of a failed attempt, which leaves the ids alone. *)
Lemma updateSyncQueueItem_attempt target n t msg w :
  storageOk w ->
  exists w',
    updateSyncQueueItem target
      (mkUpdates None None None (Some n) None (Some t) (Some msg)) w
    = (Return tt, w') /\
    envStep w w' [] /\
    ids (queueOf (disk w')) = ids (queueOf (disk w)) /\
    (forall s, In s (queueOf (disk w)) -> id s <> target -> In s (queueOf (disk w'))).
Proof.
  intros Hok. set (u := mkUpdates None None None (Some n) None (Some t) (Some msg)).
  destruct (in_dec string_dec target (ids (queueOf (disk w)))) as [Hin | Hout].
  - assert (Hfound : 0 <= Js.findIndex (fun item => (id item =? target)%string)
                            (queueOf (disk w))).
    { destruct (findIndex_nonneg_or_minus1 (fun item => (id item =? target)%string)
                  (queueOf (disk w))) as [Hnone | H]; [|exact H].
      exfalso. apply in_map_iff in Hin as (s & Hs & Hin).
      revert Hnone Hin. induction (queueOf (disk w)) as [|y l IH]; [intros _ []|].
      cbn. destruct (id y =? target)%string eqn:Ey; [discriminate|].
      destruct (Js.findIndex _ l <? 0) eqn:El; zbool.
      - intros _ [<-|Hin]; [apply String.eqb_neq in Ey; contradiction|].
        apply IH; [|exact Hin].
        destruct (findIndex_nonneg_or_minus1
                    (fun item => (id item =? target)%string) l); [assumption|lia].
      - lia. }
    destruct (findIndex_found _ _ Hfound) as (before & old & after & Hq & Hold & Hb & _).
    apply String.eqb_eq in Hold.
    assert (Hfirst : ~ In target (ids before)).
    { intros Hi. apply in_map_iff in Hi as (y & Hy & Hyin).
      specialize (Hb y Hyin). apply String.eqb_neq in Hb. contradiction. }
    rewrite (updateSyncQueueItem_ok target u before old after w Hok Hq Hold Hfirst).
    eexists. split; [reflexivity|]. split; [apply envStep_setDisk|].
    cbn [disk setDisk queueOf]. rewrite Hq. split.
    + unfold ids. rewrite !map_app. reflexivity.
    + intros s Hs Hne. apply in_app_or in Hs as [Hs|[<-|Hs]].
      * apply in_or_app. now left.
      * contradiction.
      * apply in_or_app. right. now right.
  - rewrite (updateSyncQueueItem_missing target u w Hout).
    destruct Hok as [Hr Hw]. unfold popRead. rewrite Hr.
    exists w. split; [reflexivity|]. split; [apply envStep_refl|]. auto.
Qed.

Lemma envStep_nil_l w w1 w2 events :
  envStep w w1 [] -> envStep w1 w2 events -> envStep w w2 events.
Proof. intros H1 H2. exact (envStep_trans w w1 w2 [] events H1 H2). Qed.

Lemma envStep_nil_r w w1 w2 events :
  envStep w w1 events -> envStep w1 w2 [] -> envStep w w2 events.
Proof.
  intros H1 H2. rewrite <- (app_nil_r events).
  exact (envStep_trans w w1 w2 events [] H1 H2).
Qed.

Lemma isNetworkError_noResponse : isNetworkError noResponse = true.
Proof. reflexivity. Qed.

(** The handler of [syncSingleReport] for a network-class error. *)
Lemma network_failure_handler item e w :
  storageOk w -> In item (queueOf (disk w)) ->
  isNetworkError e = true ->
  exists r w',
    onSubmitError item e w = (Return r, w') /\
    success r = false /\
    envStep w w' [] /\
    (forall s, In s (queueOf (disk w)) -> id s <> id item -> In s (queueOf (disk w'))) /\
    ids (queueOf (disk w')) = ids (queueOf (disk w)).
Proof.
  intros Hok Hin Hclass. unfold onSubmitError, bind. rewrite Hclass, Date_now_eq.
  assert (Hok1 : storageOk (tickClock w))
    by (eapply envStep_storageOk; [apply envStep_tickClock|exact Hok]).
  destruct (updateSyncQueueItem_attempt (id item) (retryCount item + 1)
              (Some (clock w)) (Some (Js.orElse (Js.message e) "Network error"))
              (tickClock w) Hok1) as (w' & -> & Henv & Hids & Hframe).
  revert Hids Hframe. world. intros Hids Hframe.
  do 2 eexists. split; [reflexivity|]. split; [reflexivity|].
  split; [|split; assumption].
  eapply envStep_nil_l; [apply envStep_tickClock|exact Henv].
Qed.

(** What [syncSingleReport] does with a stored item when the storage works:
    it returns a result, and the item was either acknowledged and removed, or
    kept, or rejected by the backend and removed. *)
Lemma syncSingleReport_outcome item w :
  storageOk w -> In item (queueOf (disk w)) ->
  exists r w' events,
    syncSingleReport item w = (Return r, w') /\
    envStep w w' events /\
    (forall s, In s (queueOf (disk w)) -> id s <> id item -> In s (queueOf (disk w'))) /\
    (forall s, In s (queueOf (disk w')) -> In (id s) (ids (queueOf (disk w)))) /\
    ((success r = true /\ verdictHolds (queueOf (disk w')) events [] item Synced) \/
     (success r = false /\ verdictHolds (queueOf (disk w')) events [] item Retained) \/
     (success r = false /\ verdictHolds (queueOf (disk w')) events [] item Dropped)).
Proof.
  intros Hok Hin.
  assert (Hkept : In (id item) (ids (queueOf (disk w)))) by now apply in_map.
  assert (Hsame : forall w', disk w' = disk w ->
            (forall s, In s (queueOf (disk w)) -> id s <> id item ->
                       In s (queueOf (disk w'))) /\
            (forall s, In s (queueOf (disk w')) -> In (id s) (ids (queueOf (disk w))))).
  { intros w' ->. split; [auto|]. intros s Hs. now apply in_map. }
  unfold syncSingleReport, submitReport, tryCatch at 1, bind at 1.
  unfold isOnline.
  destruct (netinfo w) as [|[[|]|] conn] eqn:Hnet.
  - (* no answer from NetInfo: offline *)
    exists (mkResult false (Some "Offline")), w, [].
    split; [reflexivity|]. split; [apply envStep_refl|].
    split; [auto|]. split; [intros s Hs; now apply in_map|].
    right; left. now split.
  - (* online *)
    cbn [negb]. unfold bind at 1. rewrite shouldRetry_eq.
    set (w0 := setNetinfo conn w).
    assert (He0 : envStep w w0 []) by apply envStep_setNetinfo.
    destruct (eligibleAt (clock w0) item); cbn [negb].
    + set (w1 := afterPolicy item w0).
      assert (He1 : envStep w w1 [])
        by (eapply envStep_nil_l; [exact He0|apply envStep_afterPolicy]).
      assert (Hd1 : disk w1 = disk w) by (unfold w1, w0; now world).
      unfold bind at 1, createReport.
      destruct (backend w1) as [|[e|reportId] answers].
      * (* the backend does not answer *)
        set (w2 := setBackend [] (CreateFailed (reportData item) noResponse) w1).
        assert (He2 : envStep w w2 [CreateFailed (reportData item) noResponse])
          by (eapply envStep_nil_l; [exact He1|apply envStep_setBackend]).
        destruct (network_failure_handler item noResponse w2)
          as (r & w' & -> & Hr & He & Hframe & Hids).
        { eapply envStep_storageOk; [exact He2|exact Hok]. }
        { unfold w2. world. now rewrite Hd1. }
        { reflexivity. }
        exists r, w', [CreateFailed (reportData item) noResponse].
        split; [reflexivity|].
        split; [eapply envStep_nil_r; [exact He2|exact He]|].
        revert Hframe Hids. unfold w2. world. rewrite Hd1. intros Hframe Hids.
        split; [exact Hframe|]. split.
        { intros s Hs. rewrite <- Hids. now apply in_map. }
        right; left. split; [exact Hr|]. cbn. now rewrite Hids.
      * (* the backend call fails with [e] *)
        set (w2 := setBackend answers (CreateFailed (reportData item) e) w1).
        assert (He2 : envStep w w2 [CreateFailed (reportData item) e])
          by (eapply envStep_nil_l; [exact He1|apply envStep_setBackend]).
        assert (Hok2 : storageOk w2)
          by (eapply envStep_storageOk; [exact He2|exact Hok]).
        assert (Hd2 : disk w2 = disk w) by (unfold w2; world; exact Hd1).
        destruct (isNetworkError e) eqn:Hclass.
        -- destruct (network_failure_handler item e w2 Hok2)
             as (r & w' & -> & Hr & He & Hframe & Hids).
           { now rewrite Hd2. }
           { exact Hclass. }
           exists r, w', [CreateFailed (reportData item) e].
           split; [reflexivity|].
           split; [eapply envStep_nil_r; [exact He2|exact He]|].
           revert Hframe Hids. rewrite Hd2. intros Hframe Hids.
           split; [exact Hframe|]. split.
           { intros s Hs. rewrite <- Hids. now apply in_map. }
           right; left. split; [exact Hr|]. cbn. now rewrite Hids.
        -- unfold onSubmitError, bind. rewrite Hclass.
           rewrite (removeFromSyncQueue_ok _ _ Hok2). unfold ret.
           do 3 eexists. split; [reflexivity|].
           split; [eapply envStep_nil_r; [exact He2|apply envStep_setDisk]|].
           cbn [disk setDisk queueOf]. rewrite Hd2.
           split; [intros s Hs Hne; now apply without_keeps|].
           split; [intros s Hs; apply in_map; eapply without_sub; exact Hs|].
           right; right. split; [reflexivity|]. split; [apply without_gone|].
           exists e. split; [exact Hclass|now left].
      * (* the backend acknowledges the report *)
        set (w2 := setBackend answers (CreateOk (reportData item) reportId) w1).
        assert (He2 : envStep w w2 [CreateOk (reportData item) reportId])
          by (eapply envStep_nil_l; [exact He1|apply envStep_setBackend]).
        unfold bind at 1.
        destruct (uploads_loop reportId (photos item) w2) as (w3 & evs & -> & Hd3 & He3).
        assert (He3' : envStep w w3 ([CreateOk (reportData item) reportId] ++ evs))
          by (eapply envStep_trans; [exact He2|exact He3]).
        assert (Hok3 : storageOk w3)
          by (eapply envStep_storageOk; [exact He3'|exact Hok]).
        assert (Hd3' : disk w3 = disk w) by (rewrite Hd3; unfold w2; world; exact Hd1).
        unfold bind. rewrite (removeFromSyncQueue_ok _ _ Hok3). unfold ret.
        do 3 eexists. split; [reflexivity|].
        split; [eapply envStep_nil_r; [exact He3'|apply envStep_setDisk]|].
        cbn [disk setDisk queueOf]. rewrite Hd3'.
        split; [intros s Hs Hne; now apply without_keeps|].
        split; [intros s Hs; apply in_map; eapply without_sub; exact Hs|].
        left. split; [reflexivity|]. split; [apply without_gone|].
        exists reportId. now left.
    + (* not eligible any more at the second look *)
      unfold ret.
      do 3 eexists. split; [reflexivity|].
      split; [eapply envStep_nil_l; [exact He0|apply envStep_afterPolicy]|].
      assert (Hd : disk (afterPolicy item w0) = disk w) by (unfold w0; now world).
      destruct (Hsame _ Hd) as [H1 H2].
      split; [exact H1|]. split; [exact H2|].
      right; left. split; [reflexivity|]. cbn. now rewrite Hd.
  - (* offline *)
    cbn [negb]. unfold ret.
    do 3 eexists. split; [reflexivity|].
    split; [apply envStep_setNetinfo|].
    split; [auto|]. split; [intros s Hs; now apply in_map|].
    right; left. now split.
  - (* NetInfo answers null: offline *)
    cbn [negb]. unfold ret.
    do 3 eexists. split; [reflexivity|].
    split; [apply envStep_setNetinfo|].
    split; [auto|]. split; [intros s Hs; now apply in_map|].
    right; left. now split.
Qed.

Lemma syncStep_verdict item c w :
  storageOk w -> In item (queueOf (disk w)) ->
  exists v w' events,
    syncStep item c w = (Return (bump v c), w') /\
    envStep w w' events /\
    (forall s, In s (queueOf (disk w)) -> id s <> id item -> In s (queueOf (disk w'))) /\
    (forall s, In s (queueOf (disk w')) -> In (id s) (ids (queueOf (disk w)))) /\
    verdictHolds (queueOf (disk w')) events (timesOf w) item v.
Proof.
  intros Hok Hin. unfold syncStep, bind. rewrite shouldRetry_eq.
  destruct (eligibleAt (clock w) item) eqn:He; cbn [negb].
  - assert (Hok1 : storageOk (afterPolicy item w))
      by (eapply envStep_storageOk; [apply envStep_afterPolicy|exact Hok]).
    destruct (syncSingleReport_outcome item (afterPolicy item w) Hok1)
      as (r & w' & events & -> & Henv & Hframe & Hsub & Hcases).
    { now world. }
    revert Hframe Hsub. world. intros Hframe Hsub.
    assert (Henv' : envStep w w' events)
      by (eapply envStep_nil_l; [apply envStep_afterPolicy|exact Henv]).
    destruct Hcases as [[Hr Hv] | [[Hr Hv] | [Hr Hv]]]; rewrite Hr.
    + exists Synced, w', events. split; [reflexivity|]. auto.
    + exists Retained, w', events. split; [reflexivity|]. auto.
    + exists Dropped, w', events. split; [reflexivity|]. auto.
  - exists Skipped, (afterPolicy item w), [].
    split; [reflexivity|]. split; [apply envStep_afterPolicy|]. world.
    split; [auto|]. split; [intros s Hs; now apply in_map|].
    split; [exact Hin|]. exists (clock w). split; [now left|exact He].
Qed.

Lemma verdictHolds_later stored events events0 times times0 item v :
  incl times times0 ->
  verdictHolds stored events times item v ->
  verdictHolds stored (events0 ++ events) times0 item v.
Proof.
  intros Hincl. destruct v; cbn.
  - intros [Hgone (rid & Hev)]. split; [exact Hgone|].
    exists rid. apply in_or_app. now right.
  - auto.
  - intros [Hgone (e & Hclass & Hev)]. split; [exact Hgone|].
    exists e. split; [exact Hclass|]. apply in_or_app. now right.
  - intros [Hin (now & Hnow & He)]. split; [exact Hin|].
    exists now. split; [now apply Hincl|exact He].
Qed.

(** The loop of a pass over items that are all stored, with distinct ids. *)
Lemma syncLoop_verdicts (todo : list SyncQueueItem) :
  forall (c : Counts) (w : World),
    storageOk w ->
    NoDup (ids todo) ->
    (forall item, In item todo -> In item (queueOf (disk w))) ->
    exists vs c' w' events,
      syncLoop todo c w = (Return c', w') /\
      c' = tally vs c /\
      envStep w w' events /\
      (forall s, In s (queueOf (disk w)) -> ~ In (id s) (ids todo) ->
                 In s (queueOf (disk w'))) /\
      (forall s, In s (queueOf (disk w')) -> In (id s) (ids (queueOf (disk w)))) /\
      Forall2 (verdictHolds (queueOf (disk w')) events (timesOf w)) todo vs.
Proof.
  induction todo as [|item todo IH]; intros c w Hok Hnd Hstored.
  - exists [], c, w, []. split; [reflexivity|]. split; [reflexivity|].
    split; [apply envStep_refl|]. split; [auto|].
    split; [intros s Hs; now apply in_map|constructor].
  - cbn [ids map] in Hnd. inversion Hnd as [|? ? Hfresh Hnd']; subst.
    destruct (syncStep_verdict item c w Hok (Hstored item (or_introl eq_refl)))
      as (v & w1 & ev1 & Hstep & Henv1 & Hframe1 & Hsub1 & Hv).
    assert (Hok1 : storageOk w1) by (eapply envStep_storageOk; eauto).
    destruct (IH (bump v c) w1 Hok1 Hnd') as
      (vs & c' & w' & ev2 & Hloop & Hc' & Henv2 & Hframe2 & Hsub2 & Hvs).
    { intros it Hit. apply Hframe1; [apply Hstored; now right|].
      intros Heq. apply Hfresh. rewrite <- Heq. now apply in_map. }
    exists (v :: vs), c', w', (ev1 ++ ev2).
    split; [cbn [syncLoop]; unfold bind; rewrite Hstep; exact Hloop|].
    split; [exact Hc'|].
    split; [eapply envStep_trans; eauto|].
    split.
    { intros s Hs Hnot. apply Hframe2.
      - apply Hframe1; [exact Hs|]. intros Heq. apply Hnot. left. now symmetry.
      - intros Hi. apply Hnot. now right. }
    split.
    { intros s Hs. apply Hsub2 in Hs. apply in_map_iff in Hs as (s1 & <- & Hs1).
      now apply Hsub1. }
    constructor.
    + (* the verdict on [item] still holds after the rest of the loop *)
      destruct v; cbn in Hv |- *.
      * destruct Hv as [Hgone (rid & Hev)]. split.
        -- intros Hi. apply in_map_iff in Hi as (s & Hs & Hin).
           apply Hsub2 in Hin. congruence.
        -- exists rid. apply in_or_app. now left.
      * apply in_map_iff in Hv as (s & Hs & Hin).
        rewrite <- Hs. apply in_map. apply Hframe2; [exact Hin|].
        now rewrite Hs.
      * destruct Hv as [Hgone (e & Hclass & Hev)]. split.
        -- intros Hi. apply in_map_iff in Hi as (s & Hs & Hin).
           apply Hsub2 in Hin. congruence.
        -- exists e. split; [exact Hclass|]. apply in_or_app. now left.
      * destruct Hv as [Hin Hnow]. split; [|exact Hnow].
        apply Hframe2; [exact Hin|exact Hfresh].
    + eapply Forall2_impl; [|exact Hvs]. intros it vi.
      apply verdictHolds_later. apply Henv1.
Qed.

(** ** The result of a pass *)

Lemma tally_total vs c :
  synced (tally vs c) + failed (tally vs c) + skipped (tally vs c) =
  synced c + failed c + skipped c + Z.of_nat (List.length vs).
Proof.
  revert c. induction vs as [|v vs IH]; intros c.
  - cbn. lia.
  - cbn [tally List.length]. rewrite IH. destruct v; cbn; lia.
Qed.

(** C7, as the code has it: when the storage works and the stored items have
    distinct ids, a pass returns counts that classify every item of the queue
    once: each item gets one verdict, [synced] counts the items acknowledged
    by the backend and removed from the queue, [failed] counts the items that
    failed, which either are still in the queue (kept for a retry) or were
    removed because the backend rejected them with an error that is not
    network-class, and [skipped] counts the items that the retry policy
    rejected and that are still stored unchanged. *)
Theorem syncPendingReports_classifies_every_item (w : World) :
  storageOk w ->
  NoDup (ids (queueOf (disk w))) ->
  exists vs c w' events,
    syncPendingReports w = (Return c, w') /\
    c = tally vs (mkCounts 0 0 0) /\
    synced c + failed c + skipped c = Z.of_nat (List.length (queueOf (disk w))) /\
    netLog w' = netLog w ++ events /\
    Forall2 (verdictHolds (queueOf (disk w')) events (timesOf w))
      (queueOf (disk w)) vs.
Proof.
  intros Hok Hnd. unfold syncPendingReports, bind.
  rewrite (getSyncQueue_ok _ (proj1 Hok)).
  destruct (syncLoop_verdicts (queueOf (disk w)) (mkCounts 0 0 0) w Hok Hnd)
    as (vs & c & w' & events & Hloop & Hc & Henv & _ & _ & Hvs); [auto|].
  exists vs, c, w', events. split; [exact Hloop|]. split; [exact Hc|].
  split; [|split; [apply Henv|exact Hvs]].
  rewrite Hc, tally_total. cbn. now rewrite (Forall2_length Hvs).
Qed.

Lemma syncPendingReports_classifies_witness :
  exists vs c w' events,
    syncPendingReports rejectingWorld = (Return c, w') /\
    c = tally vs (mkCounts 0 0 0) /\
    synced c + failed c + skipped c = 1 /\
    netLog w' = events /\
    Forall2 (verdictHolds (queueOf (disk w')) events [5000]) [Sample.fresh] vs.
Proof.
  apply (syncPendingReports_classifies_every_item rejectingWorld).
  - split; reflexivity.
  - cbn. repeat constructor. intros [].
Defined.

(** C7 fails as stated: the backend rejects the only item with a 400; the
    pass counts it as failed and the item is no longer in the queue. *)
Lemma failed_item_can_be_dropped :
  isNetworkError Sample.badRequest = false /\
  fst (syncPendingReports rejectingWorld) = Return (mkCounts 0 1 0) /\
  disk (snd (syncPendingReports rejectingWorld)) = Some [].
Proof. repeat split. Qed.

(** ** Retry counts along the core operations, storage failures included *)

Lemma descends_refl q : descends q q.
Proof. intros s Hs. exists s. repeat split; auto. lia. Qed.

Lemma descends_trans q q1 q2 : descends q q1 -> descends q1 q2 -> descends q q2.
Proof.
  intros H1 H2 s2 Hs2. destruct (H2 s2 Hs2) as (s1 & Hs1 & Hid1 & Hrc1).
  destruct (H1 s1 Hs1) as (s & Hs & Hid & Hrc).
  exists s. repeat split; auto; [congruence|lia].
Qed.

Lemma descends_incl q q' : incl q' q -> descends q q'.
Proof. intros Hincl s Hs. exists s. repeat split; auto. lia. Qed.

Lemma attemptOn_incl item q q1 q' :
  incl q1 q -> attemptOn item q1 q' -> attemptOn item q q'.
Proof.
  intros Hincl Hatt s' Hs'. destruct (Hatt s' Hs') as [Hin | (old & Hold & Hrest)].
  - left. now apply Hincl.
  - right. exists old. split; [now apply Hincl|exact Hrest].
Qed.

Lemma attemptOn_same item q q' : incl q' q -> attemptOn item q q'.
Proof. intros Hincl s' Hs'. left. now apply Hincl. Qed.

Lemma isOnline_disk w :
  exists b w', isOnline w = (Return b, w') /\ disk w' = disk w.
Proof.
  unfold isOnline. destruct (netinfo w) as [|c rest]; do 2 eexists;
    (split; [reflexivity|]); reflexivity.
Qed.

Lemma createReport_disk data w :
  exists o w', createReport data w = (o, w') /\ disk w' = disk w.
Proof.
  unfold createReport. destruct (backend w) as [|[e|rid] rest]; do 2 eexists;
    (split; [reflexivity|]); reflexivity.
Qed.

(** The [try] block of [syncSingleReport] can only remove items. *)
Lemma submitReport_shrinks item w :
  exists o w',
    submitReport item w = (o, w') /\
    incl (queueOf (disk w')) (queueOf (disk w)).
Proof.
  unfold submitReport, bind at 1.
  destruct (isOnline_disk w) as (online & w0 & -> & Hd0).
  destruct online; cbn [negb].
  - unfold bind at 1. rewrite shouldRetry_eq.
    destruct (eligibleAt (clock w0) item); cbn [negb].
    + unfold bind at 1.
      destruct (createReport_disk (reportData item) (afterPolicy item w0))
        as ([rid|e] & w1 & -> & Hd1).
      * unfold bind at 1.
        destruct (uploads_loop rid (photos item) w1) as (w2 & evs & -> & Hd2 & _).
        unfold bind.
        destruct (removeFromSyncQueue_elems (id item) w2) as (o & w3 & -> & Hsub & _).
        assert (Hincl : incl (queueOf (disk w3)) (queueOf (disk w))).
        { intros s Hs. apply Hsub in Hs. revert Hs. rewrite Hd2, Hd1. world.
          now rewrite Hd0. }
        destruct o; do 2 eexists; (split; [reflexivity|exact Hincl]).
      * do 2 eexists. split; [reflexivity|]. rewrite Hd1. world. rewrite Hd0.
        apply incl_refl.
    + do 2 eexists. split; [reflexivity|]. world. rewrite Hd0. apply incl_refl.
  - do 2 eexists. split; [reflexivity|]. rewrite Hd0. apply incl_refl.
Qed.

(** The [catch] block rewrites the retry count of the item, or removes it. *)
Lemma onSubmitError_attempt item e w :
  exists o w',
    onSubmitError item e w = (o, w') /\
    attemptOn item (queueOf (disk w)) (queueOf (disk w')).
Proof.
  unfold onSubmitError. destruct (isNetworkError e).
  - unfold bind at 1. rewrite Date_now_eq. unfold bind.
    destruct (updateSyncQueueItem_elems (id item)
                (mkUpdates None None None (Some (retryCount item + 1)) None
                   (Some (Some (clock w)))
                   (Some (Some (Js.orElse (Js.message e) "Network error"))))
                (tickClock w)) as (o & w' & -> & Helems).
    revert Helems. world. intros Helems.
    assert (Hatt : attemptOn item (queueOf (disk w)) (queueOf (disk w'))).
    { intros s' Hs'. destruct (Helems s' Hs') as [Hin | (old & Hold & Hid & ->)].
      - now left.
      - right. exists old. repeat split; auto. }
    destruct o; do 2 eexists; (split; [reflexivity|exact Hatt]).
  - unfold bind.
    destruct (removeFromSyncQueue_elems (id item) w) as (o & w' & -> & Hsub & _).
    assert (Hatt : attemptOn item (queueOf (disk w)) (queueOf (disk w')))
      by (apply attemptOn_same; exact Hsub).
    destruct o; do 2 eexists; (split; [reflexivity|exact Hatt]).
Qed.

Lemma syncSingleReport_attempt item w :
  exists o w',
    syncSingleReport item w = (o, w') /\
    attemptOn item (queueOf (disk w)) (queueOf (disk w')).
Proof.
  unfold syncSingleReport, tryCatch.
  destruct (submitReport_shrinks item w) as ([r|e] & w1 & -> & Hincl).
  - do 2 eexists. split; [reflexivity|]. now apply attemptOn_same.
  - destruct (onSubmitError_attempt item e w1) as (o & w' & -> & Hatt).
    do 2 eexists. split; [reflexivity|]. eapply attemptOn_incl; eauto.
Qed.

Lemma syncStep_attempt item c w :
  exists o w',
    syncStep item c w = (o, w') /\
    attemptOn item (queueOf (disk w)) (queueOf (disk w')).
Proof.
  unfold syncStep, bind at 1. rewrite shouldRetry_eq.
  destruct (eligibleAt (clock w) item); cbn [negb].
  - unfold bind.
    destruct (syncSingleReport_attempt item (afterPolicy item w))
      as (o & w' & -> & Hatt).
    revert Hatt. world. intros Hatt.
    destruct o as [r|e]; [destruct (success r)|]; do 2 eexists;
      (split; [reflexivity|exact Hatt]).
  - do 2 eexists. split; [reflexivity|]. world. apply attemptOn_same, incl_refl.
Qed.

(** The loop of a pass over a snapshot with distinct ids, none of whose
    items has a smaller retry count than a stored item with its id. *)
Lemma syncLoop_descends (todo : list SyncQueueItem) :
  forall (c : Counts) (w : World),
    NoDup (ids todo) ->
    (forall item s, In item todo -> In s (queueOf (disk w)) -> id s = id item ->
                    retryCount s <= retryCount item) ->
    exists o w',
      syncLoop todo c w = (o, w') /\
      descends (queueOf (disk w)) (queueOf (disk w')).
Proof.
  induction todo as [|item todo IH]; intros c w Hnd Hinv.
  - do 2 eexists. split; [reflexivity|apply descends_refl].
  - cbn [ids map] in Hnd. inversion Hnd as [|? ? Hfresh Hnd']; subst.
    cbn [syncLoop]. unfold bind.
    destruct (syncStep_attempt item c w) as (o & w1 & -> & Hatt).
    assert (Hdesc1 : descends (queueOf (disk w)) (queueOf (disk w1))).
    { intros s' Hs'. destruct (Hatt s' Hs') as [Hin | (old & Hold & Hid & Hid' & Hrc)].
      - exists s'. repeat split; auto. lia.
      - exists old. repeat split; auto; [congruence|].
        rewrite Hrc. specialize (Hinv item old (or_introl eq_refl) Hold Hid). lia. }
    destruct o as [c1|e].
    + destruct (IH c1 w1 Hnd') as (o & w' & -> & Hdesc2).
      { intros it s Hit Hs Hid.
        destruct (Hatt s Hs) as [Hin | (old & _ & _ & Hid' & _)].
        - apply (Hinv it s); auto. now right.
        - exfalso. apply Hfresh. rewrite <- Hid', Hid. now apply in_map. }
      do 2 eexists. split; [reflexivity|]. eapply descends_trans; eauto.
    + do 2 eexists. split; [reflexivity|exact Hdesc1].
Qed.

Lemma syncPendingReports_descends w :
  NoDup (ids (queueOf (disk w))) ->
  descends (queueOf (disk w)) (queueOf (disk (snd (syncPendingReports w)))).
Proof.
  intros Hnd. unfold syncPendingReports, bind.
  destruct (getSyncQueue_cases w) as [-> | [_ ->]].
  - destruct (syncLoop_descends (queueOf (disk w)) (mkCounts 0 0 0) (popRead w))
      as (o & w' & -> & Hdesc).
    + exact Hnd.
    + world. intros it s Hit Hs Hid.
      assert (s = it) by (eapply NoDup_ids_inj; eauto). subst. lia.
    + revert Hdesc. world. auto.
  - cbn. world. apply descends_refl.
Qed.

Lemma forOf_remove_shrinks (victims : list SyncQueueItem) :
  forall w, exists o w',
    forOf victims (fun item => removeFromSyncQueue (id item)) w = (o, w') /\
    incl (queueOf (disk w')) (queueOf (disk w)).
Proof.
  induction victims as [|v victims IH]; intros w.
  - do 2 eexists. split; [reflexivity|apply incl_refl].
  - cbn [forOf]. unfold bind.
    destruct (removeFromSyncQueue_elems (id v) w) as ([[]|e] & w1 & -> & Hsub & _).
    + destruct (IH w1) as (o & w' & -> & Hincl).
      do 2 eexists. split; [reflexivity|]. intros s Hs. auto.
    + do 2 eexists. split; [reflexivity|exact Hsub].
Qed.

Lemma cleanSyncQueue_shrinks lat lng title0 description0 type0 w :
  incl (queueOf (disk (snd (cleanSyncQueue lat lng title0 description0 type0 w))))
       (queueOf (disk w)).
Proof.
  unfold cleanSyncQueue, tryCatch, bind.
  destruct (getSyncQueue_cases w) as [-> | [_ ->]].
  - destruct (forOf_remove_shrinks
                (filter (isDuplicate lat lng title0 description0 type0)
                   (queueOf (disk w))) (popRead w)) as ([[]|e] & w' & -> & Hincl);
      revert Hincl; world; auto.
  - cbn. world. apply incl_refl.
Qed.

Lemma addToSyncQueue_elems data photoUris w :
  forall s', In s' (queueOf (disk (snd (addToSyncQueue data photoUris w)))) ->
    In s' (queueOf (disk w)) \/
    id s' = nextId w /\ retryCount s' = 0 /\ lastAttempt s' = None /\
    reportData s' = data.
Proof.
  unfold addToSyncQueue, getSyncQueue, tryCatch, bind, AsyncStorage_getItem,
    Date_now, tickClock, randomSuffix, AsyncStorage_setItem, ret, throw, nextId.
  destruct (readFaults w) as [|[?|] ?] eqn:Hr; cbn;
    destruct (clockLater w) as [|? [|? ?]] eqn:Hc; cbn; rewrite ?Hc; cbn;
    destruct (randoms w) eqn:Hrand; cbn; rewrite ?Hc; cbn;
    destruct (writeFaults w) as [|[?|] ?] eqn:Hw; cbn;
    intros s' Hs'; auto;
    try (apply in_app_or in Hs' as [Hs' | [<- | []]]; [now left|right; now cbn]);
    try (destruct Hs' as [<- | []]; right; now cbn).
Qed.

Lemma descends_monotone q q' :
  NoDup (ids q) -> descends q q' ->
  (forall s s', In s q -> In s' q' -> id s = id s' ->
                retryCount s <= retryCount s') /\
  (forall s', In s' q' -> In (id s') (ids q)).
Proof.
  intros Hnd Hdesc. split.
  - intros s s' Hs Hs' Hid. destruct (Hdesc s' Hs') as (s0 & Hs0 & Hid0 & Hrc).
    assert (s0 = s) by (eapply NoDup_ids_inj; eauto; congruence).
    now subst.
  - intros s' Hs'. destruct (Hdesc s' Hs') as (s0 & Hs0 & Hid0 & _).
    rewrite <- Hid0. now apply in_map.
Qed.

(** C9: take a stored queue with distinct ids and any core operation,
    enqueue (with an id not yet in the queue), sync pass, removal or duplicate
    clean-up, run to its end, normal or not, storage failures included.  An
    item that is in the queue before and after (same id) has a retry count
    that did not decrease, and an item that is new in the queue was created
    by the enqueue with retry count 0. *)
Theorem retryCount_never_decreases (op : CoreOp) (w : World) :
  NoDup (ids (queueOf (disk w))) ->
  (isEnqueue op = true -> ~ In (nextId w) (ids (queueOf (disk w)))) ->
  (forall s s',
      In s (queueOf (disk w)) -> In s' (queueOf (disk (runOp op w))) ->
      id s = id s' -> retryCount s <= retryCount s') /\
  (forall s',
      In s' (queueOf (disk (runOp op w))) ->
      ~ In (id s') (ids (queueOf (disk w))) ->
      isEnqueue op = true /\ retryCount s' = 0).
Proof.
  intros Hnd Hfresh.
  assert (Hshrink : forall q', descends (queueOf (disk w)) q' ->
            (forall s s', In s (queueOf (disk w)) -> In s' q' -> id s = id s' ->
                          retryCount s <= retryCount s') /\
            (forall s', In s' q' -> ~ In (id s') (ids (queueOf (disk w))) ->
                        isEnqueue op = true /\ retryCount s' = 0)).
  { intros q' Hdesc. destruct (descends_monotone _ _ Hnd Hdesc) as [Hmono Hold].
    split; [exact Hmono|]. intros s' Hs' Hnew. elim Hnew. now apply Hold. }
  destruct op as [data photoUris| |target|lat lng title0 description0 type0];
    cbn [runOp].
  - specialize (Hfresh eq_refl).
    pose proof (addToSyncQueue_elems data photoUris w) as Helems. split.
    + intros s s' Hs Hs' Hid. destruct (Helems s' Hs') as [Hin | (Hnew & _)].
      * assert (s' = s) by (eapply NoDup_ids_inj; eauto). subst. lia.
      * exfalso. apply Hfresh. rewrite <- Hnew, <- Hid. now apply in_map.
    + intros s' Hs' Hnew. destruct (Helems s' Hs') as [Hin | (_ & Hrc & _)].
      * elim Hnew. now apply in_map.
      * now split.
  - apply Hshrink. now apply syncPendingReports_descends.
  - apply Hshrink, descends_incl.
    destruct (removeFromSyncQueue_elems target w) as (o & w' & -> & Hsub & _).
    exact Hsub.
  - apply Hshrink, descends_incl, cleanSyncQueue_shrinks.
Qed.

Lemma retryCount_never_decreases_witness :
  NoDup (ids [Sample.fresh; Sample.retried]) /\
  ~ In (nextId (Sample.quiet [Sample.fresh; Sample.retried] 5000))
       (ids [Sample.fresh; Sample.retried]) /\
  (forall s s',
      In s [Sample.fresh; Sample.retried] ->
      In s' (queueOf (disk (runOp (Enqueue Sample.pothole [])
                              (Sample.quiet [Sample.fresh; Sample.retried] 5000)))) ->
      id s = id s' -> retryCount s <= retryCount s').
Proof.
  assert (Hnd : NoDup (ids [Sample.fresh; Sample.retried]))
    by (cbn; repeat constructor; cbn; intuition discriminate).
  assert (Hfresh : ~ In (nextId (Sample.quiet [Sample.fresh; Sample.retried] 5000))
                        (ids [Sample.fresh; Sample.retried]))
    by (cbn; intuition discriminate).
  split; [exact Hnd|]. split; [exact Hfresh|].
  apply (retryCount_never_decreases (Enqueue Sample.pothole [])
           (Sample.quiet [Sample.fresh; Sample.retried] 5000) Hnd (fun _ => Hfresh)).
Defined.

(** ** Single flight *)

(** C5: [syncNow] is called twice in a row through the callbacks of one
    render, while the device is connected and no pass is running.  Each call
    finds the [isSyncing] it captured false and starts a pass: two passes
    have been started and are in flight together, and when the first of them
    settles, the [isSyncing] cell is false while the other is still
    running. *)
Lemma syncNow_twice_starts_two_passes :
  OfflineSync.passesStarted
    (OfflineSync.syncNow OfflineSync.connectedIdle
       (OfflineSync.syncNow OfflineSync.connectedIdle OfflineSync.idle)) = 2%nat /\
  OfflineSync.passesInFlight
    (OfflineSync.syncNow OfflineSync.connectedIdle
       (OfflineSync.syncNow OfflineSync.connectedIdle OfflineSync.idle)) = 2%nat /\
  OfflineSync.isSyncingCell
    (OfflineSync.passSettled true 5000 0
       (OfflineSync.syncNow OfflineSync.connectedIdle
          (OfflineSync.syncNow OfflineSync.connectedIdle OfflineSync.idle))) = false /\
  OfflineSync.passesInFlight
    (OfflineSync.passSettled true 5000 0
       (OfflineSync.syncNow OfflineSync.connectedIdle
          (OfflineSync.syncNow OfflineSync.connectedIdle OfflineSync.idle))) = 1%nat.
Proof. repeat split. Qed.

(** The state cells belong to one use of the hook: the two components that
    use it (the status indicator and the offline banner) each start a pass
    when the device reconnects. *)
Lemma two_hook_instances_sync_together :
  (OfflineSync.passesInFlight
     (OfflineSync.onConnectivityChange OfflineSync.connectedIdle OfflineSync.idle) +
   OfflineSync.passesInFlight
     (OfflineSync.onConnectivityChange OfflineSync.connectedIdle OfflineSync.idle))%nat
  = 2%nat.
Proof. reflexivity. Qed.

(** Once the component has rendered with the new state, a further call is
    dropped. *)
Lemma syncNow_after_render_is_dropped (connected : option bool) (h : OfflineSync.Hook) :
  OfflineSync.isSyncingCell h = true ->
  OfflineSync.syncNow (OfflineSync.render connected h) h = h.
Proof.
  intros H. unfold OfflineSync.syncNow, OfflineSync.render. cbn. now rewrite H.
Qed.

(** * Further properties of the code *)

(** ** Backoff *)

(** X1: for a retry count [k >= 0] the delay is one minute doubled [k] times,
    capped at three doublings (eight minutes). *)
Theorem getRetryDelay_doubles_then_caps (k : Z) :
  0 <= k -> getRetryDelay k = Some (60000 * 2 ^ Z.min k 3).
Proof.
  intros Hk. unfold getRetryDelay, delayAt. cbn [List.length RETRY_DELAYS].
  destruct (k >=? Z.of_nat 4) eqn:E; zbool.
  - replace (Z.min k 3) with 3 by lia. reflexivity.
  - assert (k = 0 \/ k = 1 \/ k = 2 \/ k = 3) as Hc by lia.
    destruct Hc as [->|[->|[->| ->]]]; reflexivity.
Qed.

Lemma getRetryDelay_doubles_then_caps_witness :
  0 <= 7 /\ getRetryDelay 7 = Some 480000.
Proof.
  split; [lia|]. exact (getRetryDelay_doubles_then_caps 7 ltac:(lia)).
Defined.

(** X2: eligibility only grows with time: an item that [shouldRetry] accepts
    at one clock reading is accepted at every later reading. *)
Theorem shouldRetry_stays_eligible (item : SyncQueueItem) (w w' : World) :
  fst (shouldRetry item w) = Return true ->
  clock w <= clock w' ->
  fst (shouldRetry item w') = Return true.
Proof.
  rewrite !shouldRetry_eq. cbn [fst]. intros H Hle. injection H as H. f_equal.
  unfold eligibleAt in *.
  destruct (retryCount item >=? MAX_RETRIES); cbn [negb andb] in *; [discriminate|].
  destruct (lastAttempt item) as [t|]; [|reflexivity].
  destruct (t =? 0); cbn [orb] in *; [reflexivity|].
  destruct (getRetryDelay (retryCount item)) as [d|]; cbn [geDelay] in *;
    [|discriminate].
  rewrite Z.geb_leb in *. apply Z.leb_le in H. apply Z.leb_le. lia.
Qed.

Lemma shouldRetry_stays_eligible_witness :
  fst (shouldRetry Sample.retried (Sample.quiet [] 220000)) = Return true /\
  220000 <= 900000 /\
  fst (shouldRetry Sample.retried (Sample.quiet [] 900000)) = Return true.
Proof.
  split; [reflexivity|]. split; [lia|].
  apply (shouldRetry_stays_eligible Sample.retried
           (Sample.quiet [] 220000) (Sample.quiet [] 900000)).
  - reflexivity.
  - cbn. lia.
Defined.

(** ** The queue store *)

Lemma writeWorks_setItem q w :
  writeWorks w ->
  exists w', AsyncStorage_setItem q w = (Return tt, w') /\ disk w' = Some q /\
             readFaults w' = readFaults w.
Proof.
  unfold writeWorks, AsyncStorage_setItem.
  destruct (writeFaults w) as [|[m|] rest]; intros H; try contradiction;
    eexists; (split; [reflexivity|]); split; reflexivity.
Qed.

Lemma addToSyncQueue_ok data photoUris w :
  storageOk w ->
  addToSyncQueue data photoUris w =
    (Return (nextId w),
     setDisk (Some (queueOf (disk w) ++ [newItem data photoUris w]))
       (match randoms w with
        | [] => tickClock (tickClock w)
        | _ :: rest => tickClock (setRandoms rest (tickClock w))
        end)).
Proof.
  intros [Hr Hw].
  unfold addToSyncQueue, tryCatch, bind. rewrite (getSyncQueue_ok _ Hr).
  rewrite Date_now_eq. unfold randomSuffix, newItem, nextId.
  replace (randoms (tickClock w)) with (randoms w) by now world.
  destruct (randoms w) as [|r rest]; rewrite Date_now_eq.
  - rewrite setItem_ok by (now world). unfold ret. cbn [hd]. reflexivity.
  - rewrite setItem_ok by (now world). unfold ret. cbn [hd]. reflexivity.
Qed.

(** X3: when the storage works, [addToSyncQueue] returns the id of a new item
    that it appends to the stored queue, leaving the other items in place;
    the item carries the data and photos given, retry count 0 and no last
    attempt or error, and the next [getSyncQueue] returns the extended
    queue. *)
Theorem addToSyncQueue_appends (data : ReportData) (photoUris : list string) (w : World) :
  storageOk w ->
  exists newId created w',
    addToSyncQueue data photoUris w = (Return newId, w') /\
    disk w' =
      Some (queueOf (disk w) ++ [mkItem newId data photoUris 0 created None None]) /\
    fst (getSyncQueue w') =
      Return (queueOf (disk w) ++ [mkItem newId data photoUris 0 created None None]).
Proof.
  intros Hok. rewrite (addToSyncQueue_ok data photoUris w Hok).
  do 3 eexists. split; [reflexivity|]. split; [reflexivity|].
  rewrite getSyncQueue_ok; [reflexivity|].
  destruct Hok as [Hr _]. destruct (randoms w); now world.
Qed.

Lemma addToSyncQueue_appends_witness :
  exists newId created w',
    addToSyncQueue Sample.streetlight [] (Sample.quiet [Sample.fresh] 7000) =
      (Return newId, w') /\
    disk w' =
      Some ([Sample.fresh] ++ [mkItem newId Sample.streetlight [] 0 created None None]) /\
    fst (getSyncQueue w') =
      Return ([Sample.fresh] ++ [mkItem newId Sample.streetlight [] 0 created None None]).
Proof.
  apply (addToSyncQueue_appends Sample.streetlight [] (Sample.quiet [Sample.fresh] 7000)).
  split; reflexivity.
Defined.

(** X4: when the read of the queue fails and the write works,
    [addToSyncQueue] returns an id as usual, and the stored queue then
    holds the new item alone: the items stored before are lost. *)
Theorem addToSyncQueue_after_failed_read_drops_the_queue
    (data : ReportData) (photoUris : list string) (w : World)
    (m : string) (rest : list (option string)) :
  readFaults w = Some m :: rest ->
  writeWorks w ->
  exists w',
    addToSyncQueue data photoUris w = (Return (nextId w), w') /\
    disk w' = Some [newItem data photoUris w].
Proof.
  intros Hr Hw. revert Hw.
  unfold writeWorks, addToSyncQueue, getSyncQueue, tryCatch, bind,
    AsyncStorage_getItem, Date_now, tickClock, randomSuffix, AsyncStorage_setItem,
    ret, throw, nextId, newItem, tickClock.
  rewrite Hr; cbn;
    destruct (clockLater w) as [|? [|? ?]] eqn:Hc; cbn; rewrite ?Hc; cbn;
    destruct (randoms w) eqn:Hrand; cbn; rewrite ?Hc; cbn;
    destruct (writeFaults w) as [|[?|] ?] eqn:Hw; cbn;
    intros Hworks; try contradiction;
    eexists; split; reflexivity.
Qed.

Lemma addToSyncQueue_after_failed_read_witness :
  exists w',
    addToSyncQueue Sample.streetlight []
      (Sample.unreadable [Sample.fresh; Sample.retried] 7000) =
      (Return "sync_7000_", w') /\
    disk w' = Some [mkItem "sync_7000_" Sample.streetlight [] 0 7000 None None].
Proof.
  apply (addToSyncQueue_after_failed_read_drops_the_queue Sample.streetlight []
           (Sample.unreadable [Sample.fresh; Sample.retried] 7000)
           "storage is unavailable" []).
  - reflexivity.
  - exact I.
Defined.

Lemma without_absent target q :
  ~ In target (ids q) -> without target q = q.
Proof.
  intros Habs. unfold without. apply forallb_filter_id. apply forallb_forall.
  intros s Hs. apply negb_true_iff, String.eqb_neq. intros Heq.
  apply Habs. rewrite <- Heq. now apply in_map.
Qed.

Lemma without_app target q1 q2 :
  without target (q1 ++ q2) = without target q1 ++ without target q2.
Proof. unfold without. apply filter_app. Qed.

Lemma storageOk_after_add data photoUris w :
  storageOk w -> storageOk (snd (addToSyncQueue data photoUris w)).
Proof.
  intros Hok. rewrite (addToSyncQueue_ok data photoUris w Hok). cbn [snd].
  destruct Hok as [Hr Hw]. destruct (randoms w); split; now world.
Qed.

(** X5: when the storage works and the id given to the new item is not
    already used, enqueueing a report and then removing the returned id
    leaves the stored queue as it was before the two calls. *)
Theorem add_then_remove_restores_queue
    (data : ReportData) (photoUris : list string) (w : World) :
  storageOk w ->
  ~ In (nextId w) (ids (queueOf (disk w))) ->
  exists newId w1 w2,
    addToSyncQueue data photoUris w = (Return newId, w1) /\
    removeFromSyncQueue newId w1 = (Return tt, w2) /\
    disk w2 = Some (queueOf (disk w)).
Proof.
  intros Hok Hfresh.
  pose proof (storageOk_after_add data photoUris w Hok) as Hok1.
  revert Hok1. rewrite (addToSyncQueue_ok data photoUris w Hok). cbn [snd].
  intros Hok1. do 3 eexists. split; [reflexivity|].
  rewrite (removeFromSyncQueue_ok _ _ Hok1). split; [reflexivity|].
  cbn [disk setDisk queueOf]. rewrite without_app, (without_absent _ _ Hfresh).
  unfold without, newItem. cbn. rewrite String.eqb_refl. cbn.
  now rewrite app_nil_r.
Qed.

Lemma add_then_remove_restores_queue_witness :
  exists newId w1 w2,
    addToSyncQueue Sample.streetlight [] (Sample.quiet [Sample.fresh] 7000) =
      (Return newId, w1) /\
    removeFromSyncQueue newId w1 = (Return tt, w2) /\
    disk w2 = Some [Sample.fresh].
Proof.
  apply (add_then_remove_restores_queue Sample.streetlight []
           (Sample.quiet [Sample.fresh] 7000)).
  - split; reflexivity.
  - cbn. intros [H | []]. discriminate H.
Defined.

Lemma without_without a b q :
  without a (without b q) = without b (without a q).
Proof.
  unfold without. rewrite !filter_filter. apply filter_ext. intros s.
  apply andb_comm.
Qed.

Lemma without_twice a q : without a (without a q) = without a q.
Proof.
  unfold without. rewrite filter_filter. apply filter_ext. intros s.
  apply andb_diag.
Qed.

(** X6: when the storage works, removing an id twice stores the same queue
    as removing it once, and removals of two ids store the same queue in
    either order. *)
Theorem removeFromSyncQueue_idempotent_and_commutes (a b : string) (w : World) :
  storageOk w ->
  disk (snd (removeFromSyncQueue a (snd (removeFromSyncQueue a w)))) =
    disk (snd (removeFromSyncQueue a w)) /\
  disk (snd (removeFromSyncQueue a (snd (removeFromSyncQueue b w)))) =
    disk (snd (removeFromSyncQueue b (snd (removeFromSyncQueue a w)))).
Proof.
  intros Hok.
  assert (Hstep : forall t, snd (removeFromSyncQueue t w) =
                      setDisk (Some (without t (queueOf (disk w)))) w)
    by (intros t; now rewrite (removeFromSyncQueue_ok _ _ Hok)).
  assert (Hok' : forall d, storageOk (setDisk d w))
    by (intros d; now apply storageOk_setDisk).
  rewrite !Hstep, !(removeFromSyncQueue_ok _ _ (Hok' _)).
  cbn [snd disk setDisk queueOf].
  now rewrite without_twice, (without_without a b).
Qed.

Lemma removeFromSyncQueue_idempotent_and_commutes_witness :
  disk (snd (removeFromSyncQueue "sync_1000_a"
               (snd (removeFromSyncQueue "sync_2000_b"
                       (Sample.quiet [Sample.fresh; Sample.retried] 7000))))) =
  disk (snd (removeFromSyncQueue "sync_2000_b"
               (snd (removeFromSyncQueue "sync_1000_a"
                       (Sample.quiet [Sample.fresh; Sample.retried] 7000))))).
Proof.
  apply (removeFromSyncQueue_idempotent_and_commutes "sync_1000_a" "sync_2000_b"
           (Sample.quiet [Sample.fresh; Sample.retried] 7000)).
  split; reflexivity.
Defined.

(** X7: an update that carries no [id] key never changes which ids are
    stored, nor their order, whatever the storage does: the list of ids is
    the same after [updateSyncQueueItem] as before. *)
Theorem updateSyncQueueItem_keeps_ids (target : string) (updates : Updates) (w : World) :
  u_id updates = None ->
  ids (queueOf (disk (snd (updateSyncQueueItem target updates w)))) =
  ids (queueOf (disk w)).
Proof.
  intros Hid. unfold updateSyncQueueItem, tryCatch, bind.
  destruct (getSyncQueue_cases w) as [-> | [_ ->]].
  - destruct (findIndex_nonneg_or_minus1 (fun item => (id item =? target)%string)
                (queueOf (disk w))) as [-> | Hfound].
    + cbn. now world.
    + destruct (findIndex_found _ _ Hfound) as (before & x & after & Hq & _ & _ & Hi).
      rewrite Hi, Hq.
      destruct (0 <=? Z.of_nat (List.length before)) eqn:E; zbool; [|lia].
      rewrite Nat2Z.id, nth_error_middle, setAt_middle.
      destruct (setItem_cases (before ++ spread x updates :: after) (popRead w))
        as [(m & rest & _ & ->) | (w' & -> & Hw')].
      * unfold throw. cbn [snd]. rewrite popWrite_frame. world. now rewrite Hq.
      * cbn [snd]. rewrite Hw'. cbn [queueOf]. unfold ids.
        rewrite !map_app. cbn [map]. unfold spread at 1. cbn [id].
        now rewrite Hid.
  - cbn. now world.
Qed.

Lemma updateSyncQueueItem_keeps_ids_witness :
  ids (queueOf (disk (snd (updateSyncQueueItem "sync_1000_a"
                             (mkUpdates None None None (Some 3) None None None)
                             (Sample.quiet [Sample.fresh; Sample.retried] 7000))))) =
  ["sync_1000_a"; "sync_2000_b"].
Proof.
  exact (updateSyncQueueItem_keeps_ids "sync_1000_a"
           (mkUpdates None None None (Some 3) None None None)
           (Sample.quiet [Sample.fresh; Sample.retried] 7000) eq_refl).
Defined.

(** X8: [clearSyncQueue] never raises.  When the removal works the key is
    unset and the next [getSyncQueue] answers the empty array; when the
    removal fails the stored queue is as before and the caller gets the same
    normal return. *)
Theorem clearSyncQueue_is_silent (w : World) :
  exists w',
    clearSyncQueue w = (Return tt, w') /\
    (writeWorks w -> disk w' = None /\ fst (getSyncQueue w') = Return []) /\
    (~ writeWorks w -> disk w' = disk w).
Proof.
  unfold clearSyncQueue, tryCatch, AsyncStorage_removeItem, writeWorks, ret.
  destruct (writeFaults w) as [|[m|] rest]; eexists; (split; [reflexivity|]).
  - split; [intros _|intros H; now elim H]. split; [reflexivity|].
    destruct (getSyncQueue_cases (setDisk None w)) as [-> | [_ ->]]; reflexivity.
  - split; [intros []|intros _; reflexivity].
  - split; [intros _|intros H; now elim H]. split; [reflexivity|].
    destruct (getSyncQueue_cases (setDisk None (setWriteFaults rest w)))
      as [-> | [_ ->]]; reflexivity.
Qed.

(** ** What a pass can do to the stored queue *)

Lemma removeFromSyncQueue_passStep target w :
  exists o w',
    removeFromSyncQueue target w = (o, w') /\
    passStep (queueOf (disk w)) (queueOf (disk w')).
Proof.
  unfold removeFromSyncQueue, tryCatch, bind.
  destruct (popRead_frame w) as [Hd _].
  destruct (getSyncQueue_cases w) as [-> | [_ ->]].
  - destruct (setItem_cases (filter (fun item => negb (id item =? target)%string)
                               (queueOf (disk w))) (popRead w))
      as [(m & rest & _ & ->) | (w' & -> & Hw')].
    + do 2 eexists. split; [reflexivity|]. unfold throw; cbn [snd fst].
      rewrite popWrite_frame, Hd. apply ps_keep.
    + do 2 eexists. split; [reflexivity|]. rewrite Hw'. cbn [queueOf].
      apply ps_remove.
  - destruct (setItem_cases (filter (fun item => negb (id item =? target)%string) [])
                (popRead w))
      as [(m & rest & _ & ->) | (w' & -> & Hw')].
    + do 2 eexists. split; [reflexivity|]. unfold throw; cbn [snd fst].
      rewrite popWrite_frame, Hd. apply ps_keep.
    + do 2 eexists. split; [reflexivity|]. rewrite Hw'. cbn. apply ps_wipe.
Qed.

Lemma updateSyncQueueItem_passStep target n t m w :
  n <= MAX_RETRIES ->
  exists o w',
    updateSyncQueueItem target
      (mkUpdates None None None (Some n) None (Some t) (Some m)) w = (o, w') /\
    passStep (queueOf (disk w)) (queueOf (disk w')).
Proof.
  intros Hn. unfold updateSyncQueueItem, tryCatch, bind.
  destruct (popRead_frame w) as [Hd _].
  destruct (getSyncQueue_cases w) as [-> | [_ ->]].
  - destruct (findIndex_nonneg_or_minus1 (fun item => (id item =? target)%string)
                (queueOf (disk w))) as [-> | Hfound].
    + cbn. do 2 eexists. split; [reflexivity|]. rewrite Hd. apply ps_keep.
    + destruct (findIndex_found _ _ Hfound) as (before & x & after & Hq & _ & _ & Hi).
      rewrite Hi, Hq.
      destruct (0 <=? Z.of_nat (List.length before)) eqn:E; zbool; [|lia].
      rewrite Nat2Z.id, nth_error_middle, setAt_middle.
      destruct (setItem_cases
                  (before ++
                   spread x (mkUpdates None None None (Some n) None (Some t) (Some m))
                   :: after) (popRead w))
        as [(e & rest & _ & ->) | (w' & -> & Hw')].
      * do 2 eexists. split; [reflexivity|]. unfold throw; cbn [snd fst].
        rewrite popWrite_frame, Hd, Hq. apply ps_keep.
      * do 2 eexists. split; [reflexivity|]. rewrite Hw'. cbn [queueOf].
        apply (ps_attempt before x after n t m Hn).
  - cbn. do 2 eexists. split; [reflexivity|]. rewrite Hd. apply ps_keep.
Qed.

Lemma eligibleAt_under_limit now item :
  eligibleAt now item = true -> retryCount item < MAX_RETRIES.
Proof.
  unfold eligibleAt. destruct (retryCount item >=? MAX_RETRIES) eqn:E; zbool;
    [discriminate|auto].
Qed.

(** The [try] block throws only for an item under the retry limit. *)
Lemma submitReport_passStep item w :
  exists o w',
    submitReport item w = (o, w') /\
    passStep (queueOf (disk w)) (queueOf (disk w')) /\
    (forall e, o = Throw e -> retryCount item < MAX_RETRIES).
Proof.
  unfold submitReport, bind at 1.
  destruct (isOnline_disk w) as (online & w0 & -> & Hd0).
  destruct online; cbn [negb].
  - unfold bind at 1. rewrite shouldRetry_eq.
    destruct (eligibleAt (clock w0) item) eqn:He; cbn [negb].
    + apply eligibleAt_under_limit in He.
      unfold bind at 1.
      destruct (createReport_disk (reportData item) (afterPolicy item w0))
        as ([rid|e] & w1 & -> & Hd1).
      * unfold bind at 1.
        destruct (uploads_loop rid (photos item) w1) as (w2 & evs & -> & Hd2 & _).
        unfold bind.
        destruct (removeFromSyncQueue_passStep (id item) w2) as (o & w3 & -> & Hstep).
        assert (Hstep' : passStep (queueOf (disk w)) (queueOf (disk w3))).
        { revert Hstep. rewrite Hd2, Hd1. world. now rewrite Hd0. }
        destruct o; do 2 eexists; (split; [reflexivity|]); (split; [exact Hstep'|]);
          intros; assumption.
      * do 2 eexists. split; [reflexivity|]. rewrite Hd1. world. rewrite Hd0.
        split; [apply ps_keep|intros; assumption].
    + do 2 eexists. split; [reflexivity|]. world. rewrite Hd0.
      split; [apply ps_keep|discriminate].
  - do 2 eexists. split; [reflexivity|]. rewrite Hd0.
    split; [apply ps_keep|discriminate].
Qed.

Lemma onSubmitError_passStep item e w :
  retryCount item < MAX_RETRIES ->
  exists o w',
    onSubmitError item e w = (o, w') /\
    passStep (queueOf (disk w)) (queueOf (disk w')).
Proof.
  intros Hlt. unfold onSubmitError. destruct (isNetworkError e).
  - unfold bind at 1. rewrite Date_now_eq. unfold bind.
    destruct (updateSyncQueueItem_passStep (id item) (retryCount item + 1)
                (Some (clock w)) (Some (Js.orElse (Js.message e) "Network error"))
                (tickClock w)) as (o & w' & -> & Hstep); [lia|].
    revert Hstep. world. intros Hstep.
    destruct o; do 2 eexists; (split; [reflexivity|exact Hstep]).
  - unfold bind.
    destruct (removeFromSyncQueue_passStep (id item) w) as (o & w' & -> & Hstep).
    destruct o; do 2 eexists; (split; [reflexivity|exact Hstep]).
Qed.

Lemma syncSingleReport_passStep item w :
  exists o w',
    syncSingleReport item w = (o, w') /\
    passStep (queueOf (disk w)) (queueOf (disk w')).
Proof.
  unfold syncSingleReport, tryCatch.
  destruct (submitReport_passStep item w) as ([r|e] & w1 & -> & Hstep & Hthrow).
  - do 2 eexists. split; [reflexivity|exact Hstep].
  - destruct (onSubmitError_passStep item e w1 (Hthrow e eq_refl))
      as (o & w' & -> & Hstep').
    do 2 eexists. split; [reflexivity|]. eapply ps_trans; eauto.
Qed.

Lemma syncStep_passStep item c w :
  exists o w',
    syncStep item c w = (o, w') /\
    passStep (queueOf (disk w)) (queueOf (disk w')).
Proof.
  unfold syncStep, bind at 1. rewrite shouldRetry_eq.
  destruct (eligibleAt (clock w) item); cbn [negb].
  - unfold bind.
    destruct (syncSingleReport_passStep item (afterPolicy item w))
      as (o & w' & -> & Hstep).
    revert Hstep. world. intros Hstep.
    destruct o as [r|e]; [destruct (success r)|]; do 2 eexists;
      (split; [reflexivity|exact Hstep]).
  - do 2 eexists. split; [reflexivity|]. world. apply ps_keep.
Qed.

Lemma syncLoop_passStep (todo : list SyncQueueItem) :
  forall c w, exists o w',
    syncLoop todo c w = (o, w') /\
    passStep (queueOf (disk w)) (queueOf (disk w')).
Proof.
  induction todo as [|item todo IH]; intros c w.
  - do 2 eexists. split; [reflexivity|apply ps_keep].
  - cbn [syncLoop]. unfold bind.
    destruct (syncStep_passStep item c w) as ([c1|e] & w1 & -> & Hstep).
    + destruct (IH c1 w1) as (o & w' & -> & Hrest).
      do 2 eexists. split; [reflexivity|]. eapply ps_trans; eauto.
    + do 2 eexists. split; [reflexivity|exact Hstep].
Qed.

Lemma syncPendingReports_passStep w :
  passStep (queueOf (disk w)) (queueOf (disk (snd (syncPendingReports w)))).
Proof.
  unfold syncPendingReports, bind.
  destruct (getSyncQueue_cases w) as [-> | [_ ->]].
  - destruct (syncLoop_passStep (queueOf (disk w)) (mkCounts 0 0 0) (popRead w))
      as (o & w' & -> & Hstep).
    revert Hstep. world. auto.
  - cbn. world. apply ps_keep.
Qed.

Lemma in_without target q s : In s (without target q) -> In s q.
Proof. apply without_sub. Qed.

Lemma NoDup_ids_without target q : NoDup (ids q) -> NoDup (ids (without target q)).
Proof.
  induction q as [|x q IH]; cbn; intros Hnd; [constructor|].
  inversion Hnd as [|? ? Hx Hq]; subst.
  destruct (negb (id x =? target)%string); [|now apply IH].
  cbn. constructor; [|now apply IH].
  intros Hin. apply Hx. apply in_map_iff in Hin as (s & Hs & Hin).
  rewrite <- Hs. apply in_map. eapply without_sub; eauto.
Qed.

Lemma passStep_NoDup q q' : passStep q q' -> NoDup (ids q) -> NoDup (ids q').
Proof.
  induction 1; intros Hnd; auto.
  - now apply NoDup_ids_without.
  - constructor.
  - revert Hnd. unfold ids. rewrite !map_app. cbn. auto.
Qed.

Lemma passStep_sameReport q q' :
  passStep q q' ->
  forall s', In s' q' -> exists s, In s q /\ sameReport s s'.
Proof.
  induction 1; intros s' Hs'.
  - exists s'. repeat split; auto.
  - exists s'. split; [eapply without_sub; eauto|repeat split].
  - destruct Hs'.
  - apply in_app_or in Hs' as [Hs' | [<- | Hs']].
    + exists s'. split; [apply in_or_app; now left|repeat split].
    + exists old. split; [apply in_or_app; right; now left|repeat split].
    + exists s'. split; [apply in_or_app; right; now right|repeat split].
  - destruct (IHpassStep2 s' Hs') as (s1 & Hs1 & H1 & H2 & H3 & H4).
    destruct (IHpassStep1 s1 Hs1) as (s & Hs & G1 & G2 & G3 & G4).
    exists s. split; [exact Hs|]. repeat split; congruence.
Qed.

Lemma passStep_bound q q' :
  passStep q q' ->
  Forall (fun s => retryCount s <= MAX_RETRIES) q ->
  Forall (fun s => retryCount s <= MAX_RETRIES) q'.
Proof.
  induction 1; intros Hall; auto.
  - apply Forall_forall. intros s Hs. rewrite Forall_forall in Hall.
    apply Hall. eapply without_sub; eauto.
  - apply Forall_app in Hall as [Hb Ha]. inversion Ha as [|? ? _ Ha']; subst.
    apply Forall_app. split; [exact Hb|]. constructor; [exact H|exact Ha'].
Qed.

Lemma passStep_length q q' :
  passStep q q' -> (List.length q' <= List.length q)%nat.
Proof.
  induction 1; auto.
  - unfold without. apply filter_length_le.
  - cbn. apply Nat.le_0_l.
  - rewrite !length_app. cbn. apply Nat.le_refl.
  - eapply Nat.le_trans; eauto.
Qed.

Lemma forOf_remove_passStep (victims : list SyncQueueItem) :
  forall w, exists o w',
    forOf victims (fun item => removeFromSyncQueue (id item)) w = (o, w') /\
    passStep (queueOf (disk w)) (queueOf (disk w')).
Proof.
  induction victims as [|v victims IH]; intros w.
  - do 2 eexists. split; [reflexivity|apply ps_keep].
  - cbn [forOf]. unfold bind.
    destruct (removeFromSyncQueue_passStep (id v) w) as ([[]|e] & w1 & -> & Hstep).
    + destruct (IH w1) as (o & w' & -> & Hrest).
      do 2 eexists. split; [reflexivity|]. eapply ps_trans; eauto.
    + do 2 eexists. split; [reflexivity|exact Hstep].
Qed.

Lemma cleanSyncQueue_passStep lat lng title0 description0 type0 w :
  passStep (queueOf (disk w))
    (queueOf (disk (snd (cleanSyncQueue lat lng title0 description0 type0 w)))).
Proof.
  unfold cleanSyncQueue, tryCatch, bind.
  destruct (getSyncQueue_cases w) as [-> | [_ ->]].
  - destruct (forOf_remove_passStep
                (filter (isDuplicate lat lng title0 description0 type0)
                   (queueOf (disk w))) (popRead w)) as ([[]|e] & w' & -> & Hstep);
      revert Hstep; world; auto.
  - cbn. world. apply ps_keep.
Qed.

Lemma addToSyncQueue_shapes data photoUris w :
  let q' := queueOf (disk (snd (addToSyncQueue data photoUris w))) in
  q' = queueOf (disk w) \/
  (exists it, id it = nextId w /\ q' = queueOf (disk w) ++ [it]) \/
  (exists it, q' = [it]).
Proof.
  unfold addToSyncQueue, getSyncQueue, tryCatch, bind, AsyncStorage_getItem,
    Date_now, tickClock, randomSuffix, AsyncStorage_setItem, ret, throw, nextId.
  destruct (readFaults w) as [|[?|] ?] eqn:Hr; cbn;
    destruct (clockLater w) as [|? [|? ?]] eqn:Hc; cbn; rewrite ?Hc; cbn;
    destruct (randoms w) eqn:Hrand; cbn; rewrite ?Hc; cbn;
    destruct (writeFaults w) as [|[?|] ?] eqn:Hw; cbn;
    try (now left);
    try (right; left; eexists; split; [|reflexivity]; reflexivity);
    try (right; right; eexists; reflexivity).
Qed.

(** ** Invariants of the queue *)

(** X9: the ids of the stored items stay distinct under every core
    operation, enqueue (with an id not yet in the queue), sync pass, removal
    and duplicate clean-up, whatever the storage, the network and the backend
    do. *)
Theorem ids_stay_distinct (op : CoreOp) (w : World) :
  NoDup (ids (queueOf (disk w))) ->
  (isEnqueue op = true -> ~ In (nextId w) (ids (queueOf (disk w)))) ->
  NoDup (ids (queueOf (disk (runOp op w)))).
Proof.
  intros Hnd Hfresh.
  destruct op as [data photoUris| |target|lat lng title0 description0 type0];
    cbn [runOp].
  - specialize (Hfresh eq_refl).
    destruct (addToSyncQueue_shapes data photoUris w)
      as [-> | [(it & Hid & ->) | (it & ->)]].
    + exact Hnd.
    + unfold ids. rewrite map_app. cbn [map].
      apply NoDup_app; [exact Hnd|repeat constructor; intros []|].
      intros x Hx [<- | []]. apply Hfresh. now rewrite <- Hid.
    + repeat constructor. intros [].
  - exact (passStep_NoDup _ _ (syncPendingReports_passStep w) Hnd).
  - destruct (removeFromSyncQueue_passStep target w) as (o & w' & -> & Hstep).
    exact (passStep_NoDup _ _ Hstep Hnd).
  - exact (passStep_NoDup _ _
             (cleanSyncQueue_passStep lat lng title0 description0 type0 w) Hnd).
Qed.

Lemma ids_stay_distinct_witness :
  NoDup (ids (queueOf (disk (runOp SyncPass flappingWorld)))).
Proof.
  apply (ids_stay_distinct SyncPass flappingWorld).
  - cbn. repeat constructor; cbn; intuition discriminate.
  - discriminate.
Defined.

(** X10: a sync pass never adds an item and never changes what an item
    reports: every item stored after the pass comes from an item stored
    before it with the same id, report data, photos and creation time, and
    the queue is not longer than before.  This holds whatever the storage,
    the network and the backend do, also when the pass ends with an error. *)
Theorem syncPendingReports_keeps_reports (w : World) :
  (forall s', In s' (queueOf (disk (snd (syncPendingReports w)))) ->
     exists s, In s (queueOf (disk w)) /\ sameReport s s') /\
  (List.length (queueOf (disk (snd (syncPendingReports w)))) <=
   List.length (queueOf (disk w)))%nat.
Proof.
  split.
  - apply passStep_sameReport, syncPendingReports_passStep.
  - apply passStep_length, syncPendingReports_passStep.
Qed.

(** X11: a pass never takes a retry count over [MAX_RETRIES]: when no stored
    item is over the limit before the pass, none is after it, whatever the
    storage, the network and the backend do. *)
Theorem syncPendingReports_keeps_retry_limit (w : World) :
  Forall (fun s => retryCount s <= MAX_RETRIES) (queueOf (disk w)) ->
  Forall (fun s => retryCount s <= MAX_RETRIES)
    (queueOf (disk (snd (syncPendingReports w)))).
Proof. apply passStep_bound, syncPendingReports_passStep. Qed.

Lemma syncPendingReports_keeps_retry_limit_witness :
  Forall (fun s => retryCount s <= MAX_RETRIES)
    (queueOf (disk (snd (syncPendingReports flappingWorld)))).
Proof.
  apply (syncPendingReports_keeps_retry_limit flappingWorld).
  cbn. repeat constructor; cbn; unfold MAX_RETRIES; lia.
Defined.

Lemma eligibleAt_exhausted now item :
  MAX_RETRIES <= retryCount item -> eligibleAt now item = false.
Proof.
  intros H. unfold eligibleAt.
  destruct (retryCount item >=? MAX_RETRIES) eqn:E; zbool; [reflexivity|lia].
Qed.

Lemma syncLoop_keeps_exhausted (item : SyncQueueItem) (todo : list SyncQueueItem) :
  MAX_RETRIES <= retryCount item ->
  forall (c : Counts) (w : World),
    storageOk w ->
    NoDup (ids todo) ->
    (forall it, In it todo -> In it (queueOf (disk w))) ->
    In item (queueOf (disk w)) ->
    In item todo \/ ~ In (id item) (ids todo) ->
    exists c' w',
      syncLoop todo c w = (Return c', w') /\ In item (queueOf (disk w')).
Proof.
  intros Hmax. induction todo as [|it todo IH]; intros c w Hok Hnd Hstored Hin Hpos.
  - exists c, w. split; [reflexivity|exact Hin].
  - cbn [ids map] in Hnd. inversion Hnd as [|? ? Hfresh Hnd']; subst.
    cbn [syncLoop]. unfold bind at 1.
    assert (Hcases : it = item \/ id it <> id item).
    { destruct Hpos as [[Heq | Hrest] | Hnot].
      - now left.
      - right. intros Heq. apply Hfresh. rewrite Heq. now apply in_map.
      - right. intros Heq. apply Hnot. left. exact Heq. }
    destruct Hcases as [-> | Hne].
    + rewrite (syncStep_ineligible item c w (eligibleAt_exhausted _ _ Hmax)).
      apply IH.
      * eapply envStep_storageOk; [apply envStep_afterPolicy|exact Hok].
      * exact Hnd'.
      * world. intros it' Hit'. apply Hstored. now right.
      * now world.
      * right. exact Hfresh.
    + destruct (syncStep_verdict it c w Hok (Hstored it (or_introl eq_refl)))
        as (v & w1 & ev & -> & Henv & Hframe & _ & _).
      apply IH.
      * eapply envStep_storageOk; eauto.
      * exact Hnd'.
      * intros it' Hit'. apply Hframe; [apply Hstored; now right|].
        intros Heq. apply Hfresh. rewrite <- Heq. now apply in_map.
      * apply Hframe; [exact Hin|]. congruence.
      * destruct Hpos as [[Heq | Hrest] | Hnot].
        -- subst. now elim Hne.
        -- now left.
        -- right. intros Hi. apply Hnot. now right.
Qed.

(** An item at the retry limit is passed over without a look at the clock:
    the iteration changes nothing but the [skipped] count. *)
Lemma syncStep_exhausted item c w :
  MAX_RETRIES <= retryCount item ->
  syncStep item c w = (Return (bump Skipped c), w).
Proof.
  intros Hmax.
  rewrite (syncStep_ineligible item c w (eligibleAt_exhausted _ _ Hmax)).
  unfold afterPolicy, consultsClock.
  destruct (retryCount item >=? MAX_RETRIES) eqn:E; zbool; [reflexivity|lia].
Qed.

Lemma syncStep_oneMoreSkipped item c w :
  syncStep item (bump Skipped c) w = oneMoreSkipped (syncStep item c w).
Proof.
  unfold syncStep, bind.
  destruct (shouldRetry item w) as [[[|]|e] w1]; cbn; try reflexivity.
  destruct (syncSingleReport item w1) as [[r|e] w2]; cbn; [|reflexivity].
  destruct (success r); reflexivity.
Qed.

Lemma syncLoop_oneMoreSkipped todo :
  forall c w,
    syncLoop todo (bump Skipped c) w = oneMoreSkipped (syncLoop todo c w).
Proof.
  induction todo as [|it todo IH]; intros c w; [reflexivity|].
  cbn [syncLoop]. unfold bind at 1 2. rewrite syncStep_oneMoreSkipped.
  destruct (syncStep it c w) as [[c1|e] w1]; cbn; [apply IH|reflexivity].
Qed.

(** The loop over a queue that holds an item at the retry limit does what
    the loop over the other items does, and counts the item as skipped. *)
Lemma syncLoop_skips_exhausted (item : SyncQueueItem) (todo : list SyncQueueItem) :
  MAX_RETRIES <= retryCount item ->
  NoDup (ids todo) ->
  In item todo ->
  forall c w,
    syncLoop todo c w = oneMoreSkipped (syncLoop (without (id item) todo) c w).
Proof.
  intros Hmax. induction todo as [|it todo IH]; intros Hnd Hin c w; [destruct Hin|].
  cbn [ids map] in Hnd. inversion Hnd as [|? ? Hfresh Hnd']; subst.
  destruct Hin as [-> | Hin].
  - unfold without. cbn [filter]. rewrite String.eqb_refl. cbn [negb].
    fold (without (id item) todo). rewrite (without_absent _ _ Hfresh).
    cbn [syncLoop]. unfold bind at 1. rewrite (syncStep_exhausted _ c w Hmax).
    apply syncLoop_oneMoreSkipped.
  - assert (Hne : (id it =? id item)%string = false).
    { apply String.eqb_neq. intros Heq. apply Hfresh. rewrite Heq.
      now apply in_map. }
    unfold without. cbn [filter]. rewrite Hne. cbn [negb].
    fold (without (id item) todo).
    cbn [syncLoop]. unfold bind at 1 2.
    destruct (syncStep it c w) as [[c1|e] w1]; [|reflexivity].
    now apply IH.
Qed.

(** A queue of items at the retry limit is passed over without a change. *)
Lemma syncLoop_all_exhausted (todo : list SyncQueueItem) :
  Forall (fun s => MAX_RETRIES <= retryCount s) todo ->
  forall c w, snd (syncLoop todo c w) = w.
Proof.
  induction 1 as [|it todo Hmax _ IH]; intros c w; [reflexivity|].
  cbn [syncLoop]. unfold bind. rewrite (syncStep_exhausted _ c w Hmax).
  apply IH.
Qed.

(** X12: when the storage works and the stored ids are distinct, a pass
    neither removes, updates nor submits an item that has reached
    [MAX_RETRIES].  The pass returns, the item is in the stored queue after
    it, and the pass ends in the very state (stored queue, calls received by
    the backend, clock, connectivity and backend answers) in which the loop
    over the other items ends, with one more skipped item in its count: the
    item adds no call to the backend.  When every stored item has reached
    the limit, the pass changes nothing and sends nothing. *)
Theorem exhausted_item_stays_queued (item : SyncQueueItem) (w : World) :
  storageOk w ->
  NoDup (ids (queueOf (disk w))) ->
  In item (queueOf (disk w)) ->
  MAX_RETRIES <= retryCount item ->
  exists c w',
    syncLoop (without (id item) (queueOf (disk w))) (mkCounts 0 0 0) w =
      (Return c, w') /\
    syncPendingReports w =
      (Return (mkCounts (synced c) (failed c) (skipped c + 1)), w') /\
    In item (queueOf (disk w')) /\
    (Forall (fun s => MAX_RETRIES <= retryCount s) (queueOf (disk w)) ->
     w' = w /\ netLog w' = netLog w).
Proof.
  intros Hok Hnd Hin Hmax.
  destruct (syncLoop_keeps_exhausted item (queueOf (disk w)) Hmax
              (mkCounts 0 0 0) w Hok Hnd (fun it H => H) Hin (or_introl Hin))
    as (c1 & w' & Hloop & Hstill).
  pose proof (syncLoop_skips_exhausted item (queueOf (disk w)) Hmax Hnd Hin
                (mkCounts 0 0 0) w) as Hskip.
  rewrite Hloop in Hskip.
  destruct (syncLoop (without (id item) (queueOf (disk w))) (mkCounts 0 0 0) w)
    as [[c|e] w0] eqn:Hothers; cbn in Hskip; [|discriminate].
  injection Hskip as Hc Hw. subst c1 w0.
  exists c, w'. split; [reflexivity|]. split; [|split].
  - unfold syncPendingReports, bind. rewrite (getSyncQueue_ok _ (proj1 Hok)).
    exact Hloop.
  - exact Hstill.
  - intros Hall.
    pose proof (syncLoop_all_exhausted (queueOf (disk w)) Hall (mkCounts 0 0 0) w)
      as Hsame.
    rewrite Hloop in Hsame. cbn in Hsame. subst w'. split; reflexivity.
Qed.

Lemma exhausted_item_stays_queued_witness :
  exists c w',
    syncLoop [Sample.retried] (mkCounts 0 0 0)
      (mkWorld (Some [Sample.exhausted; Sample.retried]) 500000 [] [] []
         [Some true] [inr "report-1"] [] [] []) = (Return c, w') /\
    syncPendingReports
      (mkWorld (Some [Sample.exhausted; Sample.retried]) 500000 [] [] []
         [Some true] [inr "report-1"] [] [] []) =
      (Return (mkCounts (synced c) (failed c) (skipped c + 1)), w') /\
    In Sample.exhausted (queueOf (disk w')).
Proof.
  assert (Hok : storageOk
                  (mkWorld (Some [Sample.exhausted; Sample.retried]) 500000 [] [] []
                     [Some true] [inr "report-1"] [] [] []))
    by (split; reflexivity).
  assert (Hnd : NoDup (ids [Sample.exhausted; Sample.retried]))
    by (cbn; repeat constructor; cbn; intuition discriminate).
  assert (Hmax : MAX_RETRIES <= retryCount Sample.exhausted)
    by (cbn; unfold MAX_RETRIES; lia).
  destruct (exhausted_item_stays_queued Sample.exhausted
              (mkWorld (Some [Sample.exhausted; Sample.retried]) 500000 [] [] []
                 [Some true] [inr "report-1"] [] [] [])
              Hok Hnd (or_introl eq_refl) Hmax)
    as (c & w' & Hothers & Hpass & Hstill & _).
  exists c, w'. split; [exact Hothers|]. split; [exact Hpass|exact Hstill].
Defined.

(** ** Photos *)

Lemma guarded_upload_event reportId uri w :
  exists ev,
    uploadOf reportId uri ev /\
    tryCatch (uploadPhoto reportId uri) (fun _ => ret tt) w =
      (Return tt, setUploads (tl (uploads w)) ev w).
Proof.
  unfold tryCatch, uploadPhoto, ret, uploadOf. destruct (uploads w) as [|[|] rest];
    eexists; (split; [|reflexivity]); auto.
Qed.

Lemma uploads_loop_events reportId uris w :
  exists w' events,
    forOf uris
      (fun photoUri => tryCatch (uploadPhoto reportId photoUri) (fun _ => ret tt)) w
    = (Return tt, w') /\
    disk w' = disk w /\ clock w' = clock w /\ clockLater w' = clockLater w /\
    envStep w w' events /\
    Forall2 (uploadOf reportId) uris events.
Proof.
  revert w. induction uris as [|uri uris IH]; intros w.
  - exists w, []. repeat (split; [reflexivity|]). split; [apply envStep_refl|constructor].
  - cbn [forOf]. unfold bind.
    destruct (guarded_upload_event reportId uri w) as (ev & Hev & ->).
    destruct (IH (setUploads (tl (uploads w)) ev w))
      as (w' & evs & -> & Hd & Hc & Hl & He & Hall).
    exists w', ([ev] ++ evs).
    split; [reflexivity|]. split; [exact Hd|]. split; [exact Hc|]. split; [exact Hl|].
    split; [eapply envStep_trans; [apply envStep_setUploads|exact He]|].
    constructor; assumption.
Qed.

(** X13: an eligible item is submitted while the device is online, the
    backend acknowledges the report and the storage works.  Then the call
    succeeds and the item is removed from the queue whatever happens to the
    uploads: after the report, the backend receives one upload per photo, in
    the order of the photos, each for the acknowledged report, and a failed
    upload neither stops the later ones nor is tried again. *)
Theorem syncSingleReport_uploads_every_photo_once
    (item : SyncQueueItem) (w : World) (reportId : string)
    (conn : list (option bool)) (answers : list (Js.Error + string)) :
  storageOk w ->
  netinfo w = Some true :: conn ->
  fst (shouldRetry item w) = Return true ->
  backend w = inr reportId :: answers ->
  exists w' events,
    syncSingleReport item w = (Return (mkResult true None), w') /\
    netLog w' = netLog w ++ CreateOk (reportData item) reportId :: events /\
    Forall2 (uploadOf reportId) (photos item) events /\
    disk w' = Some (without (id item) (queueOf (disk w))).
Proof.
  intros Hok Hnet Helig Hback.
  rewrite shouldRetry_eq in Helig. cbn [fst] in Helig. injection Helig as Helig.
  unfold syncSingleReport, submitReport, tryCatch at 1, bind at 1.
  rewrite (isOnline_true _ _ Hnet). cbn [negb].
  unfold bind at 1. rewrite shouldRetry_eq.
  replace (clock (setNetinfo conn w)) with (clock w) by reflexivity.
  rewrite Helig. cbn [negb].
  set (w1 := afterPolicy item (setNetinfo conn w)).
  assert (He1 : envStep w w1 []).
  { eapply envStep_nil_l; [apply envStep_setNetinfo|apply envStep_afterPolicy]. }
  assert (Hd1 : disk w1 = disk w) by (unfold w1; now world).
  assert (Hb1 : backend w1 = backend w) by (unfold w1; now world).
  unfold bind at 1, createReport. rewrite Hb1, Hback.
  set (w2 := setBackend answers (CreateOk (reportData item) reportId) w1).
  unfold bind at 1.
  destruct (uploads_loop_events reportId (photos item) w2)
    as (w3 & evs & -> & Hd3 & _ & _ & He3 & Hall).
  assert (He3' : envStep w w3 ([CreateOk (reportData item) reportId] ++ evs)).
  { eapply envStep_trans; [|exact He3].
    eapply envStep_nil_l; [exact He1|apply envStep_setBackend]. }
  assert (Hok3 : storageOk w3) by (eapply envStep_storageOk; eauto).
  unfold bind. rewrite (removeFromSyncQueue_ok _ _ Hok3). unfold ret.
  do 2 eexists. split; [reflexivity|].
  destruct He3' as (_ & _ & Hlog & _).
  world. split; [exact Hlog|]. split; [exact Hall|].
  rewrite Hd3. unfold w2. world. now rewrite Hd1.
Qed.

Lemma syncSingleReport_uploads_witness :
  exists w' events,
    syncSingleReport twoPhotos lossyUploadWorld = (Return (mkResult true None), w') /\
    netLog w' = CreateOk Sample.pothole "report-7" :: events /\
    Forall2 (uploadOf "report-7") ["file:///a.jpg"; "file:///b.jpg"] events /\
    disk w' = Some [Sample.retried].
Proof.
  apply (syncSingleReport_uploads_every_photo_once twoPhotos lossyUploadWorld
           "report-7" [] []).
  - split; reflexivity.
  - reflexivity.
  - reflexivity.
  - reflexivity.
Defined.

(** ** A storage failure after the acknowledgment *)

Lemma isNetworkError_storageError m : isNetworkError (storageError m) = true.
Proof. unfold isNetworkError, storageError. cbn. apply orb_true_r. Qed.

(** X14: the backend acknowledges the report of an eligible item, then the
    write that removes the item from the queue fails (the later writes
    work).  The storage error has no [response], so it is handled as a
    network error: the call reports "Network error - will retry" and the item
    stays in the queue with its retry count incremented, although the backend
    holds the report: a later pass submits it again. *)
Theorem storage_failure_after_acknowledgment_requeues
    (item : SyncQueueItem) (before after : list SyncQueueItem) (w : World)
    (m reportId : string)
    (conn : list (option bool)) (answers : list (Js.Error + string)) :
  readFaults w = [] ->
  writeFaults w = [Some m] ->
  queueOf (disk w) = before ++ item :: after ->
  ~ In (id item) (ids before) ->
  netinfo w = Some true :: conn ->
  fst (shouldRetry item w) = Return true ->
  backend w = inr reportId :: answers ->
  exists w' events,
    syncSingleReport item w =
      (Return (mkResult false (Some "Network error - will retry")), w') /\
    netLog w' = netLog w ++ CreateOk (reportData item) reportId :: events /\
    disk w' =
      Some (before ++
            mkItem (id item) (reportData item) (photos item)
              (retryCount item + 1) (createdAt item)
              (Some (clock (snd (shouldRetry item w))))
              (Some (Js.orElse (Some m) "Network error")) :: after).
Proof.
  intros Hr Hw Hq Hfirst Hnet Helig Hback.
  rewrite shouldRetry_eq in Helig |- *. cbn [fst snd] in *.
  injection Helig as Helig.
  unfold syncSingleReport, submitReport, tryCatch at 1, bind at 1.
  rewrite (isOnline_true _ _ Hnet). cbn [negb].
  unfold bind at 1. rewrite shouldRetry_eq.
  replace (clock (setNetinfo conn w)) with (clock w) by reflexivity.
  rewrite Helig. cbn [negb].
  set (w1 := afterPolicy item (setNetinfo conn w)).
  assert (He1 : envStep w w1 []).
  { eapply envStep_nil_l; [apply envStep_setNetinfo|apply envStep_afterPolicy]. }
  assert (Hd1 : disk w1 = disk w) by (unfold w1; now world).
  assert (Hb1 : backend w1 = backend w) by (unfold w1; now world).
  assert (Hc1 : clock w1 = clock (afterPolicy item w)).
  { unfold w1, afterPolicy, tickClock. destruct (consultsClock item); cbn;
      [destruct (clockLater w); cbn|]; reflexivity. }
  unfold bind at 1, createReport. rewrite Hb1, Hback.
  set (w2 := setBackend answers (CreateOk (reportData item) reportId) w1).
  unfold bind at 1.
  destruct (uploads_loop_events reportId (photos item) w2)
    as (w3 & evs & -> & Hd3 & Hc3 & _ & He3 & _).
  assert (He3' : envStep w w3 ([CreateOk (reportData item) reportId] ++ evs)).
  { eapply envStep_trans; [|exact He3].
    eapply envStep_nil_l; [exact He1|apply envStep_setBackend]. }
  destruct He3' as (Hr3 & Hw3 & Hlog3 & _).
  assert (Hdisk3 : disk w3 = disk w) by (rewrite Hd3; unfold w2; world; exact Hd1).
  (* the removal reads the queue and fails to write it *)
  unfold bind at 1, removeFromSyncQueue at 1, tryCatch at 1, bind at 1.
  rewrite getSyncQueue_ok by congruence.
  unfold AsyncStorage_setItem at 1. rewrite Hw3, Hw. unfold throw.
  unfold onSubmitError. rewrite isNetworkError_storageError.
  unfold bind at 1. rewrite Date_now_eq.
  set (w4 := tickClock (setWriteFaults [] w3)).
  assert (Hok4 : storageOk w4).
  { unfold w4. split; world; [congruence|reflexivity]. }
  assert (Hq4 : queueOf (disk w4) = before ++ item :: after).
  { unfold w4. world. now rewrite Hdisk3. }
  unfold bind.
  rewrite (updateSyncQueueItem_ok _ _ _ _ _ _ Hok4 Hq4 eq_refl Hfirst).
  unfold ret. do 2 eexists. split; [reflexivity|].
  split.
  - unfold w4. world. exact Hlog3.
  - cbn [disk setDisk]. unfold spread. cbn.
    rewrite Hc3. unfold w2. world. now rewrite Hc1.
Qed.

Lemma storage_failure_after_acknowledgment_witness :
  exists w' events,
    syncSingleReport Sample.retried fullDiskWorld =
      (Return (mkResult false (Some "Network error - will retry")), w') /\
    netLog w' = CreateOk Sample.streetlight "report-9" :: events /\
    disk w' =
      Some [Sample.fresh;
            mkItem "sync_2000_b" Sample.streetlight ["file:///p1.jpg"] 2 2000
              (Some 500200) (Some "disk is full")].
Proof.
  apply (storage_failure_after_acknowledgment_requeues Sample.retried
           [Sample.fresh] [] fullDiskWorld "disk is full" "report-9" [] []).
  - reflexivity.
  - reflexivity.
  - reflexivity.
  - cbn. intros [H | []]. discriminate H.
  - reflexivity.
  - reflexivity.
  - reflexivity.
Defined.

(** ** A pass without connectivity *)

(** X15: while every connectivity check answers false, a pass returns
    normally with nothing synced, sends nothing to the backend and leaves
    the stored queue as it was. *)
Theorem syncPendingReports_offline_is_harmless (w : World) :
  Forall (fun answer => answer <> Some true) (netinfo w) ->
  exists c w',
    syncPendingReports w = (Return c, w') /\
    synced c = 0 /\ disk w' = disk w /\ netLog w' = netLog w.
Proof.
  intros Hoff. unfold syncPendingReports, bind.
  assert (Hoff' : Forall (fun answer => answer <> Some true) (netinfo (popRead w)))
    by now world.
  destruct (getSyncQueue_cases w) as [-> | [_ ->]].
  - destruct (syncLoop_offline_throughout (queueOf (disk w)) (mkCounts 0 0 0)
                (popRead w) Hoff') as (c & w' & -> & Hd & Hl & Hs).
    revert Hd Hl. world. intros Hd Hl.
    exists c, w'. repeat split; auto.
  - cbn. exists (mkCounts 0 0 0), (popRead w). world. repeat split.
Qed.

Lemma syncPendingReports_offline_witness :
  exists c w',
    syncPendingReports (Sample.quiet [Sample.fresh; Sample.retried] 500000) =
      (Return c, w') /\
    synced c = 0 /\ disk w' = Some [Sample.fresh; Sample.retried] /\ netLog w' = [].
Proof.
  apply (syncPendingReports_offline_is_harmless
           (Sample.quiet [Sample.fresh; Sample.retried] 500000)).
  constructor.
Defined.

(** ** Submitting the form *)

Lemma isOnline_env w :
  exists w',
    isOnline w = (Return (nextCheckOnline w), w') /\
    disk w' = disk w /\ backend w' = backend w /\ uploads w' = uploads w /\
    netinfo w' = tl (netinfo w) /\ envStep w w' [].
Proof.
  unfold isOnline, nextCheckOnline.
  destruct (netinfo w) as [|[[|]|] rest] eqn:E; eexists;
    (split; [reflexivity|]); cbn; rewrite ?E;
    repeat (split; [reflexivity|]);
    first [apply envStep_refl | apply envStep_setNetinfo].
Qed.

Lemma addToSyncQueue_env data photoUris w :
  storageOk w ->
  exists newId created w',
    addToSyncQueue data photoUris w = (Return newId, w') /\
    disk w' =
      Some (queueOf (disk w) ++ [mkItem newId data photoUris 0 created None None]) /\
    netLog w' = netLog w.
Proof.
  intros Hok. rewrite (addToSyncQueue_ok data photoUris w Hok).
  do 3 eexists. split; [reflexivity|]. split; [reflexivity|].
  destruct (randoms w); now world.
Qed.

Lemma promiseAll_uploads reportId uris :
  forall w, exists o w' events,
    promiseAll (map (fun uri => uploadPhoto reportId uri) uris) w = (o, w') /\
    disk w' = disk w /\
    envStep w w' events /\
    Forall2 (uploadOf reportId) uris events /\
    (~ In false (firstn (List.length uris) (uploads w)) -> o = Return tt) /\
    (In false (firstn (List.length uris) (uploads w)) -> o = Throw noResponse).
Proof.
  induction uris as [|uri uris IH]; intros w.
  - exists (Return tt), w, []. split; [reflexivity|]. split; [reflexivity|].
    split; [apply envStep_refl|]. split; [constructor|].
    split; [reflexivity|intros []].
  - cbn [map promiseAll List.length firstn]. unfold uploadPhoto at 1.
    destruct (uploads w) as [|[|] rest] eqn:Hu.
    + destruct (IH (setUploads [] (UploadOk reportId uri) w))
        as (o & w' & evs & -> & Hd & He & Hall & Hok & Hbad).
      exists o, w', ([UploadOk reportId uri] ++ evs). split; [reflexivity|].
      split; [exact Hd|].
      split; [eapply envStep_trans; [apply envStep_setUploads|exact He]|].
      split; [constructor; [now left|exact Hall]|].
      revert Hok Hbad. cbn [uploads setUploads]. rewrite firstn_nil. auto.
    + destruct (IH (setUploads rest (UploadOk reportId uri) w))
        as (o & w' & evs & -> & Hd & He & Hall & Hok & Hbad).
      exists o, w', ([UploadOk reportId uri] ++ evs). split; [reflexivity|].
      split; [exact Hd|].
      split; [eapply envStep_trans; [apply envStep_setUploads|exact He]|].
      split; [constructor; [now left|exact Hall]|].
      revert Hok Hbad. cbn [uploads setUploads]. intros Hok Hbad. split.
      * intros Hno. apply Hok. intros Hin. apply Hno. now right.
      * intros [Habs | Hin]; [discriminate|auto].
    + destruct (IH (setUploads rest (UploadFailed reportId uri) w))
        as (o & w' & evs & Hrun & Hd & He & Hall & _ & _).
      rewrite Hrun. cbn [snd].
      exists (Throw noResponse), w', ([UploadFailed reportId uri] ++ evs).
      split; [reflexivity|]. split; [exact Hd|].
      split; [eapply envStep_trans; [apply envStep_setUploads|exact He]|].
      split; [constructor; [now right|exact Hall]|].
      split; [intros Hno; elim Hno; now left|reflexivity].
Qed.

(** X16: a checked form is submitted while the device is offline and the
    storage works: the report is appended to the sync queue with retry
    count 0, the form's data and its photos, nothing is sent to the backend,
    and the "Saved Offline" alert is shown. *)
Theorem submit_offline_enqueues
    (title0 description0 type0 : string) (severity0 : Severity)
    (loc : ReportForm.Location) (photoUris : list string) (w : World) :
  storageOk w ->
  nextCheckOnline w = false ->
  exists newId created w',
    ReportForm.submitChecked title0 description0 type0 severity0 loc photoUris w =
      (Return ReportForm.SavedOffline, w') /\
    disk w' =
      Some (queueOf (disk w) ++
            [mkItem newId (ReportForm.reportOf title0 description0 type0 severity0 loc)
               photoUris 0 created None None]) /\
    netLog w' = netLog w.
Proof.
  intros Hok Hoff.
  unfold ReportForm.submitChecked, tryCatch, ReportForm.trySubmit, bind at 1.
  destruct (isOnline_env w) as (w0 & -> & Hd0 & _ & _ & _ & He0).
  rewrite Hoff. cbn [negb]. unfold bind.
  destruct (addToSyncQueue_env
              (ReportForm.reportOf title0 description0 type0 severity0 loc)
              photoUris w0) as (newId & created & w' & -> & Hd & Hl).
  { eapply envStep_storageOk; eauto. }
  exists newId, created, w'. split; [reflexivity|].
  rewrite Hd, Hd0, Hl. split; [reflexivity|].
  destruct He0 as (_ & _ & Hlog & _). now rewrite Hlog, app_nil_r.
Qed.

Lemma submit_offline_enqueues_witness :
  exists newId created w',
    ReportForm.submitChecked "Pothole" "Deep hole" "pothole" medium
      ReportForm.potholeLocation ["file:///a.jpg"]
      (Sample.quiet [Sample.retried] 7000) =
      (Return ReportForm.SavedOffline, w') /\
    disk w' =
      Some ([Sample.retried] ++
            [mkItem newId Sample.pothole ["file:///a.jpg"] 0 created None None]) /\
    netLog w' = [].
Proof.
  apply (submit_offline_enqueues "Pothole" "Deep hole" "pothole" medium
           ReportForm.potholeLocation ["file:///a.jpg"]
           (Sample.quiet [Sample.retried] 7000)).
  - split; reflexivity.
  - reflexivity.
Defined.

(** X17: a checked form is submitted online and the backend rejects the
    report with an error that is not network-class: the error's message (or
    a default one) is shown, the report is not put in the sync queue and the
    stored queue is untouched, whatever state the storage is in. *)
Theorem submit_rejected_is_not_enqueued
    (title0 description0 type0 : string) (severity0 : Severity)
    (loc : ReportForm.Location) (photoUris : list string) (w : World)
    (e : Js.Error) (conn : list (option bool)) (answers : list (Js.Error + string)) :
  netinfo w = Some true :: conn ->
  backend w = inl e :: answers ->
  isNetworkError e = false ->
  exists w',
    ReportForm.submitChecked title0 description0 type0 severity0 loc photoUris w =
      (Return (ReportForm.Failed
                 (Js.orElse (Js.message e)
                    "Failed to submit report. Please try again.")), w') /\
    disk w' = disk w /\
    readFaults w' = readFaults w /\ writeFaults w' = writeFaults w /\
    netLog w' =
      netLog w ++
      [CreateFailed (ReportForm.reportOf title0 description0 type0 severity0 loc) e].
Proof.
  intros Hnet Hback Hclass.
  unfold ReportForm.submitChecked, tryCatch, ReportForm.trySubmit, bind at 1.
  rewrite (isOnline_true _ _ Hnet). cbn [negb].
  unfold bind at 1, createReport.
  replace (backend (setNetinfo conn w)) with (backend w) by reflexivity.
  rewrite Hback. unfold ReportForm.onSubmitFailure. rewrite Hclass. unfold ret.
  eexists. split; [reflexivity|]. repeat split.
Qed.

Lemma submit_rejected_is_not_enqueued_witness :
  exists w',
    ReportForm.submitChecked "Pothole" "Deep hole" "pothole" medium
      ReportForm.potholeLocation [] rejectingWorld =
      (Return (ReportForm.Failed "Request failed with status code 400"), w') /\
    disk w' = Some [Sample.fresh] /\
    readFaults w' = [] /\ writeFaults w' = [] /\
    netLog w' = [CreateFailed Sample.pothole Sample.badRequest].
Proof.
  apply (submit_rejected_is_not_enqueued "Pothole" "Deep hole" "pothole" medium
           ReportForm.potholeLocation [] rejectingWorld Sample.badRequest [] []).
  - reflexivity.
  - reflexivity.
  - reflexivity.
Defined.

(** X18: a checked form is submitted online, the backend call fails with a
    network-class error and the storage works: the report is appended to the
    sync queue with retry count 0 and no last attempt, and the "Saved
    Offline" alert is shown. *)
Theorem submit_network_error_enqueues
    (title0 description0 type0 : string) (severity0 : Severity)
    (loc : ReportForm.Location) (photoUris : list string) (w : World)
    (e : Js.Error) (conn : list (option bool)) (answers : list (Js.Error + string)) :
  storageOk w ->
  netinfo w = Some true :: conn ->
  backend w = inl e :: answers ->
  isNetworkError e = true ->
  exists newId created w',
    ReportForm.submitChecked title0 description0 type0 severity0 loc photoUris w =
      (Return ReportForm.SavedOffline, w') /\
    disk w' =
      Some (queueOf (disk w) ++
            [mkItem newId (ReportForm.reportOf title0 description0 type0 severity0 loc)
               photoUris 0 created None None]).
Proof.
  intros Hok Hnet Hback Hclass.
  unfold ReportForm.submitChecked, tryCatch at 1, ReportForm.trySubmit, bind at 1.
  rewrite (isOnline_true _ _ Hnet). cbn [negb].
  unfold bind at 1, createReport.
  replace (backend (setNetinfo conn w)) with (backend w) by reflexivity.
  rewrite Hback. unfold ReportForm.onSubmitFailure. rewrite Hclass.
  unfold tryCatch, bind.
  set (w1 := setBackend answers _ _).
  destruct (addToSyncQueue_env
              (ReportForm.reportOf title0 description0 type0 severity0 loc)
              photoUris w1) as (newId & created & w' & -> & Hd & _).
  { destruct Hok. split; assumption. }
  exists newId, created, w'. split; [reflexivity|]. exact Hd.
Qed.

Lemma submit_network_error_enqueues_witness :
  exists newId created w',
    ReportForm.submitChecked "Pothole" "Deep hole" "pothole" medium
      ReportForm.potholeLocation []
      (mkWorld (Some []) 7000 [] [] [] [Some true] [inl Sample.timeout] [] [] []) =
      (Return ReportForm.SavedOffline, w') /\
    disk w' = Some ([] ++ [mkItem newId Sample.pothole [] 0 created None None]).
Proof.
  apply (submit_network_error_enqueues "Pothole" "Deep hole" "pothole" medium
           ReportForm.potholeLocation []
           (mkWorld (Some []) 7000 [] [] [] [Some true] [inl Sample.timeout] [] [] [])
           Sample.timeout [] []).
  - split; reflexivity.
  - reflexivity.
  - reflexivity.
  - reflexivity.
Defined.

(** X19: a checked form is submitted online, the backend acknowledges the
    report, and then the upload of one of its photos fails with no response
    (as a lost connection makes it fail) while the storage works.  The
    failure is taken for a failed submission: the report, which the backend
    holds, is appended to the sync queue as a new item, to be submitted again
    by a later pass, and the "Saved Offline" alert is shown. *)
Theorem submit_upload_failure_enqueues_created_report
    (title0 description0 type0 : string) (severity0 : Severity)
    (loc : ReportForm.Location) (photoUris : list string) (w : World)
    (reportId : string) (conn : list (option bool))
    (answers : list (Js.Error + string)) :
  storageOk w ->
  netinfo w = Some true :: conn ->
  backend w = inr reportId :: answers ->
  In false (firstn (List.length photoUris) (uploads w)) ->
  exists newId created w' events,
    ReportForm.submitChecked title0 description0 type0 severity0 loc photoUris w =
      (Return ReportForm.SavedOffline, w') /\
    netLog w' =
      netLog w ++
      CreateOk (ReportForm.reportOf title0 description0 type0 severity0 loc) reportId
      :: events /\
    disk w' =
      Some (queueOf (disk w) ++
            [mkItem newId (ReportForm.reportOf title0 description0 type0 severity0 loc)
               photoUris 0 created None None]).
Proof.
  intros Hok Hnet Hback Hfail.
  unfold ReportForm.submitChecked, tryCatch at 1, ReportForm.trySubmit, bind at 1.
  rewrite (isOnline_true _ _ Hnet). cbn [negb].
  unfold bind at 1, createReport.
  replace (backend (setNetinfo conn w)) with (backend w) by reflexivity.
  rewrite Hback.
  set (data := ReportForm.reportOf title0 description0 type0 severity0 loc).
  set (w1 := setBackend answers (CreateOk data reportId) (setNetinfo conn w)).
  assert (He1 : envStep w w1 [CreateOk data reportId]).
  { eapply envStep_nil_l; [apply envStep_setNetinfo|apply envStep_setBackend]. }
  assert (Hlen : (0 <? List.length photoUris)%nat = true).
  { destruct photoUris; [destruct Hfail|reflexivity]. }
  rewrite Hlen. unfold bind at 1.
  destruct (promiseAll_uploads reportId photoUris w1)
    as (o & w2 & evs & -> & Hd2 & He2 & _ & _ & Hbad).
  rewrite (Hbad Hfail).
  unfold ReportForm.onSubmitFailure. rewrite isNetworkError_noResponse.
  fold data. unfold tryCatch, bind.
  assert (He2' : envStep w w2 ([CreateOk data reportId] ++ evs))
    by (eapply envStep_trans; eauto).
  destruct (addToSyncQueue_env data photoUris w2)
    as (newId & created & w' & -> & Hd & Hl).
  { eapply envStep_storageOk; eauto. }
  exists newId, created, w', evs. split; [reflexivity|].
  destruct He2' as (_ & _ & Hlog & _). rewrite Hl, Hlog, Hd, Hd2.
  split; reflexivity.
Qed.

Lemma submit_upload_failure_witness :
  exists newId created w' events,
    ReportForm.submitChecked "Pothole" "Deep hole" "pothole" medium
      ReportForm.potholeLocation ["file:///a.jpg"; "file:///b.jpg"]
      (mkWorld (Some []) 7000 [] [] [] [Some true] [inr "report-3"] [true; false]
         [] []) =
      (Return ReportForm.SavedOffline, w') /\
    netLog w' = [] ++ CreateOk Sample.pothole "report-3" :: events /\
    disk w' =
      Some ([] ++ [mkItem newId Sample.pothole ["file:///a.jpg"; "file:///b.jpg"]
                     0 created None None]).
Proof.
  apply (submit_upload_failure_enqueues_created_report
           "Pothole" "Deep hole" "pothole" medium
           ReportForm.potholeLocation ["file:///a.jpg"; "file:///b.jpg"]
           (mkWorld (Some []) 7000 [] [] [] [Some true] [inr "report-3"] [true; false]
              [] [])
           "report-3" [] []).
  - split; reflexivity.
  - reflexivity.
  - reflexivity.
  - cbn. right. now left.
Defined.

Lemma forOf_remove_env (victims : list SyncQueueItem) (w : World) :
  storageOk w ->
  exists w',
    forOf victims (fun item => removeFromSyncQueue (id item)) w = (Return tt, w') /\
    envStep w w' [] /\
    queueOf (disk w') = removeAll (ids victims) (queueOf (disk w)).
Proof.
  revert w. induction victims as [|v victims IH]; intros w Hok.
  - exists w. split; [reflexivity|]. split; [apply envStep_refl|reflexivity].
  - cbn [forOf]. unfold bind. rewrite (removeFromSyncQueue_ok _ _ Hok).
    destruct (IH (setDisk (Some (without (id v) (queueOf (disk w)))) w))
      as (w' & Hrun & Henv & Hq'); [now apply storageOk_setDisk|].
    exists w'. split; [exact Hrun|].
    split; [eapply envStep_nil_l; [apply envStep_setDisk|exact Henv]|exact Hq'].
Qed.

Lemma cleanSyncQueue_env lat lng title0 description0 type0 w :
  storageOk w ->
  NoDup (ids (queueOf (disk w))) ->
  exists w',
    cleanSyncQueue lat lng title0 description0 type0 w = (Return tt, w') /\
    envStep w w' [] /\
    queueOf (disk w') =
      filter (fun item => negb (isDuplicate lat lng title0 description0 type0 item))
        (queueOf (disk w)).
Proof.
  intros Hok Hnd. set (dup := isDuplicate lat lng title0 description0 type0).
  unfold cleanSyncQueue, tryCatch, bind.
  rewrite (getSyncQueue_ok _ (proj1 Hok)). fold dup.
  destruct (forOf_remove_env (filter dup (queueOf (disk w))) w Hok)
    as (w' & -> & Henv & Hq').
  exists w'. split; [reflexivity|]. split; [exact Henv|].
  rewrite Hq', removeAll_filter. apply filter_ext_in. intros item Hin. f_equal.
  destruct (dup item) eqn:Hd.
  - apply existsb_exists. exists (id item). split; [|apply String.eqb_refl].
    apply in_map. apply filter_In. now split.
  - apply not_true_is_false. intros Hex.
    apply existsb_exists in Hex as (i & Hi & Heq).
    apply String.eqb_eq in Heq. apply in_map_iff in Hi as (v & Hv & Hin').
    apply filter_In in Hin' as [Hvq Hvd].
    assert (v = item) by (apply (NoDup_ids_inj _ _ _ Hnd); congruence).
    subst v. congruence.
Qed.

Lemma NoDup_ids_filter (f : SyncQueueItem -> bool) q :
  NoDup (ids q) -> NoDup (ids (filter f q)).
Proof.
  induction q as [|x q IH]; cbn; intros Hnd; [constructor|].
  inversion Hnd as [|? ? Hx Hq]; subst.
  destruct (f x); [|now apply IH].
  cbn. constructor; [|now apply IH].
  intros Hin. apply Hx. apply in_map_iff in Hin as (s & Hs & Hin).
  rewrite <- Hs. apply in_map. now apply filter_In in Hin.
Qed.

Lemma syncPendingReports_returns w :
  storageOk w ->
  NoDup (ids (queueOf (disk w))) ->
  exists c w' events,
    syncPendingReports w = (Return c, w') /\ envStep w w' events.
Proof.
  intros Hok Hnd. unfold syncPendingReports, bind.
  rewrite (getSyncQueue_ok _ (proj1 Hok)).
  destruct (syncLoop_verdicts (queueOf (disk w)) (mkCounts 0 0 0) w Hok Hnd)
    as (vs & c & w' & events & Hloop & _ & Henv & _); [auto|].
  exists c, w', events. split; assumption.
Qed.

Lemma isDuplicate_sameReport lat lng title0 description0 type0 s s' :
  sameReport s s' ->
  isDuplicate lat lng title0 description0 type0 s =
  isDuplicate lat lng title0 description0 type0 s'.
Proof. intros (_ & Hdata & _). unfold isDuplicate. now rewrite Hdata. Qed.

(** X20: a checked form is submitted online, the backend acknowledges the
    report and every photo upload succeeds, while the storage works and the
    stored ids are distinct.  Then the "Success" alert is shown and, after
    the clean-up and the pass that follow, no item of the stored queue is a
    duplicate of the submitted report (same title, description and type,
    less than 10 m away). *)
Theorem submit_success_leaves_no_duplicate
    (title0 description0 type0 : string) (severity0 : Severity)
    (loc : ReportForm.Location) (photoUris : list string) (w : World)
    (reportId : string) (conn : list (option bool))
    (answers : list (Js.Error + string)) :
  storageOk w ->
  NoDup (ids (queueOf (disk w))) ->
  netinfo w = Some true :: conn ->
  backend w = inr reportId :: answers ->
  ~ In false (firstn (List.length photoUris) (uploads w)) ->
  exists w' events,
    ReportForm.submitChecked title0 description0 type0 severity0 loc photoUris w =
      (Return ReportForm.Success, w') /\
    netLog w' =
      netLog w ++
      CreateOk (ReportForm.reportOf title0 description0 type0 severity0 loc) reportId
      :: events /\
    forall s, In s (queueOf (disk w')) ->
      isDuplicate (ReportForm.latitude loc) (ReportForm.longitude loc)
        title0 description0 type0 s = false.
Proof.
  intros Hok Hnd Hnet Hback Hups.
  unfold ReportForm.submitChecked, tryCatch at 1, ReportForm.trySubmit, bind at 1.
  rewrite (isOnline_true _ _ Hnet). cbn [negb].
  unfold bind at 1, createReport.
  replace (backend (setNetinfo conn w)) with (backend w) by reflexivity.
  rewrite Hback.
  set (data := ReportForm.reportOf title0 description0 type0 severity0 loc).
  set (w1 := setBackend answers (CreateOk data reportId) (setNetinfo conn w)).
  assert (He1 : envStep w w1 [CreateOk data reportId]).
  { eapply envStep_nil_l; [apply envStep_setNetinfo|apply envStep_setBackend]. }
  assert (Hup : exists w2 evs,
             (if (0 <? List.length photoUris)%nat
              then promiseAll (map (fun uri => uploadPhoto reportId uri) photoUris)
              else ret tt) w1 = (Return tt, w2) /\
             disk w2 = disk w /\ envStep w w2 ([CreateOk data reportId] ++ evs)).
  { destruct (0 <? List.length photoUris)%nat.
    - destruct (promiseAll_uploads reportId photoUris w1)
        as (o & w2 & evs & Hrun & Hd2 & He2 & _ & Hgood & _).
      rewrite (Hgood Hups) in Hrun. exists w2, evs. split; [exact Hrun|].
      split; [exact Hd2|]. eapply envStep_trans; eauto.
    - exists w1, []. split; [reflexivity|]. split; [reflexivity|].
      now rewrite app_nil_r. }
  destruct Hup as (w2 & evs & Hrun & Hd2 & He2).
  unfold bind at 1. rewrite Hrun.
  assert (Hok2 : storageOk w2) by (eapply envStep_storageOk; eauto).
  unfold bind at 1.
  destruct (cleanSyncQueue_env (ReportForm.latitude loc) (ReportForm.longitude loc)
              title0 description0 type0 w2 Hok2)
    as (w3 & -> & He3 & Hq3); [now rewrite Hd2|].
  assert (Hok3 : storageOk w3) by (eapply envStep_storageOk; eauto).
  assert (Hnd3 : NoDup (ids (queueOf (disk w3)))).
  { rewrite Hq3, Hd2. now apply NoDup_ids_filter. }
  unfold bind at 1, tryCatch, bind at 1.
  pose proof (syncPendingReports_passStep w3) as Hstep.
  destruct (syncPendingReports_returns w3 Hok3 Hnd3) as (c & w4 & evs4 & Hpass & He4).
  rewrite Hpass in Hstep |- *. cbn [snd] in Hstep. unfold ret.
  exists w4, (evs ++ evs4). split; [reflexivity|]. split.
  - destruct (envStep_trans _ _ _ _ _ (envStep_nil_r _ _ _ _ He2 He3) He4)
      as (_ & _ & Hlog & _).
    rewrite Hlog. reflexivity.
  - intros s Hs.
    destruct (passStep_sameReport _ _ Hstep s Hs) as (s0 & Hs0 & Hsame).
    rewrite <- (isDuplicate_sameReport _ _ _ _ _ _ _ Hsame).
    rewrite Hq3 in Hs0. apply filter_In in Hs0 as [_ Hneg].
    now apply negb_true_iff in Hneg.
Qed.

Lemma submit_success_leaves_no_duplicate_witness :
  exists w' events,
    ReportForm.submitChecked "Pothole" "Deep hole" "pothole" medium
      ReportForm.potholeLocation []
      (mkWorld (Some [Sample.fresh; Sample.retried]) 500000 [] [] []
         [Some true] [inr "report-5"] [] [] []) =
      (Return ReportForm.Success, w') /\
    netLog w' = [] ++ CreateOk Sample.pothole "report-5" :: events /\
    forall s, In s (queueOf (disk w')) ->
      isDuplicate (-1.5)%float (30.25)%float "Pothole" "Deep hole" "pothole" s = false.
Proof.
  apply (submit_success_leaves_no_duplicate "Pothole" "Deep hole" "pothole" medium
           ReportForm.potholeLocation []
           (mkWorld (Some [Sample.fresh; Sample.retried]) 500000 [] [] []
              [Some true] [inr "report-5"] [] [] [])
           "report-5" [] []).
  - split; reflexivity.
  - cbn. repeat constructor; cbn; intuition discriminate.
  - reflexivity.
  - reflexivity.
  - intros [].
Defined.

Lemma newErrors_nonempty (f : ReportForm.Form) :
  (String.length (ReportForm.title f) < 3)%nat \/
  (String.length (ReportForm.description f) < 5)%nat \/
  ReportForm.type f = None \/
  ReportForm.severity f = None \/
  ReportForm.location f = None ->
  (0 <? List.length (ReportForm.newErrors f))%nat = true.
Proof.
  intros H. apply Nat.ltb_lt. unfold ReportForm.newErrors.
  rewrite !length_app.
  destruct H as [H | [H | [H | [H | H]]]].
  - apply Nat.ltb_lt in H. rewrite H, orb_true_r. cbn. lia.
  - apply Nat.ltb_lt in H. rewrite H, orb_true_r. cbn [List.length]. lia.
  - rewrite H. cbn [ReportForm.missingType List.length]. lia.
  - rewrite H. cbn [ReportForm.missing List.length]. lia.
  - rewrite H. cbn [ReportForm.missing List.length]. lia.
Qed.

(** X24: a form whose title has fewer than 3 characters, whose description
    has fewer than 5, or that lacks a type, a severity or a location is
    turned down by [handleSubmit] with field errors: nothing is read or
    written in the storage, no connectivity check is made and nothing is
    sent to the backend. *)
Theorem handleSubmit_turns_down_incomplete_form (f : ReportForm.Form) (w : World) :
  (String.length (ReportForm.title f) < 3)%nat \/
  (String.length (ReportForm.description f) < 5)%nat \/
  ReportForm.type f = None \/
  ReportForm.severity f = None \/
  ReportForm.location f = None ->
  exists errors,
    errors <> [] /\
    ReportForm.handleSubmit f w = (Return (ReportForm.Invalid errors), w).
Proof.
  intros H. pose proof (newErrors_nonempty f H) as Hlen.
  exists (ReportForm.newErrors f). split.
  - intros Heq. rewrite Heq in Hlen. discriminate.
  - unfold ReportForm.handleSubmit. now rewrite Hlen.
Qed.

Lemma handleSubmit_turns_down_incomplete_form_witness :
  exists errors,
    errors <> [] /\
    ReportForm.handleSubmit
      (ReportForm.mkForm "Po" "Deep hole" (Some "pothole") (Some medium) []
         (Some ReportForm.potholeLocation))
      flappingWorld = (Return (ReportForm.Invalid errors), flappingWorld).
Proof.
  apply (handleSubmit_turns_down_incomplete_form
           (ReportForm.mkForm "Po" "Deep hole" (Some "pothole") (Some medium) []
              (Some ReportForm.potholeLocation)) flappingWorld).
  left. cbn. lia.
Defined.

(** A form that passes the checks goes to the submission proper. *)
Lemma handleSubmit_complete_form_is_submitted (f : ReportForm.Form)
    (type0 : string) (severity0 : Severity) (loc : ReportForm.Location) (w : World) :
  (3 <= String.length (ReportForm.title f))%nat ->
  (5 <= String.length (ReportForm.description f))%nat ->
  ReportForm.type f = Some type0 -> type0 <> "" ->
  ReportForm.severity f = Some severity0 ->
  ReportForm.location f = Some loc ->
  ReportForm.handleSubmit f w =
    ReportForm.submitChecked (ReportForm.title f) (ReportForm.description f)
      type0 severity0 loc (ReportForm.photos f) w.
Proof.
  intros Ht Hd Hty Hne Hs Hl.
  unfold ReportForm.handleSubmit, ReportForm.newErrors.
  rewrite Hty, Hs, Hl.
  assert (E1 : ReportForm.emptyString (ReportForm.title f) = false)
    by (destruct (ReportForm.title f); [cbn in Ht; lia|reflexivity]).
  assert (E2 : ReportForm.emptyString (ReportForm.description f) = false)
    by (destruct (ReportForm.description f); [cbn in Hd; lia|reflexivity]).
  assert (E3 : (String.length (ReportForm.title f) <? 3)%nat = false)
    by (apply Nat.ltb_ge; exact Ht).
  assert (E4 : (String.length (ReportForm.description f) <? 5)%nat = false)
    by (apply Nat.ltb_ge; exact Hd).
  assert (E5 : ReportForm.missingType (Some type0) = false)
    by (destruct type0; [now elim Hne|reflexivity]).
  rewrite E1, E2, E3, E4, E5. reflexivity.
Qed.

(** ** Draft reports *)

Lemma drafts_getDraftReports_ok (s : Drafts.Store) :
  Drafts.readFaults s = [] ->
  Drafts.getDraftReports s = (Return (Drafts.stored s), s).
Proof.
  intros H. unfold Drafts.getDraftReports, Drafts.tryCatch, Drafts.bind,
    Drafts.getItem, Drafts.ret, Drafts.stored.
  now rewrite H.
Qed.

Lemma drafts_upsert_found d before x after :
  (forall y, In y before -> (Drafts.id y =? Drafts.id d)%string = false) ->
  (Drafts.id x =? Drafts.id d)%string = true ->
  Drafts.upsert d (before ++ x :: after) = before ++ d :: after.
Proof.
  induction before as [|y before IH]; intros Hb Hx; cbn.
  - now rewrite Hx.
  - rewrite (Hb y) by now left. f_equal. apply IH; auto.
    intros z Hz. apply Hb. now right.
Qed.

Lemma drafts_upsert_absent d q :
  (forall y, In y q -> (Drafts.id y =? Drafts.id d)%string = false) ->
  Drafts.upsert d q = q ++ [d].
Proof.
  induction q as [|y q IH]; intros Hq; cbn; [reflexivity|].
  rewrite (Hq y) by now left. f_equal. apply IH. intros z Hz. apply Hq. now right.
Qed.

Lemma findIndex_minus1_none {A} (p : A -> bool) l :
  Js.findIndex p l = -1 -> forall x, In x l -> p x = false.
Proof.
  induction l as [|y l IH]; cbn; intros H x Hx; [destruct Hx|].
  destruct (p y) eqn:Ey; [discriminate|].
  destruct (Js.findIndex p l <? 0) eqn:El; zbool; [|lia].
  destruct Hx as [<-|Hx]; [exact Ey|]. apply IH; [|exact Hx].
  destruct (findIndex_nonneg_or_minus1 p l); [assumption|lia].
Qed.

Lemma drafts_saveDraftReport_ok d (s : Drafts.Store) :
  Drafts.storeOk s ->
  Drafts.saveDraftReport d s =
    (Return tt, Drafts.mkStore (Some (Drafts.upsert d (Drafts.stored s))) [] []).
Proof.
  intros [Hr Hw].
  unfold Drafts.saveDraftReport, Drafts.tryCatch at 1, Drafts.bind at 1.
  rewrite (drafts_getDraftReports_ok s Hr).
  destruct (findIndex_nonneg_or_minus1
              (fun x => (Drafts.id x =? Drafts.id d)%string) (Drafts.stored s))
    as [Hnone | Hfound].
  - rewrite Hnone. cbn [Z.leb Z.compare].
    rewrite (drafts_upsert_absent d _ (findIndex_minus1_none _ _ Hnone)).
    unfold Drafts.setItem. now rewrite Hw, Hr.
  - destruct (findIndex_found _ _ Hfound) as (before & x & after & Hq & Hx & Hb & Hi).
    rewrite Hi, Hq.
    destruct (0 <=? Z.of_nat (List.length before)) eqn:E; zbool; [|lia].
    rewrite Nat2Z.id, setAt_middle, (drafts_upsert_found d before x after Hb Hx).
    unfold Drafts.setItem. now rewrite Hw, Hr.
Qed.

Lemma drafts_upsert_ids d q :
  (In (Drafts.id d) (Drafts.ids q) -> Drafts.ids (Drafts.upsert d q) = Drafts.ids q) /\
  (~ In (Drafts.id d) (Drafts.ids q) -> Drafts.upsert d q = q ++ [d]).
Proof.
  unfold Drafts.ids. induction q as [|y q [IH1 IH2]]; cbn [Drafts.upsert map In app].
  - split; [intros []|reflexivity].
  - destruct (Drafts.id y =? Drafts.id d)%string eqn:E.
    + apply String.eqb_eq in E. split; [intros _; cbn [map]; now rewrite E|].
      intros H. elim H. now left.
    + apply String.eqb_neq in E. split.
      * intros [H | H]; [contradiction|]. cbn [map]. now rewrite IH1.
      * intros H. rewrite IH2; auto.
Qed.

Lemma drafts_upsert_In d q : In d (Drafts.upsert d q).
Proof.
  induction q as [|y q IH]; cbn; [now left|].
  destruct (Drafts.id y =? Drafts.id d)%string; [now left|now right].
Qed.

Lemma drafts_upsert_others d q x :
  Drafts.id x <> Drafts.id d -> (In x (Drafts.upsert d q) <-> In x q).
Proof.
  intros Hne. induction q as [|y q IH]; cbn.
  - split; [intros [<- | []]; now elim Hne|intros []].
  - destruct (Drafts.id y =? Drafts.id d)%string eqn:E.
    + apply String.eqb_eq in E. cbn. split.
      * intros [<- | H]; [now elim Hne|now right].
      * intros [<- | H]; [now elim Hne|now right].
    + cbn. rewrite IH. reflexivity.
Qed.

Lemma drafts_upsert_NoDup d q :
  NoDup (Drafts.ids q) -> NoDup (Drafts.ids (Drafts.upsert d q)).
Proof.
  intros Hnd. destruct (in_dec string_dec (Drafts.id d) (Drafts.ids q)) as [Hin | Hout].
  - now rewrite (proj1 (drafts_upsert_ids d q) Hin).
  - rewrite (proj2 (drafts_upsert_ids d q) Hout). unfold Drafts.ids.
    rewrite map_app. cbn [map].
    apply NoDup_app; [exact Hnd|repeat constructor; intros []|].
    intros x Hx [<- | []]. now apply Hout.
Qed.

(** X21: when the storage works and the stored drafts have distinct ids,
    [saveDraftReport] stores the draft under its id without touching the
    others: the ids stay distinct, the draft is among the drafts that
    [getDraftReports] then returns, a draft with another id is stored after
    the call exactly when it was before, an existing id keeps its place and a
    new one goes to the end. *)
Theorem saveDraftReport_upserts (d : Drafts.DraftReport) (s : Drafts.Store) :
  Drafts.storeOk s ->
  NoDup (Drafts.ids (Drafts.stored s)) ->
  exists s',
    Drafts.saveDraftReport d s = (Return tt, s') /\
    fst (Drafts.getDraftReports s') = Return (Drafts.stored s') /\
    NoDup (Drafts.ids (Drafts.stored s')) /\
    In d (Drafts.stored s') /\
    (forall x, Drafts.id x <> Drafts.id d ->
               (In x (Drafts.stored s') <-> In x (Drafts.stored s))) /\
    (In (Drafts.id d) (Drafts.ids (Drafts.stored s)) ->
       Drafts.ids (Drafts.stored s') = Drafts.ids (Drafts.stored s)) /\
    (~ In (Drafts.id d) (Drafts.ids (Drafts.stored s)) ->
       Drafts.stored s' = Drafts.stored s ++ [d]).
Proof.
  intros Hok Hnd. rewrite (drafts_saveDraftReport_ok d s Hok).
  eexists. split; [reflexivity|]. cbn [Drafts.stored Drafts.drafts].
  split; [reflexivity|].
  split; [now apply drafts_upsert_NoDup|].
  split; [apply drafts_upsert_In|].
  split; [intros x Hx; now apply drafts_upsert_others|].
  apply drafts_upsert_ids.
Qed.

Lemma saveDraftReport_upserts_witness :
  exists s',
    Drafts.saveDraftReport Drafts.sketchEdited
      (Drafts.mkStore (Some [Drafts.sketch; Drafts.otherSketch]) [] []) =
      (Return tt, s') /\
    fst (Drafts.getDraftReports s') = Return (Drafts.stored s') /\
    NoDup (Drafts.ids (Drafts.stored s')) /\
    In Drafts.sketchEdited (Drafts.stored s').
Proof.
  destruct (saveDraftReport_upserts Drafts.sketchEdited
              (Drafts.mkStore (Some [Drafts.sketch; Drafts.otherSketch]) [] []))
    as (s' & H1 & H2 & H3 & H4 & _).
  - split; reflexivity.
  - cbn. repeat constructor; cbn; intuition discriminate.
  - exists s'. repeat split; assumption.
Defined.

Lemma drafts_upsert_twice d1 d2 q :
  Drafts.id d1 = Drafts.id d2 ->
  Drafts.upsert d2 (Drafts.upsert d1 q) = Drafts.upsert d2 q.
Proof.
  intros Hid. induction q as [|y q IH]; cbn [Drafts.upsert].
  - now rewrite Hid, String.eqb_refl.
  - rewrite Hid. destruct (Drafts.id y =? Drafts.id d2)%string eqn:E;
      cbn [Drafts.upsert].
    + now rewrite Hid, String.eqb_refl.
    + now rewrite E, IH.
Qed.

(** X22: when the storage works, saving a draft and then another version of
    it (same id) stores what saving the second version alone stores: the
    last save wins and no second copy is kept. *)
Theorem saveDraftReport_last_save_wins (d1 d2 : Drafts.DraftReport) (s : Drafts.Store) :
  Drafts.storeOk s ->
  Drafts.id d1 = Drafts.id d2 ->
  Drafts.drafts (snd (Drafts.saveDraftReport d2 (snd (Drafts.saveDraftReport d1 s)))) =
  Drafts.drafts (snd (Drafts.saveDraftReport d2 s)).
Proof.
  intros Hok Hid. rewrite (drafts_saveDraftReport_ok d1 s Hok). cbn [snd].
  rewrite (drafts_saveDraftReport_ok d2 s Hok).
  rewrite drafts_saveDraftReport_ok by (split; reflexivity).
  cbn [snd Drafts.drafts Drafts.stored]. now rewrite drafts_upsert_twice.
Qed.

Lemma saveDraftReport_last_save_wins_witness :
  Drafts.drafts
    (snd (Drafts.saveDraftReport Drafts.sketchEdited
            (snd (Drafts.saveDraftReport Drafts.sketch
                    (Drafts.mkStore (Some [Drafts.otherSketch]) [] []))))) =
  Some [Drafts.otherSketch; Drafts.sketchEdited].
Proof.
  rewrite (saveDraftReport_last_save_wins Drafts.sketch Drafts.sketchEdited
             (Drafts.mkStore (Some [Drafts.otherSketch]) [] [])).
  - reflexivity.
  - split; reflexivity.
  - reflexivity.
Defined.

(** X23: when the storage works and no stored draft has the id of [d],
    saving [d] and then deleting its id gives back the drafts stored
    before. *)
Theorem save_then_delete_restores_drafts (d : Drafts.DraftReport) (s : Drafts.Store) :
  Drafts.storeOk s ->
  ~ In (Drafts.id d) (Drafts.ids (Drafts.stored s)) ->
  exists s1 s2,
    Drafts.saveDraftReport d s = (Return tt, s1) /\
    Drafts.deleteDraftReport (Drafts.id d) s1 = (Return tt, s2) /\
    Drafts.drafts s2 = Some (Drafts.stored s).
Proof.
  intros Hok Hout. rewrite (drafts_saveDraftReport_ok d s Hok).
  do 2 eexists. split; [reflexivity|].
  unfold Drafts.deleteDraftReport, Drafts.tryCatch at 1, Drafts.bind at 1.
  rewrite drafts_getDraftReports_ok by reflexivity.
  unfold Drafts.setItem. cbn [Drafts.writeFaults Drafts.readFaults Drafts.stored
                              Drafts.drafts].
  split; [reflexivity|]. cbn [Drafts.drafts]. f_equal.
  rewrite (proj2 (drafts_upsert_ids d _) Hout), filter_app. cbn.
  rewrite String.eqb_refl. cbn. rewrite app_nil_r.
  apply forallb_filter_id. apply forallb_forall. intros x Hx.
  apply negb_true_iff, String.eqb_neq. intros Heq. apply Hout.
  rewrite <- Heq. now apply in_map.
Qed.

Lemma save_then_delete_restores_drafts_witness :
  exists s1 s2,
    Drafts.saveDraftReport Drafts.sketch
      (Drafts.mkStore (Some [Drafts.otherSketch]) [] []) = (Return tt, s1) /\
    Drafts.deleteDraftReport "draft-1" s1 = (Return tt, s2) /\
    Drafts.drafts s2 = Some [Drafts.otherSketch].
Proof.
  apply (save_then_delete_restores_drafts Drafts.sketch
           (Drafts.mkStore (Some [Drafts.otherSketch]) [] [])).
  - split; reflexivity.
  - cbn. intros [H | []]. discriminate H.
Defined.

(** X25: when the read of the drafts fails and the write works,
    [saveDraftReport] returns normally and the store then holds the saved
    draft alone: the drafts stored before are lost.  [clearDraftReports]
    never raises either, whether the removal worked or not. *)
Theorem saveDraftReport_after_failed_read_drops_drafts
    (d : Drafts.DraftReport) (s : Drafts.Store) (m : string)
    (rest : list (option string)) :
  Drafts.readFaults s = Some m :: rest ->
  (forall m' rest', Drafts.writeFaults s <> Some m' :: rest') ->
  exists s',
    Drafts.saveDraftReport d s = (Return tt, s') /\
    Drafts.drafts s' = Some [d] /\
    fst (Drafts.clearDraftReports s') = Return tt.
Proof.
  intros Hr Hw.
  unfold Drafts.saveDraftReport, Drafts.getDraftReports, Drafts.tryCatch,
    Drafts.bind, Drafts.getItem, Drafts.ret, Drafts.setItem, Drafts.throw.
  rewrite Hr. cbn.
  destruct (Drafts.writeFaults s) as [|[m'|] rest'] eqn:E.
  - eexists. split; [reflexivity|]. split; reflexivity.
  - now elim (Hw m' rest').
  - eexists. split; [reflexivity|]. split; [reflexivity|].
    unfold Drafts.clearDraftReports, Drafts.tryCatch, Drafts.removeItem. cbn.
    destruct rest' as [|[?|] ?]; reflexivity.
Qed.

Lemma saveDraftReport_after_failed_read_witness :
  exists s',
    Drafts.saveDraftReport Drafts.sketch
      (Drafts.mkStore (Some [Drafts.otherSketch]) [Some "storage is unavailable"] []) =
      (Return tt, s') /\
    Drafts.drafts s' = Some [Drafts.sketch] /\
    fst (Drafts.clearDraftReports s') = Return tt.
Proof.
  apply (saveDraftReport_after_failed_read_drops_drafts Drafts.sketch
           (Drafts.mkStore (Some [Drafts.otherSketch]) [Some "storage is unavailable"] [])
           "storage is unavailable" []).
  - reflexivity.
  - intros m' rest' H. discriminate H.
Defined.

(** ** Single flight when the triggers see the current state *)

Lemma fireFresh_invariant (h : OfflineSync.Hook) (ev : HookEvent) :
  (OfflineSync.passesInFlight h <= 1)%nat /\
  (OfflineSync.isSyncingCell h = true <-> OfflineSync.passesInFlight h = 1%nat) ->
  (OfflineSync.passesInFlight (fireFresh h ev) <= 1)%nat /\
  (OfflineSync.isSyncingCell (fireFresh h ev) = true <->
   OfflineSync.passesInFlight (fireFresh h ev) = 1%nat).
Proof.
  intros [Hle Hiff].
  assert (Hstart : forall connected,
            (OfflineSync.passesInFlight
               (OfflineSync.performSync (OfflineSync.render connected h) h) <= 1)%nat /\
            (OfflineSync.isSyncingCell
               (OfflineSync.performSync (OfflineSync.render connected h) h) = true <->
             OfflineSync.passesInFlight
               (OfflineSync.performSync (OfflineSync.render connected h) h) = 1%nat)).
  { intros connected. unfold OfflineSync.performSync, OfflineSync.render. cbn.
    destruct (OfflineSync.truthy connected); cbn; [|now split].
    destruct (OfflineSync.isSyncingCell h) eqn:Hcell; cbn.
    { split; [exact Hle|]. rewrite Hcell. exact Hiff. }
    assert (OfflineSync.passesInFlight h = 0%nat) as ->.
    { destruct Hiff as [_ Hback].
      destruct (OfflineSync.passesInFlight h) as [|[|n]]; [reflexivity| |lia].
      discriminate (Hback eq_refl). }
    split; [lia|now split]. }
  destruct ev as [connected|connected|connected|returned now count]; cbn [fireFresh].
  - unfold OfflineSync.syncNow.
    destruct (OfflineSync.isSyncing (OfflineSync.render connected h)); [now split|].
    apply Hstart.
  - apply Hstart.
  - unfold OfflineSync.onConnectivityChange.
    destruct (OfflineSync.truthy _ && negb _); [apply Hstart|now split].
  - destruct (0 <? OfflineSync.passesInFlight h)%nat eqn:Hpos; [|now split].
    apply Nat.ltb_lt in Hpos. unfold OfflineSync.passSettled. cbn.
    assert (OfflineSync.passesInFlight h = 1%nat) as -> by lia.
    cbn. split; [lia|split; discriminate].
Qed.

(** X26: when every trigger ([syncNow], [performSync], the reconnect effect)
    fires through the callbacks of a render that has seen the current state,
    the hook keeps a single pass in flight: after any sequence of such
    triggers and of passes settling, at most one pass is running, and the
    [isSyncing] cell is true exactly while one is. *)
Theorem fresh_triggers_keep_single_flight (events : list HookEvent) :
  (OfflineSync.passesInFlight (fold_left fireFresh events OfflineSync.idle) <= 1)%nat /\
  (OfflineSync.isSyncingCell (fold_left fireFresh events OfflineSync.idle) = true <->
   OfflineSync.passesInFlight (fold_left fireFresh events OfflineSync.idle) = 1%nat).
Proof.
  assert (Hgen : forall h,
            (OfflineSync.passesInFlight h <= 1)%nat /\
            (OfflineSync.isSyncingCell h = true <->
             OfflineSync.passesInFlight h = 1%nat) ->
            (OfflineSync.passesInFlight (fold_left fireFresh events h) <= 1)%nat /\
            (OfflineSync.isSyncingCell (fold_left fireFresh events h) = true <->
             OfflineSync.passesInFlight (fold_left fireFresh events h) = 1%nat)).
  { induction events as [|ev events IH]; intros h Hinv; [exact Hinv|].
    cbn [fold_left]. apply IH. now apply fireFresh_invariant. }
  apply Hgen. cbn. split; [lia|split; discriminate].
Qed.
